(** * Braintrust SDK logger (js/src/logger.ts): shallow embedding

    The development follows the layout of [logger.ts]:

    - [Js]: the JavaScript values an event is made of, with the object
      operations the logger uses (property lookup, assignment, spread,
      [Object.entries], truthiness, the JSON round trip);
    - record validation ([validateTags],
      [validateAndSanitizeExperimentLogPartialArgs],
      [validateAndSanitizeExperimentLogFullArgs]);
    - the [BackgroundLogger] (queue, drop policy, flush passes, batch
      submission with legacy fallback);
    - [SpanImpl] (identity, [logInternal], [startSpan], [end]);
    - the toplevel [Logger] and [Experiment] objects.

    Conventions.  JavaScript numbers that carry data (scores, metrics,
    timestamps) are binary64 floats; counters, sizes and loop bounds are
    integers ([Z], [nat]).  A method that may throw returns a [Result];
    a method that also mutates state is a function from the state to a
    [Result] and the state after the call, so that writes made before a
    [throw] stay visible. *)

From Stdlib Require Import List String Ascii Bool ZArith Lia.
From Stdlib Require Import Floats.PrimFloat DecimalString.
From Stdlib Require Uint63.
Import ListNotations.
Open Scope string_scope.

Set Implicit Arguments.
Set Warnings "-register-all,-inexact-float".

(** ** Errors and results *)

(** What a [throw] carries: a plain [Error] with its message, the
    [FailedHTTPResponse] of [checkResponse], the [AggregateError] of a
    flush pass, or the host's [TypeError]. *)
Inductive JsError : Type :=
| Error (message : string)
| FailedHTTPResponse (status : Z) (text data : string)
| AggregateError (errors : list JsError) (message : string)
| TypeError (message : string).

Inductive Result (A : Type) : Type :=
| Ok (value : A)
| Throw (e : JsError).

Arguments Ok {A} value.
Arguments Throw {A} e.

Definition isOk {A} (r : Result A) : bool :=
  match r with Ok _ => true | Throw _ => false end.

Definition isThrow {A} (r : Result A) : bool := negb (isOk r).

Definition rbind {A B} (r : Result A) (k : A -> Result B) : Result B :=
  match r with Ok a => k a | Throw e => Throw e end.

(** ** JavaScript values *)

Module Js.

(** [undefined] and the JSON values.  An object is the list of its own
    enumerable properties in the order [Object.entries] lists them; the
    keys of a well-formed object are pairwise distinct ([wf_value]).
    Array-index keys, which JavaScript enumerates first, and objects
    that are not plain data (streams, class instances, functions) are
    outside this model. *)
Inductive JsValue : Type :=
| JUndefined
| JNull
| JBool (b : bool)
| JNum (x : float)
| JStr (s : string)
| JArr (elems : list JsValue)
| JObj (props : list (string * JsValue)).

Definition JsObject : Type := list (string * JsValue).

(** [typeof v] *)
Definition typeof (v : JsValue) : string :=
  match v with
  | JUndefined => "undefined"
  | JNull => "object"
  | JBool _ => "boolean"
  | JNum _ => "number"
  | JStr _ => "string"
  | JArr _ => "object"
  | JObj _ => "object"
  end.

(** ToBoolean: [undefined], [null], [false], [0], [-0], [NaN] and the
    empty string are falsy. *)
Definition truthy (v : JsValue) : bool :=
  match v with
  | JUndefined => false
  | JNull => false
  | JBool b => b
  | JNum x => negb (is_zero x || is_nan x)
  | JStr s => negb (s =? "")
  | JArr _ => true
  | JObj _ => true
  end.

(** [v === null || v === undefined] *)
Definition nullish (v : JsValue) : bool :=
  match v with JUndefined => true | JNull => true | _ => false end.

(** Own property lookup: [k in o] and [o[k]]. *)
Fixpoint obj_get (k : string) (o : JsObject) : option JsValue :=
  match o with
  | [] => None
  | (k', v) :: rest => if k =? k' then Some v else obj_get k rest
  end.

Definition obj_has (k : string) (o : JsObject) : bool :=
  match obj_get k o with Some _ => true | None => false end.

Definition prop (k : string) (o : JsObject) : JsValue :=
  match obj_get k o with Some v => v | None => JUndefined end.

(** [o[k] = v]: an existing property keeps its place, a new one goes
    last. *)
Fixpoint obj_set (k : string) (v : JsValue) (o : JsObject) : JsObject :=
  match o with
  | [] => [(k, v)]
  | (k', v') :: rest =>
      if k =? k' then (k, v) :: rest else (k', v') :: obj_set k v rest
  end.

(** [{...into, ...from}] *)
Definition obj_spread (into from : JsObject) : JsObject :=
  fold_left (fun acc kv => obj_set (fst kv) (snd kv) acc) from into.

(** The rest of [const { k: _, ...rest } = o]. *)
Definition obj_omit (k : string) (o : JsObject) : JsObject :=
  filter (fun kv => negb (fst kv =? k)) o.

(** [v.k] for a key that is neither an array index nor a built-in
    ([length] and the like): only plain objects have such a property. *)
Definition member (k : string) (v : JsValue) : JsValue :=
  match v with JObj o => prop k o | _ => JUndefined end.

(** Decimal spelling of an array index. *)
Definition index_key (n : nat) : string :=
  NilZero.string_of_uint (Nat.to_uint n).

Fixpoint indexed {A} (n : nat) (l : list A) : list (string * A) :=
  match l with
  | [] => []
  | x :: rest => (index_key n, x) :: indexed (S n) rest
  end.

Fixpoint chars (s : string) : list JsValue :=
  match s with
  | EmptyString => []
  | String c rest => JStr (String c EmptyString) :: chars rest
  end.

(** [Object.entries(v)] for a value that is not [null] or [undefined]
    (every call site tests the value for truthiness first): the
    properties of an object, the indexed elements of an array, the
    indexed characters of a string, nothing for a number or a boolean. *)
Definition entries (v : JsValue) : list (string * JsValue) :=
  match v with
  | JObj o => o
  | JArr l => indexed 0 l
  | JStr s => indexed 0 (chars s)
  | _ => []
  end.

(** [Array.isArray(v)] *)
Definition isArray (v : JsValue) : bool :=
  match v with JArr _ => true | _ => false end.

(** [for (const x of v)]: arrays yield their elements, strings their
    characters; anything else is not iterable. *)
Definition iterate (v : JsValue) : Result (list JsValue) :=
  match v with
  | JArr l => Ok l
  | JStr s => Ok (chars s)
  | _ => Throw (TypeError "tags is not iterable")
  end.

(** [(v ?? []).length > 0] for [undefined], [null], the primitives,
    arrays, and objects without a [length] property of their own. *)
Definition nonempty_length (v : JsValue) : bool :=
  match v with
  | JArr l => match l with [] => false | _ => true end
  | JStr s => negb (s =? "")
  | _ => false
  end.

(** [JSON.parse(JSON.stringify(v))] at a property position: [None] when
    the property is left out ([undefined]).  Non-finite numbers become
    [null], [-0] becomes [0], an [undefined] array element becomes
    [null]; a finite double survives unchanged. *)
Fixpoint json_roundtrip (v : JsValue) : option JsValue :=
  match v with
  | JUndefined => None
  | JNull => Some JNull
  | JBool b => Some (JBool b)
  | JNum x =>
      Some (if is_nan x || is_infinity x then JNull
            else if is_zero x then JNum zero else JNum x)
  | JStr s => Some (JStr s)
  | JArr l =>
      Some (JArr (map (fun e => match json_roundtrip e with
                                | Some e' => e'
                                | None => JNull
                                end) l))
  | JObj o =>
      Some (JObj ((fix props (o : list (string * JsValue)) : JsObject :=
                     match o with
                     | [] => []
                     | (k, v) :: rest =>
                         match json_roundtrip v with
                         | Some v' => (k, v') :: props rest
                         | None => props rest
                         end
                     end) o))
  end.

Fixpoint json_props (o : JsObject) : JsObject :=
  match o with
  | [] => []
  | (k, v) :: rest =>
      match json_roundtrip v with
      | Some v' => (k, v') :: json_props rest
      | None => json_props rest
      end
  end.

(** Keys pairwise distinct, at every depth. *)
Fixpoint wf_value (v : JsValue) : Prop :=
  match v with
  | JArr l => (fix all (l : list JsValue) : Prop :=
                 match l with
                 | [] => True
                 | e :: rest => wf_value e /\ all rest
                 end) l
  | JObj o => NoDup (map fst o) /\
              (fix all (o : list (string * JsValue)) : Prop :=
                 match o with
                 | [] => True
                 | (_, e) :: rest => wf_value e /\ all rest
                 end) o
  | _ => True
  end.

Definition wf_object (o : JsObject) : Prop := wf_value (JObj o).

End Js.

Import Js.

(** ** Record validation *)

(** [validateTags]: the loop over the tags.  [seen] is the [Set] the
    function creates; the source tests membership in it and never adds
    to it, so it is passed along unchanged. *)
Fixpoint validateTags_loop (seen : list string) (tags : list JsValue)
  : Result unit :=
  match tags with
  | [] => Ok tt
  | tag :: rest =>
      match tag with
      | JStr s =>
          if existsb (String.eqb s) seen
          then Throw (Error ("duplicate tag: " ++ s))
          else validateTags_loop seen rest
      | _ => Throw (Error "tags must be strings")
      end
  end.

Definition validateTags (tags : JsValue) : Result unit :=
  rbind (iterate tags) (validateTags_loop []).

(** The loop over [Object.entries(event.scores)].  [scores] is the
    object [event.scores] refers to, which the loop updates in place
    when it coerces a boolean. *)
Fixpoint scores_loop (ents : list (string * JsValue)) (scores : JsValue)
  : Result JsValue :=
  match ents with
  | [] => Ok scores
  | (name, score) :: rest =>
      if nullish score then scores_loop rest scores
      else
        let '(score', scores') :=
          match score with
          | JBool b =>
              let n := JNum (if b then one else zero) in
              (n, match scores with
                  | JObj o => JObj (obj_set name n o)
                  | other => other
                  end)
          | _ => (score, scores)
          end in
        match score' with
        | JNum x =>
            if (x <? zero)%float || (one <? x)%float
            then Throw (Error "score values must be between 0 and 1")
            else scores_loop rest scores'
        | _ => Throw (Error "score values must be numbers")
        end
  end.

(** The loop over [Object.entries(event.metrics)]. *)
Fixpoint metrics_loop (ents : list (string * JsValue)) : Result unit :=
  match ents with
  | [] => Ok tt
  | (_, value) :: rest =>
      match value with
      | JUndefined => metrics_loop rest
      | JNum _ => metrics_loop rest
      | _ => Throw (Error "metric values must be numbers")
      end
  end.

(** The blocks of [validateAndSanitizeExperimentLogPartialArgs], in the
    order of the source.  The key tests [typeof name !== "string"] of
    the three loops never fire (property keys are strings), so the
    metadata loop does nothing. *)

(** [if (event.scores) { ... }]; the value is the event with the
    object [event.scores] as the loop leaves it. *)
Definition check_scores (event : JsObject) : Result JsObject :=
  if truthy (prop "scores" event) then
    if isArray (prop "scores" event)
    then Throw (Error "scores must be an object, not an array")
    else
      rbind (scores_loop (entries (prop "scores" event))
               (prop "scores" event))
        (fun scores' => Ok (obj_set "scores" scores' event))
  else Ok event.

(** [if (event.metrics) { ... }] *)
Definition check_metrics (event : JsObject) : Result unit :=
  if truthy (prop "metrics" event)
  then metrics_loop (entries (prop "metrics" event))
  else Ok tt.

(** ["input" in event && event.input && "inputs" in event &&
    event.inputs] *)
Definition input_and_inputs (event : JsObject) : bool :=
  obj_has "input" event && truthy (prop "input" event) &&
  obj_has "inputs" event && truthy (prop "inputs" event).

(** [if ("tags" in event && event.tags) { validateTags(event.tags) }] *)
Definition check_tags (event : JsObject) : Result unit :=
  if obj_has "tags" event && truthy (prop "tags" event)
  then validateTags (prop "tags" event)
  else Ok tt.

(** The [return]: [{ input: inputs, ...rest }] when the event has the
    deprecated key, a copy of the event otherwise. *)
Definition rename_inputs (event : JsObject) : JsObject :=
  if obj_has "inputs" event
  then obj_spread [("input", prop "inputs" event)] (obj_omit "inputs" event)
  else event.

(** [validateAndSanitizeExperimentLogPartialArgs] *)
Definition validateAndSanitizeExperimentLogPartialArgs (event : JsObject)
  : Result JsObject :=
  rbind (check_scores event) (fun event =>
  rbind (check_metrics event) (fun _ =>
  if input_and_inputs event
  then Throw (Error
    "Only one of input or inputs (deprecated) can be specified. Prefer input.")
  else
  rbind (check_tags event) (fun _ =>
  Ok (rename_inputs event)))).

(** ** Deferred values, queue items and the outside world *)

(** Modelled from the spec: [LazyValue] is defined in ./util, which is
    not under src/.  Spec 4.1: a single-flight memoized cell; [get()]
    returns the eventually-resolved value, every caller observes the
    same completed result, and if the producer throws every waiter
    observes the same rejection.  The cell is therefore given by the one
    outcome its producer settles to. *)
Record LazyValue (A : Type) : Type := { get : Result A }.

Arguments get {A} l.

(** [SpanObjectTypeV2] of @braintrust/core, as far as logger.ts names
    its members. *)
Inductive SpanObjectTypeV2 : Type := EXPERIMENT | PROJECT_LOGS.

(** What the closure [computeRecord] of [SpanImpl.logInternal] captures:
    the parsed partial record and the parent object whose id is spread
    into the record when it is resolved.  A queue item
    ([LazyValue<BackgroundLogEvent>]) is this closure. *)
Record LazyRecord : Type := {
  partialRecord : JsObject;
  recordObjectType : SpanObjectTypeV2;
  recordObjectId : LazyValue string
}.

(** [HTTPConnection] as the logger uses it: [post_json(path, body)]
    either returns or throws ([checkResponse] throws a
    [FailedHTTPResponse] on a non-2xx answer).  The third argument is
    the number of the submission attempt, so that the server may answer
    differently from one attempt to the next. *)
Record HTTPConnection : Type := {
  post_json : string -> string -> Z -> Result unit
}.

(** What the logger does to the outside world, in order. *)
Inductive Effect : Type :=
| Post (path body : string)
| Warn (message : string)
| WarnError (e : JsError)
| WarnDropped (numDropped : Z)
| WarnLogRequestFailed (payloadSize : nat) (retryingText : string)
    (e : JsError)
| WarnGaveUp (message : string) (numTries : Z)
| WritePayload (payloadDir payload : string)
| Sleep (milliseconds : Z).

(** ** BackgroundLogger *)

(** The fields of the class.  [activeFlush] is the promise of the pass
    in flight: [Some wrappedItems] while a pass is suspended, holding
    the list it drained, [None] once the promise has settled, so
    [activeFlushResolved] is read off it.  [numDropped] and
    [lastLoggedTimestamp] are the two fields of
    [queueDropLoggingState]. *)
Record BackgroundLogger : Type := {
  apiConn : LazyValue HTTPConnection;
  items : list LazyRecord;
  activeFlush : option (list LazyRecord);
  activeFlushError : option JsError;
  syncFlush : bool;
  maxRequestSize : Z;
  defaultBatchSize : Z;
  numTries : Z;
  queueDropExceedingMaxsize : option Z;
  queueDropLoggingPeriod : float;
  failedPublishPayloadsDir : option string;
  allPublishPayloadsDir : option string;
  numDropped : Z;
  lastLoggedTimestamp : float
}.

Definition activeFlushResolved (bg : BackgroundLogger) : bool :=
  match activeFlush bg with None => true | Some _ => false end.

Definition set_items (v : list LazyRecord) (bg : BackgroundLogger) :=
  {| apiConn := apiConn bg; items := v; activeFlush := activeFlush bg;
     activeFlushError := activeFlushError bg; syncFlush := syncFlush bg;
     maxRequestSize := maxRequestSize bg;
     defaultBatchSize := defaultBatchSize bg; numTries := numTries bg;
     queueDropExceedingMaxsize := queueDropExceedingMaxsize bg;
     queueDropLoggingPeriod := queueDropLoggingPeriod bg;
     failedPublishPayloadsDir := failedPublishPayloadsDir bg;
     allPublishPayloadsDir := allPublishPayloadsDir bg;
     numDropped := numDropped bg;
     lastLoggedTimestamp := lastLoggedTimestamp bg |}.

Definition set_activeFlush (v : option (list LazyRecord))
  (bg : BackgroundLogger) :=
  {| apiConn := apiConn bg; items := items bg; activeFlush := v;
     activeFlushError := activeFlushError bg; syncFlush := syncFlush bg;
     maxRequestSize := maxRequestSize bg;
     defaultBatchSize := defaultBatchSize bg; numTries := numTries bg;
     queueDropExceedingMaxsize := queueDropExceedingMaxsize bg;
     queueDropLoggingPeriod := queueDropLoggingPeriod bg;
     failedPublishPayloadsDir := failedPublishPayloadsDir bg;
     allPublishPayloadsDir := allPublishPayloadsDir bg;
     numDropped := numDropped bg;
     lastLoggedTimestamp := lastLoggedTimestamp bg |}.

Definition set_activeFlushError (v : option JsError)
  (bg : BackgroundLogger) :=
  {| apiConn := apiConn bg; items := items bg;
     activeFlush := activeFlush bg;
     activeFlushError := v; syncFlush := syncFlush bg;
     maxRequestSize := maxRequestSize bg;
     defaultBatchSize := defaultBatchSize bg; numTries := numTries bg;
     queueDropExceedingMaxsize := queueDropExceedingMaxsize bg;
     queueDropLoggingPeriod := queueDropLoggingPeriod bg;
     failedPublishPayloadsDir := failedPublishPayloadsDir bg;
     allPublishPayloadsDir := allPublishPayloadsDir bg;
     numDropped := numDropped bg;
     lastLoggedTimestamp := lastLoggedTimestamp bg |}.

Definition set_queueDropLoggingState (dropped : Z) (stamp : float)
  (bg : BackgroundLogger) :=
  {| apiConn := apiConn bg; items := items bg;
     activeFlush := activeFlush bg;
     activeFlushError := activeFlushError bg; syncFlush := syncFlush bg;
     maxRequestSize := maxRequestSize bg;
     defaultBatchSize := defaultBatchSize bg; numTries := numTries bg;
     queueDropExceedingMaxsize := queueDropExceedingMaxsize bg;
     queueDropLoggingPeriod := queueDropLoggingPeriod bg;
     failedPublishPayloadsDir := failedPublishPayloadsDir bg;
     allPublishPayloadsDir := allPublishPayloadsDir bg;
     numDropped := dropped;
     lastLoggedTimestamp := stamp |}.

(** The environment options the constructor reads.  A numeric option is
    [Number(iso.getEnv(name))] when that is not [NaN]; the counts are
    taken to be integers. *)
Record Env : Type := {
  BRAINTRUST_SYNC_FLUSH : option Z;
  BRAINTRUST_DEFAULT_BATCH_SIZE : option Z;
  BRAINTRUST_MAX_REQUEST_SIZE : option Z;
  BRAINTRUST_NUM_RETRIES : option Z;
  BRAINTRUST_QUEUE_DROP_EXCEEDING_MAXSIZE : option Z;
  BRAINTRUST_QUEUE_DROP_LOGGING_PERIOD : option float;
  BRAINTRUST_FAILED_PUBLISH_PAYLOADS_DIR : option string;
  BRAINTRUST_ALL_PUBLISH_PAYLOADS_DIR : option string
}.

Definition no_env : Env :=
  {| BRAINTRUST_SYNC_FLUSH := None;
     BRAINTRUST_DEFAULT_BATCH_SIZE := None;
     BRAINTRUST_MAX_REQUEST_SIZE := None;
     BRAINTRUST_NUM_RETRIES := None;
     BRAINTRUST_QUEUE_DROP_EXCEEDING_MAXSIZE := None;
     BRAINTRUST_QUEUE_DROP_LOGGING_PERIOD := None;
     BRAINTRUST_FAILED_PUBLISH_PAYLOADS_DIR := None;
     BRAINTRUST_ALL_PUBLISH_PAYLOADS_DIR := None |}.

Definition or_default {A} (o : option A) (d : A) : A :=
  match o with Some a => a | None => d end.

(** A directory option is used when it is a non-empty string. *)
Definition dir_set (d : option string) : bool :=
  match d with Some s => negb (s =? "") | None => false end.

Definition env_dir (d : option string) : option string :=
  if dir_set d then d else None.

(** The constructor: the field initialisers, then the environment. *)
Definition BackgroundLogger_new (conn : LazyValue HTTPConnection)
  (env : Env) : BackgroundLogger :=
  {| apiConn := conn;
     items := [];
     activeFlush := None;
     activeFlushError := None;
     syncFlush :=
       match BRAINTRUST_SYNC_FLUSH env with
       | Some n => negb (n =? 0)%Z
       | None => false
       end;
     maxRequestSize :=
       or_default (BRAINTRUST_MAX_REQUEST_SIZE env) (6 * 1024 * 1024)%Z;
     defaultBatchSize :=
       or_default (BRAINTRUST_DEFAULT_BATCH_SIZE env) 100%Z;
     numTries :=
       match BRAINTRUST_NUM_RETRIES env with
       | Some n => (n + 1)%Z
       | None => 3%Z
       end;
     queueDropExceedingMaxsize :=
       BRAINTRUST_QUEUE_DROP_EXCEEDING_MAXSIZE env;
     queueDropLoggingPeriod :=
       or_default (BRAINTRUST_QUEUE_DROP_LOGGING_PERIOD env) 60%float;
     failedPublishPayloadsDir :=
       env_dir (BRAINTRUST_FAILED_PUBLISH_PAYLOADS_DIR env);
     allPublishPayloadsDir :=
       env_dir (BRAINTRUST_ALL_PUBLISH_PAYLOADS_DIR env);
     numDropped := 0%Z;
     lastLoggedTimestamp := zero |}.

(** The [BraintrustState] the logger objects share, with the module
    global [executionCounter] and the outside world: the effects so
    far, the [dumpDroppedEvents] tasks started and not yet run, and how
    many UUIDs and clock readings have been drawn. *)
Record World : Type := {
  bgLogger : BackgroundLogger;
  trace : list Effect;
  dumps : list (list LazyRecord);
  uuidCount : nat;
  clockCount : nat;
  executionCounter : nat
}.

Definition set_bgLogger (bg : BackgroundLogger) (w : World) : World :=
  {| bgLogger := bg; trace := trace w; dumps := dumps w;
     uuidCount := uuidCount w; clockCount := clockCount w;
     executionCounter := executionCounter w |}.

(** ** State and exceptions *)

Definition M (S A : Type) : Type := S -> Result A * S.

Definition ret {S A} (a : A) : M S A := fun s => (Ok a, s).

Definition throw {S A} (e : JsError) : M S A := fun s => (Throw e, s).

Definition bind {S A B} (c : M S A) (k : A -> M S B) : M S B :=
  fun s => match c s with
           | (Ok a, s') => k a s'
           | (Throw e, s') => (Throw e, s')
           end.

(** [try { c } catch (e) { h(e) }] *)
Definition catch {S A} (c : M S A) (h : JsError -> M S A) : M S A :=
  fun s => match c s with
           | (Ok a, s') => (Ok a, s')
           | (Throw e, s') => h e s'
           end.

Definition lift {S A} (r : Result A) : M S A := fun s => (r, s).

Definition modify {S} (f : S -> S) : M S unit := fun s => (Ok tt, f s).

Definition gets {S A} (f : S -> A) : M S A := fun s => (Ok (f s), s).

Declare Scope js_scope.
Delimit Scope js_scope with js.
Notation "x <- c ;; k" := (bind c (fun x => k))
  (at level 61, c at next level, right associativity) : js_scope.
Notation "c ;; k" := (bind c (fun _ => k))
  (at level 61, right associativity) : js_scope.
Open Scope js_scope.

(** Run a method of an object [o] from code that holds the world: the
    object after the call is returned with the value. *)
Definition call {O A} (o : O) (c : M (O * World) A) : M World (A * O) :=
  fun w => match c (o, w) with
           | (Ok a, (o', w')) => (Ok (a, o'), w')
           | (Throw e, (_, w')) => (Throw e, w')
           end.

(** Run code on the world from a method of an object. *)
Definition world {O A} (c : M World A) : M (O * World) A :=
  fun ow => match c (snd ow) with (r, w') => (r, (fst ow, w')) end.

Definition emit (e : Effect) : M World unit :=
  modify (fun w =>
    {| bgLogger := bgLogger w; trace := (trace w ++ [e])%list;
       dumps := dumps w;
       uuidCount := uuidCount w; clockCount := clockCount w;
       executionCounter := executionCounter w |}).

Definition update_bg (f : BackgroundLogger -> BackgroundLogger)
  : M World unit :=
  modify (fun w => set_bgLogger (f (bgLogger w)) w).

Definition bg {A} (f : BackgroundLogger -> A) : M World A :=
  gets (fun w => f (bgLogger w)).

Section Logger.

(** *** What logger.ts imports

    The helpers of @braintrust/core and ./util and the host facilities
    the code below calls; none of them is under src/. *)

(** [uuidv4()]: the n-th UUID drawn. *)
Variable uuid_at : nat -> string.
(** [getCurrentUnixTimestamp()]: the n-th reading of the clock. *)
Variable time_at : nat -> float.
(** [mergeDicts(into, from)], returning the updated [into]. *)
Variable mergeDicts : JsObject -> JsObject -> JsObject.
(** [mergeRowBatch] *)
Variable mergeRowBatch : list JsValue -> list (list JsValue).
(** [batchItems({items, batchMaxNumItems, batchMaxNumBytes})] *)
Variable batchItems :
  list (list string) -> Z -> Z -> list (list (list string)).
(** [JSON.stringify] of a resolved record *)
Variable stringify : JsValue -> string.
(** [constructJsonArray] *)
Variable constructJsonArray : list string -> string.
(** [JSON.stringify(makeLegacyEvent(JSON.parse(r)))] *)
Variable legacyEvent : string -> Result string.
(** [new SpanComponentsV2({objectType, objectId}).objectIdFields()] *)
Variable objectIdFields : SpanObjectTypeV2 -> string -> JsObject.
(** [iso.pathJoin && iso.mkdir && iso.writeFile] *)
Variable fsSupported : bool.
(** [isEmpty] of ./util *)
Variable isEmpty : JsValue -> bool.

Definition uuidv4 : M World string :=
  fun w =>
    (Ok (uuid_at (uuidCount w)),
     {| bgLogger := bgLogger w; trace := trace w; dumps := dumps w;
        uuidCount := S (uuidCount w); clockCount := clockCount w;
        executionCounter := executionCounter w |}).

Definition getCurrentUnixTimestamp : M World float :=
  fun w =>
    (Ok (time_at (clockCount w)),
     {| bgLogger := bgLogger w; trace := trace w; dumps := dumps w;
        uuidCount := uuidCount w; clockCount := S (clockCount w);
        executionCounter := executionCounter w |}).

(** [executionCounter++] *)
Definition next_exec_counter : M World nat :=
  fun w =>
    (Ok (executionCounter w),
     {| bgLogger := bgLogger w; trace := trace w; dumps := dumps w;
        uuidCount := uuidCount w; clockCount := clockCount w;
        executionCounter := S (executionCounter w) |}).

Definition spawn_dump (wrapped : list LazyRecord) : M World unit :=
  modify (fun w =>
    {| bgLogger := bgLogger w; trace := trace w;
       dumps := (dumps w ++ [wrapped])%list;
       uuidCount := uuidCount w; clockCount := clockCount w;
       executionCounter := executionCounter w |}).

(** The body of [computeRecord]. *)
Definition computeRecord (r : LazyRecord) : Result JsValue :=
  rbind (get (recordObjectId r)) (fun objectId =>
    Ok (JObj (obj_spread (partialRecord r)
                (objectIdFields (recordObjectType r) objectId)))).

Definition dquote : string := String (ascii_of_nat 34) EmptyString.

(** [constructLogs3Data] *)
Definition constructLogs3Data (items : list string) : string :=
  "{" ++ dquote ++ "rows" ++ dquote ++ ": " ++ constructJsonArray items
      ++ ", " ++ dquote ++ "api_version" ++ dquote ++ ": 2}".

(** [logFailedPayloadsDir] *)
Definition logFailedPayloadsDir : M World unit :=
  d <- bg failedPublishPayloadsDir ;;
  emit (Warn ("Logging failed payloads to " ++ or_default d "undefined")).

(** [registerDroppedItemCount] *)
Definition registerDroppedItemCount (numItems : Z) : M World unit :=
  if (numItems <=? 0)%Z then ret tt
  else
    update_bg (fun b =>
      set_queueDropLoggingState (numDropped b + numItems)
        (lastLoggedTimestamp b) b) ;;
    timeNow <- getCurrentUnixTimestamp ;;
    last <- bg lastLoggedTimestamp ;;
    period <- bg queueDropLoggingPeriod ;;
    if (period <? timeNow - last)%float then
      n <- bg numDropped ;;
      emit (WarnDropped n) ;;
      failedDir <- bg failedPublishPayloadsDir ;;
      (if dir_set failedDir then logFailedPayloadsDir else ret tt) ;;
      update_bg (set_queueDropLoggingState 0 timeNow)
    else ret tt.

(** [writePayloadToDir]; the file name (a timestamp and a random
    suffix) is left out, and so is the [console.error] of a write that
    fails. *)
Definition writePayloadToDir (payloadDir payload : string)
  : M World unit :=
  if fsSupported then emit (WritePayload payloadDir payload)
  else emit (Warn
    "Cannot dump payloads: filesystem-operations not supported on this platform").

(** [Promise.all(wrappedItems.map((x) => x.get()))]: the records when
    every item resolves, else the rejection of the first item that
    rejects. *)
Fixpoint get_all (wrapped : list LazyRecord) : Result (list JsValue) :=
  match wrapped with
  | [] => Ok []
  | x :: rest =>
      rbind (computeRecord x) (fun v =>
        rbind (get_all rest) (fun vs => Ok (v :: vs)))
  end.

(** [unwrapLazyValues]: the [for] loop from index [i], with [remaining]
    iterations to go. *)
Fixpoint unwrapLazyValues_loop (remaining : nat) (i : Z)
  (wrapped : list LazyRecord) : M World (list (list JsValue)) :=
  match remaining with
  | O =>
      n <- bg numTries ;;
      emit (WarnGaveUp
        "Failed to construct log records to flush. Dropping batch" n) ;;
      ret []
  | S remaining' =>
      match get_all wrapped with
      | Ok resolved => ret (mergeRowBatch resolved)
      | Throw e =>
          n <- bg numTries ;;
          sync <- bg syncFlush ;;
          let isRetrying := (i + 1 <? n)%Z in
          emit (Warn
            ("Encountered error when constructing records to flush"
               ++ (if isRetrying then ". Retrying" else ""))) ;;
          if negb isRetrying && sync then throw e
          else
            emit (WarnError e) ;;
            emit (Sleep 100) ;;
            unwrapLazyValues_loop remaining' (i + 1) wrapped
      end
  end.

Definition unwrapLazyValues (wrapped : list LazyRecord)
  : M World (list (list JsValue)) :=
  n <- bg numTries ;;
  unwrapLazyValues_loop (Z.to_nat n) 0 wrapped.

(** The legacy payload of the fallback:
    [constructJsonArray(items.map(... makeLegacyEvent ...))]. *)
Fixpoint legacyItems (items : list string) : Result (list string) :=
  match items with
  | [] => Ok []
  | r :: rest =>
      rbind (legacyEvent r) (fun s =>
        rbind (legacyItems rest) (fun ss => Ok (s :: ss)))
  end.

(** One attempt of [submitLogsRequest]: the post to [logs3] and, when
    it throws, the legacy post to [logs].  The value is the [error]
    variable of the loop body. *)
Definition submitAttempt (conn : HTTPConnection) (items : list string)
  (dataStr : string) (i : Z) : M World (option JsError) :=
  emit (Post "logs3" dataStr) ;;
  match post_json conn "logs3" dataStr i with
  | Ok _ => ret None
  | Throw _ =>
      match legacyItems items with
      | Throw e => ret (Some e)
      | Ok legacy =>
          let legacyDataS := constructJsonArray legacy in
          emit (Post "logs" legacyDataS) ;;
          match post_json conn "logs" legacyDataS i with
          | Ok _ => ret None
          | Throw e => ret (Some e)
          end
      end
  end.

(** [submitLogsRequest]: the [for] loop from index [i].  The message
    of the warning keeps the payload size, the retrying text and the
    error; the elapsed time is left out. *)
Fixpoint submitLogsRequest_loop (remaining : nat) (i : Z)
  (conn : HTTPConnection) (items : list string) (dataStr : string)
  : M World unit :=
  match remaining with
  | O =>
      n <- bg numTries ;;
      emit (WarnGaveUp "log request failed. Dropping batch" n)
  | S remaining' =>
      error <- submitAttempt conn items dataStr i ;;
      match error with
      | None => ret tt
      | Some e =>
          n <- bg numTries ;;
          sync <- bg syncFlush ;;
          failedDir <- bg failedPublishPayloadsDir ;;
          let isRetrying := (i + 1 <? n)%Z in
          let retryingText := if isRetrying then "" else " Retrying" in
          (if negb isRetrying && dir_set failedDir
           then writePayloadToDir (or_default failedDir "") dataStr ;;
                logFailedPayloadsDir
           else ret tt) ;;
          if negb isRetrying && sync
          then throw (Error ("log request failed." ++ retryingText))
          else
            emit (WarnLogRequestFailed (String.length dataStr)
                    retryingText e) ;;
            (if isRetrying then emit (Sleep 100) else ret tt) ;;
            submitLogsRequest_loop remaining' (i + 1) conn items dataStr
      end
  end.

Definition submitLogsRequest (items : list string) : M World unit :=
  c <- bg apiConn ;;
  conn <- lift (get c) ;;
  let dataStr := constructLogs3Data items in
  allDir <- bg allPublishPayloadsDir ;;
  (if dir_set allDir
   then writePayloadToDir (or_default allDir "") dataStr
   else ret tt) ;;
  n <- bg numTries ;;
  submitLogsRequest_loop (Z.to_nat n) 0 conn items dataStr.

(** [dumpDroppedEvents], the body of the task [log] starts for the
    items it drops. *)
Definition dumpDroppedEvents (wrapped : list LazyRecord)
  : M World unit :=
  allDir <- bg allPublishPayloadsDir ;;
  failedDir <- bg failedPublishPayloadsDir ;;
  let publishPayloadsDir :=
    ((if dir_set allDir then [or_default allDir ""] else []) ++
     (if dir_set failedDir then [or_default failedDir ""] else []))%list in
  match wrapped, publishPayloadsDir with
  | [], _ => ret tt
  | _, [] => ret tt
  | _, _ =>
      catch
        (allItems <- unwrapLazyValues wrapped ;;
         let dataStr :=
           constructLogs3Data (map (fun x => stringify (JArr x)) allItems) in
         fold_left (fun acc payloadDir =>
                      acc ;; writePayloadToDir payloadDir dataStr)
           publishPayloadsDir (ret tt))
        (fun e => emit (WarnError e))
  end.

(** The synchronous start of a flush pass: [flushOnce] up to its first
    [await].  The queue is drained into the local [wrappedItems] and a
    fresh empty queue is put in its place. *)
Definition drain : M World (list LazyRecord) :=
  wrappedItems <- bg items ;;
  update_bg (set_items []) ;;
  ret wrappedItems.

(** [triggerActiveFlush], up to the first [await] of the pass it
    starts. *)
Definition triggerActiveFlush : M World unit :=
  resolved <- bg activeFlushResolved ;;
  if resolved then
    update_bg (set_activeFlushError None) ;;
    wrappedItems <- drain ;;
    update_bg (set_activeFlush (Some wrappedItems))
  else ret tt.

(** [log] *)
Definition BackgroundLogger_log (newItems : list LazyRecord)
  : M World unit :=
  maxsize <- bg queueDropExceedingMaxsize ;;
  queued <- bg items ;;
  let '(addedItems, droppedItems) :=
    match maxsize with
    | None => (newItems, [])
    | Some m =>
        let numElementsToAdd :=
          Z.min (Z.max (m - Z.of_nat (List.length queued)) 0)
                (Z.of_nat (List.length newItems)) in
        (firstn (Z.to_nat numElementsToAdd) newItems,
         skipn (Z.to_nat numElementsToAdd) newItems)
    end in
  update_bg (fun b => set_items (items b ++ addedItems)%list b) ;;
  sync <- bg syncFlush ;;
  (if negb sync then triggerActiveFlush else ret tt) ;;
  match droppedItems with
  | [] => ret tt
  | _ :: _ =>
      registerDroppedItemCount (Z.of_nat (List.length droppedItems)) ;;
      allDir <- bg allPublishPayloadsDir ;;
      failedDir <- bg failedPublishPayloadsDir ;;
      if dir_set allDir || dir_set failedDir
      then spawn_dump droppedItems
      else ret tt
  end.

(** The [log] calls other tasks make while a pass is suspended. *)
Definition Arrivals : Type := list (list LazyRecord).

Fixpoint arrive (batches : Arrivals) : M World unit :=
  match batches with
  | [] => ret tt
  | b :: rest => BackgroundLogger_log b ;; arrive rest
  end.

(** The posts of one batch set: every batch is submitted, the errors
    are collected. *)
Fixpoint submitBatchSet (batchSet : list (list string))
  : M World (list JsError) :=
  match batchSet with
  | [] => ret []
  | batch :: rest =>
      r <- catch (submitLogsRequest batch ;; ret None)
                 (fun e => ret (Some e)) ;;
      errs <- submitBatchSet rest ;;
      ret (match r with Some e => e :: errs | None => errs end)
  end.

Fixpoint submitBatchSets (batchSets : list (list (list string)))
  : M World unit :=
  match batchSets with
  | [] => ret tt
  | batchSet :: rest =>
      failingResultErrors <- submitBatchSet batchSet ;;
      match failingResultErrors with
      | [] => submitBatchSets rest
      | _ :: _ =>
          throw (AggregateError failingResultErrors
                   "Encountered the following errors while logging:")
      end
  end.

(** [flushOnce] after the drain.  [sched] lists, pass by pass, the
    batches other tasks log while the pass is suspended; a pass past the
    end of the schedule sees no arrival.  Each pass uses one unit of
    [fuel]; the value is [None] when the fuel runs out. *)
Fixpoint flushOnce_resume (fuel : nat) (sched : list Arrivals)
  (wrappedItems : list LazyRecord) (w : World)
  : option (Result unit * World) :=
  match fuel with
  | O => None
  | S fuel' =>
      match (arrive (hd [] sched) ;; unwrapLazyValues wrappedItems) w with
      | (Throw e, w1) => Some (Throw e, w1)
      | (Ok [], w1) => Some (Ok tt, w1)
      | (Ok allItems, w1) =>
          let allItemsStr := map (map stringify) allItems in
          let b := bgLogger w1 in
          let batchSets :=
            batchItems allItemsStr (defaultBatchSize b)
              (maxRequestSize b / 2)%Z in
          match submitBatchSets batchSets w1 with
          | (Throw e, w2) => Some (Throw e, w2)
          | (Ok _, w2) =>
              match items (bgLogger w2) with
              | [] => Some (Ok tt, w2)
              | _ :: _ =>
                  match drain w2 with
                  | (Ok wrapped', w3) =>
                      flushOnce_resume fuel' (tl sched) wrapped'
                        (set_bgLogger
                           (set_activeFlush (Some wrapped') (bgLogger w3))
                           w3)
                  | (Throw e, w3) => Some (Throw e, w3)
                  end
              end
          end
      end
  end.

(** The promise [triggerActiveFlush] stores, run to completion: the
    pass, its [catch] and its [finally]. *)
Definition runActiveFlush (fuel : nat) (sched : list Arrivals)
  (w : World) : option World :=
  match activeFlush (bgLogger w) with
  | None => Some w
  | Some wrappedItems =>
      match flushOnce_resume fuel sched wrappedItems w with
      | None => None
      | Some (r, w1) =>
          let b1 :=
            match r with
            | Ok _ => bgLogger w1
            | Throw err => set_activeFlushError (Some err) (bgLogger w1)
            end in
          Some (set_bgLogger (set_activeFlush None b1) w1)
      end
  end.

(** [flush] *)
Definition BackgroundLogger_flush (fuel : nat) (sched : list Arrivals)
  (w : World) : option (Result unit * World) :=
  let w0 :=
    if syncFlush (bgLogger w) then snd (triggerActiveFlush w) else w in
  match runActiveFlush fuel sched w0 with
  | None => None
  | Some w1 =>
      match activeFlushError (bgLogger w1) with
      | Some err =>
          Some (Throw err,
                set_bgLogger (set_activeFlushError None (bgLogger w1)) w1)
      | None => Some (Ok tt, w1)
      end
  end.

(** ** Spans *)

Record ParentSpanIds : Type := {
  parent_spanId : string;
  parent_rootSpanId : string
}.

(** [StartSpanArgs] *)
Record StartSpanArgs : Type := {
  arg_name : option string;
  arg_type : option string;
  arg_spanAttributes : option JsObject;
  arg_startTime : option JsValue;
  arg_parent : option string;
  arg_event : option JsObject
}.

Definition no_args : StartSpanArgs :=
  {| arg_name := None; arg_type := None; arg_spanAttributes := None;
     arg_startTime := None; arg_parent := None; arg_event := None |}.

(** What [SpanComponentsV2.fromStr] returns, as far as logger.ts reads
    it. *)
Record SpanRowIdsV2 : Type := {
  rowId : string;
  row_spanId : string;
  row_rootSpanId : string
}.

Record SpanComponentsV2 : Type := {
  objectType : SpanObjectTypeV2;
  objectId : option string;
  computeObjectMetadataArgs : option JsObject;
  rowIds : option SpanRowIdsV2
}.

(** [iso.getCallerLocation()] *)
Record CallerLocation : Type := {
  caller_functionname : string;
  caller_filename : string;
  caller_lineno : nat
}.

(** The fields of [SpanImpl] ([state] is the world). *)
Record SpanImpl : Type := {
  isMerge : bool;
  loggedEndTime : option JsValue;
  parentObjectType : SpanObjectTypeV2;
  parentObjectId : LazyValue string;
  parentComputeObjectMetadataArgs : option JsObject;
  _id : JsValue;
  spanId : string;
  rootSpanId : string;
  spanParents : option (list string)
}.

Definition set_isMerge (v : bool) (sp : SpanImpl) : SpanImpl :=
  {| isMerge := v; loggedEndTime := loggedEndTime sp;
     parentObjectType := parentObjectType sp;
     parentObjectId := parentObjectId sp;
     parentComputeObjectMetadataArgs := parentComputeObjectMetadataArgs sp;
     _id := _id sp; spanId := spanId sp; rootSpanId := rootSpanId sp;
     spanParents := spanParents sp |}.

Definition set_loggedEndTime (v : option JsValue) (sp : SpanImpl)
  : SpanImpl :=
  {| isMerge := isMerge sp; loggedEndTime := v;
     parentObjectType := parentObjectType sp;
     parentObjectId := parentObjectId sp;
     parentComputeObjectMetadataArgs := parentComputeObjectMetadataArgs sp;
     _id := _id sp; spanId := spanId sp; rootSpanId := rootSpanId sp;
     spanParents := spanParents sp |}.

(** The value of the constant [IS_MERGE_FIELD] of @braintrust/core (the
    [is_merge] flag of the spec's LogRecord). *)
Definition IS_MERGE_FIELD : string := "_is_merge".

(** [SpanTypeAttribute.TASK] and [SpanTypeAttribute.EVAL] *)
Definition SpanTypeAttribute_TASK : string := "task".
Definition SpanTypeAttribute_EVAL : string := "eval".

(** [SpanComponentsV2.fromStr] *)
Variable SpanComponentsV2_fromStr : string -> Result SpanComponentsV2.
(** [(await computeLoggerMetadata(state, args)).project.id] *)
Variable computeLoggerMetadata_project_id : JsObject -> Result string.
(** [iso.getCallerLocation()] *)
Variable getCallerLocation : option CallerLocation.
(** [new Date(t).toISOString()] *)
Variable toISOString : float -> string.

Definition float_of_nat (n : nat) : float :=
  PrimFloat.of_uint63 (Uint63.of_Z (Z.of_nat n)).

Definition opt_str (o : option string) : JsValue :=
  match o with Some s => JStr s | None => JUndefined end.

Definition str_array (l : list string) : JsValue := JArr (map JStr l).

(** [o ?? d] on an optional argument *)
Definition nullish_or (o : option JsValue) : option JsValue :=
  match o with
  | Some v => if nullish v then None else Some v
  | None => None
  end.

(** The last component of [caller_filename.split("/")]. *)
Fixpoint last_component (s acc : string) : string :=
  match s with
  | EmptyString => acc
  | String c rest =>
      if (c =? "/")%char then last_component rest ""
      else last_component rest (acc ++ String c EmptyString)
  end.

(** [splitLoggingData]: the sanitized event merged over the internal
    data.  No value of the model is a stream, so everything is
    serializable and [lazyInternalData] is empty. *)
Definition splitLoggingData (event internalData : option JsObject)
  : Result JsObject :=
  rbind (validateAndSanitizeExperimentLogPartialArgs (or_default event []))
    (fun sanitized =>
       Ok (mergeDicts (mergeDicts [] (or_default internalData []))
             sanitized)).

(** [spanParents?.length] as a condition *)
Definition has_parents (p : option (list string)) : bool :=
  match p with Some (_ :: _) => true | _ => false end.

(** The [partialRecord] of [logInternal]: the identity of the span,
    the serializable data spread over it, and the merge flag, passed
    through JSON. *)
Definition buildPartialRecord (this : SpanImpl)
  (serializableInternalData : JsObject) : JsObject :=
  json_props
    (obj_set IS_MERGE_FIELD (JBool (isMerge this))
       (obj_spread
          [("id", _id this);
           ("span_id", JStr (spanId this));
           ("root_span_id", JStr (rootSpanId this));
           ("span_parents",
             match spanParents this with
             | Some l => str_array l
             | None => JUndefined
             end)]
          serializableInternalData)).

(** [logInternal] *)
Definition logInternal (event internalData : option JsObject)
  : M (SpanImpl * World) unit :=
  serializableInternalData <- lift (splitLoggingData event internalData) ;;
  this <- gets fst ;;
  let partialRecord := buildPartialRecord this serializableInternalData in
  (if truthy (member "end" (prop "metrics" partialRecord))
   then modify (fun ow : SpanImpl * World =>
          (set_loggedEndTime
             (Some (member "end" (prop "metrics" partialRecord))) (fst ow),
           snd ow))
   else ret tt) ;;
  if nonempty_length (prop "tags" partialRecord) &&
     has_parents (spanParents this)
  then throw (Error "Tags can only be logged to the root span")
  else
    world (BackgroundLogger_log
             [{| partialRecord := partialRecord;
                 recordObjectType := parentObjectType this;
                 recordObjectId := parentObjectId this |}]).

(** The arguments of the [SpanImpl] constructor. *)
Record SpanImplArgs : Type := {
  new_parentObjectType : SpanObjectTypeV2;
  new_parentObjectId : LazyValue string;
  new_parentComputeObjectMetadataArgs : option JsObject;
  new_parentSpanIds : option ParentSpanIds;
  new_defaultRootType : option string;
  new_args : StartSpanArgs
}.

(** The span name the constructor derives. *)
Definition span_name (args : SpanImplArgs) : string :=
  match arg_name (new_args args) with
  | Some (String c rest) => String c rest
  | _ =>
      match new_parentSpanIds args with
      | None => "root"
      | Some _ =>
          match getCallerLocation with
          | Some loc =>
              let filename := last_component (caller_filename loc) "" in
              if filename =? "" then caller_functionname loc
              else caller_functionname loc ++ ":" ++ filename ++ ":"
                     ++ index_key (caller_lineno loc)
          | None => "subspan"
          end
      end
  end.

Definition callerLocation_object : JsObject :=
  match getCallerLocation with
  | Some loc =>
      [("caller_functionname", JStr (caller_functionname loc));
       ("caller_filename", JStr (caller_filename loc));
       ("caller_lineno", JNum (float_of_nat (caller_lineno loc)))]
  | None => []
  end.

(** [new SpanImpl(args)] *)
Definition SpanImpl_new (args : SpanImplArgs) : M World SpanImpl :=
  let a := new_args args in
  let spanAttributes := or_default (arg_spanAttributes a) [] in
  let event := or_default (arg_event a) [] in
  let type :=
    match arg_type a with
    | Some t => Some t
    | None =>
        match new_parentSpanIds args with
        | Some _ => None
        | None => new_defaultRootType args
        end
    end in
  let name := span_name args in
  start <- match nullish_or (arg_startTime a) with
           | Some t => ret t
           | None => t <- getCurrentUnixTimestamp ;; ret (JNum t)
           end ;;
  exec_counter <- next_exec_counter ;;
  created <- getCurrentUnixTimestamp ;;
  let internalData :=
    [("metrics", JObj [("start", start)]);
     ("context", JObj callerLocation_object);
     ("span_attributes",
       JObj (obj_set "exec_counter" (JNum (float_of_nat exec_counter))
               (obj_spread [("name", JStr name); ("type", opt_str type)]
                  spanAttributes)));
     ("created", JStr (toISOString created))] in
  id <- (if nullish (prop "id" event)
         then u <- uuidv4 ;; ret (JStr u)
         else ret (prop "id" event)) ;;
  span_id <- uuidv4 ;;
  let this :=
    {| isMerge := false;
       loggedEndTime := None;
       parentObjectType := new_parentObjectType args;
       parentObjectId := new_parentObjectId args;
       parentComputeObjectMetadataArgs :=
         new_parentComputeObjectMetadataArgs args;
       _id := id;
       spanId := span_id;
       rootSpanId :=
         match new_parentSpanIds args with
         | Some p => parent_rootSpanId p
         | None => span_id
         end;
       spanParents :=
         match new_parentSpanIds args with
         | Some p => Some [parent_spanId p]
         | None => None
         end |} in
  r <- call this (logInternal (Some (obj_omit "id" event))
                    (Some internalData)) ;;
  ret (set_isMerge true (snd r)).

(** [spanComponentsToObjectIdLambda]: the function may throw when it is
    built; the value is the outcome of the lambda it returns. *)
Definition spanComponentsToObjectIdLambda (components : SpanComponentsV2)
  : Result (Result string) :=
  match objectId components with
  | Some (String c rest) => Ok (Ok (String c rest))
  | _ =>
      match computeObjectMetadataArgs components with
      | None => Throw (Error
          "Impossible: must provide either objectId or computeObjectMetadataArgs")
      | Some cargs =>
          match objectType components with
          | EXPERIMENT => Throw (Error
              "Impossible: computeObjectMetadataArgs not supported for experiments")
          | PROJECT_LOGS => Ok (computeLoggerMetadata_project_id cargs)
          end
      end
  end.

Definition SpanObjectTypeV2_eqb (a b : SpanObjectTypeV2) : bool :=
  match a, b with
  | EXPERIMENT, EXPERIMENT => true
  | PROJECT_LOGS, PROJECT_LOGS => true
  | _, _ => false
  end.

(** [startSpanParentArgs]; the value is the object type, the object
    id, the metadata arguments and the parent span ids it returns. *)
Definition startSpanParentArgs (parent : option string)
  (ty : SpanObjectTypeV2) (oid : LazyValue string)
  (cargs : option JsObject) (parentSpanIds : option ParentSpanIds)
  : Result (SpanObjectTypeV2 * LazyValue string * option JsObject *
            option ParentSpanIds) :=
  match parent with
  | Some (String c rest) =>
      match parentSpanIds with
      | Some _ =>
          Throw (Error "Cannot specify both parent and parentSpanIds")
      | None =>
          rbind (SpanComponentsV2_fromStr (String c rest))
            (fun parentComponents =>
          if negb (SpanObjectTypeV2_eqb ty (objectType parentComponents))
          then Throw (Error
            "Mismatch between expected span parent object type and provided type")
          else
          rbind (spanComponentsToObjectIdLambda parentComponents)
            (fun parentComponentsObjectIdLambda =>
          let computeParentObjectId :=
            rbind parentComponentsObjectIdLambda
              (fun parentComponentsObjectId =>
            rbind (get oid) (fun expected =>
            if negb (expected =? parentComponentsObjectId)
            then Throw (Error
              "Mismatch between expected span parent object id and provided id")
            else Ok expected)) in
          Ok (ty, {| get := computeParentObjectId |}, cargs,
              match rowIds parentComponents with
              | Some r =>
                  Some {| parent_spanId := row_spanId r;
                          parent_rootSpanId := row_rootSpanId r |}
              | None => None
              end)))
      end
  | _ => Ok (ty, oid, cargs, parentSpanIds)
  end.

Definition has_parent (args : StartSpanArgs) : bool :=
  match arg_parent args with Some (String _ _) => true | _ => false end.

(** [SpanImpl.startSpan] *)
Definition SpanImpl_startSpan (args : StartSpanArgs)
  : M (SpanImpl * World) SpanImpl :=
  this <- gets fst ;;
  let parentSpanIds :=
    if has_parent args then None
    else Some {| parent_spanId := spanId this;
                 parent_rootSpanId := rootSpanId this |} in
  p <- lift (startSpanParentArgs (arg_parent args)
               (parentObjectType this) (parentObjectId this)
               (parentComputeObjectMetadataArgs this) parentSpanIds) ;;
  let '(ty, oid, cargs, ids) := p in
  world (SpanImpl_new
           {| new_parentObjectType := ty;
              new_parentObjectId := oid;
              new_parentComputeObjectMetadataArgs := cargs;
              new_parentSpanIds := ids;
              new_defaultRootType := None;
              new_args := args |}).

(** [!this.loggedEndTime] *)
Definition end_not_logged (this : SpanImpl) : bool :=
  match loggedEndTime this with
  | Some t => negb (truthy t)
  | None => true
  end.

(** [SpanImpl.end]; [endTime] is [args?.endTime]. *)
Definition SpanImpl_end (endTime : option JsValue)
  : M (SpanImpl * World) JsValue :=
  this <- gets fst ;;
  r <- (if end_not_logged this then
          t <- match nullish_or endTime with
               | Some v => ret v
               | None =>
                   now <- world getCurrentUnixTimestamp ;; ret (JNum now)
               end ;;
          ret (t, [("metrics", JObj [("end", t)])])
        else
          ret (or_default (loggedEndTime this) JUndefined, [])) ;;
  logInternal None (Some (snd r)) ;;
  ret (fst r).

(** [SpanImpl.log] *)
Definition SpanImpl_log (event : JsObject) : M (SpanImpl * World) unit :=
  logInternal (Some event) None.

(** ** Toplevel loggers *)

(** The fields of [Logger] that [log] and [startSpan] use. *)
Record Logger : Type := {
  logger_lazyId : LazyValue string;
  logger_asyncFlush : option bool;
  logger_computeMetadataArgs : option JsObject;
  logger_lastStartTime : JsValue;
  logger_calledStartSpan : bool
}.

Definition Logger_new (lazyId : LazyValue string)
  (asyncFlush : option bool) (computeMetadataArgs : option JsObject)
  : M World Logger :=
  t <- getCurrentUnixTimestamp ;;
  ret {| logger_lazyId := lazyId;
         logger_asyncFlush := asyncFlush;
         logger_computeMetadataArgs := computeMetadataArgs;
         logger_lastStartTime := JNum t;
         logger_calledStartSpan := false |}.

Definition with_event_and_startTime (args : StartSpanArgs)
  (startTime : JsValue) (event : JsObject) : StartSpanArgs :=
  {| arg_name := arg_name args; arg_type := arg_type args;
     arg_spanAttributes := arg_spanAttributes args;
     arg_startTime := Some startTime;
     arg_parent := arg_parent args;
     arg_event := Some event |}.

(** [Logger.startSpanImpl] *)
Definition Logger_startSpanImpl (args : StartSpanArgs)
  : M (Logger * World) SpanImpl :=
  this <- gets fst ;;
  p <- lift (startSpanParentArgs (arg_parent args) PROJECT_LOGS
               (logger_lazyId this) (logger_computeMetadataArgs this)
               None) ;;
  let '(ty, oid, cargs, ids) := p in
  world (SpanImpl_new
           {| new_parentObjectType := ty;
              new_parentObjectId := oid;
              new_parentComputeObjectMetadataArgs := cargs;
              new_parentSpanIds := ids;
              new_defaultRootType := Some SpanTypeAttribute_TASK;
              new_args := args |}).

(** [Logger.startSpan] *)
Definition Logger_startSpan (args : StartSpanArgs)
  : M (Logger * World) SpanImpl :=
  modify (fun lw : Logger * World =>
    ({| logger_lazyId := logger_lazyId (fst lw);
        logger_asyncFlush := logger_asyncFlush (fst lw);
        logger_computeMetadataArgs := logger_computeMetadataArgs (fst lw);
        logger_lastStartTime := logger_lastStartTime (fst lw);
        logger_calledStartSpan := true |}, snd lw)) ;;
  Logger_startSpanImpl args.

(** [Logger.log], up to the first [await] of the promise it returns
    when [asyncFlush] is not [true]; the value is the row id. *)
Definition Logger_log (event : JsObject) (allowConcurrentWithSpans : bool)
  : M (Logger * World) JsValue :=
  this <- gets fst ;;
  if logger_calledStartSpan this && negb allowConcurrentWithSpans
  then throw (Error
    "Cannot run toplevel `log` method while using spans. To log to the span, call `logger.traced` and then log with `span.log`")
  else
    span <- Logger_startSpanImpl
              (with_event_and_startTime no_args
                 (logger_lastStartTime this) event) ;;
    r <- world (call span (SpanImpl_end None)) ;;
    modify (fun lw : Logger * World =>
      ({| logger_lazyId := logger_lazyId (fst lw);
          logger_asyncFlush := logger_asyncFlush (fst lw);
          logger_computeMetadataArgs :=
            logger_computeMetadataArgs (fst lw);
          logger_lastStartTime := fst r;
          logger_calledStartSpan := logger_calledStartSpan (fst lw) |},
       snd lw)) ;;
    let ret_id := _id (snd r) in
    match logger_asyncFlush this with
    | Some true => ret ret_id
    | _ =>
        sync <- world (bg syncFlush) ;;
        (if sync then world triggerActiveFlush else ret tt) ;;
        ret ret_id
    end.

(** [validateAndSanitizeExperimentLogFullArgs] *)
Definition validateAndSanitizeExperimentLogFullArgs (event : JsObject)
  (hasDataset : bool) : Result JsObject :=
  if (obj_has "input" event && negb (isEmpty (prop "input" event)) &&
      obj_has "inputs" event && negb (isEmpty (prop "inputs" event)))
     || (negb (obj_has "input" event) && negb (obj_has "inputs" event))
  then Throw (Error
    "Exactly one of input or inputs (deprecated) must be specified. Prefer input.")
  else if isEmpty (prop "output" event)
  then Throw (Error "output must be specified")
  else if isEmpty (prop "scores" event)
  then Throw (Error "scores must be specified")
  else
    match hasDataset, prop "datasetRecordId" event with
    | true, JUndefined => Throw (Error
        "datasetRecordId must be specified when using a dataset")
    | true, _ => Ok event
    | false, JUndefined => Ok event
    | false, _ => Throw (Error
        "datasetRecordId cannot be specified when not using a dataset")
    end.

(** The fields of [Experiment] that [log] and [startSpan] use;
    [experiment_hasDataset] is [!!this.dataset]. *)
Record Experiment : Type := {
  experiment_lazyId : LazyValue string;
  experiment_hasDataset : bool;
  experiment_lastStartTime : JsValue;
  experiment_calledStartSpan : bool
}.

Definition Experiment_new (lazyId : LazyValue string) (hasDataset : bool)
  : M World Experiment :=
  t <- getCurrentUnixTimestamp ;;
  ret {| experiment_lazyId := lazyId;
         experiment_hasDataset := hasDataset;
         experiment_lastStartTime := JNum t;
         experiment_calledStartSpan := false |}.

(** [Experiment.startSpanImpl] *)
Definition Experiment_startSpanImpl (args : StartSpanArgs)
  : M (Experiment * World) SpanImpl :=
  this <- gets fst ;;
  p <- lift (startSpanParentArgs (arg_parent args) EXPERIMENT
               (experiment_lazyId this) None None) ;;
  let '(ty, oid, cargs, ids) := p in
  world (SpanImpl_new
           {| new_parentObjectType := ty;
              new_parentObjectId := oid;
              new_parentComputeObjectMetadataArgs := cargs;
              new_parentSpanIds := ids;
              new_defaultRootType := Some SpanTypeAttribute_EVAL;
              new_args := args |}).

(** [Experiment.startSpan] *)
Definition Experiment_startSpan (args : StartSpanArgs)
  : M (Experiment * World) SpanImpl :=
  modify (fun ew : Experiment * World =>
    ({| experiment_lazyId := experiment_lazyId (fst ew);
        experiment_hasDataset := experiment_hasDataset (fst ew);
        experiment_lastStartTime := experiment_lastStartTime (fst ew);
        experiment_calledStartSpan := true |}, snd ew)) ;;
  Experiment_startSpanImpl args.

(** [Experiment.log]; the value is the row id. *)
Definition Experiment_log (event : JsObject)
  (allowConcurrentWithSpans : bool) : M (Experiment * World) JsValue :=
  this <- gets fst ;;
  if experiment_calledStartSpan this && negb allowConcurrentWithSpans
  then throw (Error
    "Cannot run toplevel `log` method while using spans. To log to the span, call `experiment.traced` and then log with `span.log`")
  else
    event' <- lift (validateAndSanitizeExperimentLogFullArgs event
                      (experiment_hasDataset this)) ;;
    span <- Experiment_startSpanImpl
              (with_event_and_startTime no_args
                 (experiment_lastStartTime this) event') ;;
    r <- world (call span (SpanImpl_end None)) ;;
    modify (fun ew : Experiment * World =>
      ({| experiment_lazyId := experiment_lazyId (fst ew);
          experiment_hasDataset := experiment_hasDataset (fst ew);
          experiment_lastStartTime := fst r;
          experiment_calledStartSpan :=
            experiment_calledStartSpan (fst ew) |},
       snd ew)) ;;
    ret (_id (snd r)).

(** * Verified properties *)

Unset Implicit Arguments.

(** ** Objects *)

Lemma obj_has_get k o : obj_has k o = true <-> exists v, obj_get k o = Some v.
Proof.
  unfold obj_has. destruct (obj_get k o) as [v|].
  - split; [eauto | reflexivity].
  - split; [discriminate | intros [v H]; discriminate].
Qed.

Lemma obj_get_In k o v : obj_get k o = Some v -> In (k, v) o.
Proof.
  induction o as [|[k' v'] o IH]; simpl; [discriminate|].
  destruct (String.eqb_spec k k') as [->|Hne].
  - intros [= ->]. now left.
  - intros H. right. auto.
Qed.

Lemma obj_get_None_notin k o : obj_get k o = None -> ~ In k (map fst o).
Proof using.
  induction o as [|[k' v'] o IH]; simpl; [intros _ []|].
  destruct (String.eqb_spec k k') as [->|Hne]; [discriminate|].
  intros H [Heq|Hin]; [congruence | now apply IH].
Qed.

Lemma In_obj_get k v o : NoDup (map fst o) -> In (k, v) o -> obj_get k o = Some v.
Proof using.
  induction o as [|[k' v'] o IH]; simpl; [intros _ []|].
  intros Hnd [Heq|Hin].
  - injection Heq as -> ->. now rewrite String.eqb_refl.
  - inversion Hnd as [|? ? Hnotin Hnd']; subst.
    destruct (String.eqb_spec k k') as [->|Hne].
    + exfalso. apply Hnotin. change k' with (fst (k', v)). now apply in_map.
    + auto.
Qed.

Lemma obj_set_same k v o : obj_get k o = Some v -> obj_set k v o = o.
Proof.
  induction o as [|[k' v'] o IH]; simpl; [discriminate|].
  destruct (String.eqb_spec k k') as [->|Hne].
  - now intros [= ->].
  - intros H. now rewrite IH.
Qed.

Lemma obj_get_set_eq k v o : obj_get k (obj_set k v o) = Some v.
Proof.
  induction o as [|[k' v'] o IH]; simpl.
  - now rewrite String.eqb_refl.
  - destruct (String.eqb_spec k k') as [->|Hne]; simpl.
    + now rewrite String.eqb_refl.
    + destruct (String.eqb_spec k k'); [contradiction | exact IH].
Qed.

Lemma obj_get_set_neq k k' v o :
  k <> k' -> obj_get k (obj_set k' v o) = obj_get k o.
Proof.
  intros Hne. induction o as [|[k2 v2] o IH]; simpl.
  - destruct (String.eqb_spec k k'); [contradiction | reflexivity].
  - destruct (String.eqb_spec k' k2) as [->|Hne2]; simpl.
    + destruct (String.eqb_spec k k2); [contradiction | reflexivity].
    + destruct (String.eqb_spec k k2); [reflexivity | exact IH].
Qed.

Lemma obj_set_keys k v o :
  obj_has k o = true -> map fst (obj_set k v o) = map fst o.
Proof.
  unfold obj_has. induction o as [|[k' v'] o IH]; simpl; [discriminate|].
  destruct (String.eqb_spec k k') as [->|Hne]; simpl; [reflexivity|].
  intros H. now rewrite IH.
Qed.

Lemma obj_set_middle k v v0 pre post :
  ~ In k (map fst pre) ->
  obj_set k v (pre ++ (k, v0) :: post)%list = (pre ++ (k, v) :: post)%list.
Proof using.
  induction pre as [|[k' v'] pre IH]; simpl; intros Hnotin.
  - now rewrite String.eqb_refl.
  - destruct (String.eqb_spec k k') as [->|Hne]; [now elim Hnotin; left|].
    rewrite IH; [reflexivity | intros Hin; apply Hnotin; now right].
Qed.

(** A spread leaves alone the keys the spread object does not have. *)
Lemma obj_get_spread_absent k into from :
  obj_get k from = None -> obj_get k (obj_spread into from) = obj_get k into.
Proof.
  unfold obj_spread. revert into.
  induction from as [|[k' v'] from IH]; simpl; intros into H; [reflexivity|].
  destruct (String.eqb_spec k k') as [->|Hne]; [discriminate|].
  rewrite IH by exact H. now apply obj_get_set_neq.
Qed.

Lemma obj_get_omit_eq k o : obj_get k (obj_omit k o) = None.
Proof.
  unfold obj_omit. induction o as [|[k' v'] o IH]; simpl; [reflexivity|].
  destruct (String.eqb_spec k' k) as [->|Hne]; simpl; [exact IH|].
  destruct (String.eqb_spec k k'); [congruence | exact IH].
Qed.

Lemma obj_get_omit_neq k k' o :
  k <> k' -> obj_get k (obj_omit k' o) = obj_get k o.
Proof.
  intros Hne. unfold obj_omit.
  induction o as [|[k2 v2] o IH]; simpl; [reflexivity|].
  destruct (String.eqb_spec k2 k') as [->|Hne2]; simpl.
  - destruct (String.eqb_spec k k'); [contradiction | exact IH].
  - destruct (String.eqb_spec k k2); [reflexivity | exact IH].
Qed.

(** For an object with distinct keys the spread object wins. *)
Lemma obj_get_spread k into from :
  NoDup (map fst from) ->
  obj_get k (obj_spread into from)
  = match obj_get k from with Some v => Some v | None => obj_get k into end.
Proof.
  unfold obj_spread. revert into.
  induction from as [|[k' v'] from IH]; simpl; intros into Hnd; [reflexivity|].
  inversion Hnd as [|? ? Hnotin Hnd']; subst.
  rewrite IH by exact Hnd'.
  destruct (String.eqb_spec k k') as [->|Hne].
  - destruct (obj_get k' from) as [v|] eqn:Hg.
    + exfalso. apply Hnotin. apply obj_get_In in Hg.
      change k' with (fst (k', v)). now apply in_map.
    + apply obj_get_set_eq.
  - destruct (obj_get k from); [reflexivity | now apply obj_get_set_neq].
Qed.

Lemma obj_omit_NoDup k o : NoDup (map fst o) -> NoDup (map fst (obj_omit k o)).
Proof.
  unfold obj_omit. induction o as [|[k' v'] o IH]; simpl; intros Hnd; [constructor|].
  inversion Hnd as [|? ? Hnotin Hnd']; subst.
  destruct (negb (k' =? k)); simpl; [|auto].
  constructor; [|auto].
  intros Hin. apply Hnotin. rewrite in_map_iff in *.
  destruct Hin as [x [Hx Hin]]. exists x. split; [exact Hx|].
  now apply filter_In in Hin.
Qed.

Lemma prop_truthy_get k o :
  truthy (prop k o) = true -> obj_get k o = Some (prop k o).
Proof.
  unfold prop. destruct (obj_get k o); [reflexivity | discriminate].
Qed.

Lemma wf_object_keys o : wf_object o -> NoDup (map fst o).
Proof. intros [H _]. exact H. Qed.

Lemma wf_object_In o k v : wf_object o -> In (k, v) o -> wf_value v.
Proof using.
  intros [_ H]. induction o as [|[k' v'] o IH]; simpl; [intros []|].
  destruct H as [Hv Hrest].
  intros [Heq|Hin]; [now injection Heq as _ <- | auto].
Qed.

(** ** Validation *)

(** What the score loop turns a value into, and the values it lets
    through. *)
Definition coerce_score (v : JsValue) : JsValue :=
  match v with JBool b => JNum (if b then one else zero) | _ => v end.

Definition score_ok (v : JsValue) : bool :=
  match v with
  | JUndefined | JNull | JBool _ => true
  | JNum x => negb ((x <? zero)%float || (one <? x)%float)
  | _ => false
  end.

Definition coerce_entry (kv : string * JsValue) : string * JsValue :=
  (fst kv, coerce_score (snd kv)).

Lemma coerce_score_idem v : coerce_score (coerce_score v) = coerce_score v.
Proof. now destruct v. Qed.

Lemma score_ok_coerce v : score_ok v = true -> score_ok (coerce_score v) = true.
Proof. destruct v as [| |[|]| | | |]; simpl; auto. Qed.

Lemma scores_loop_ok ents : forall pre,
  NoDup (map fst (pre ++ ents)) ->
  forallb (fun kv => score_ok (snd kv)) ents = true ->
  scores_loop ents (JObj (pre ++ ents))
  = Ok (JObj (pre ++ map coerce_entry ents)).
Proof using.
  induction ents as [|[name score] rest IH]; intros pre Hnd Hok; [reflexivity|].
  simpl in Hok. apply andb_true_iff in Hok as [Hs Hrest].
  assert (Hnotin : ~ In name (map fst pre)).
  { rewrite map_app in Hnd. simpl in Hnd.
    apply NoDup_remove_2 in Hnd. intros Hin. apply Hnd.
    apply in_or_app. now left. }
  assert (Hstep : forall v,
    scores_loop rest (JObj (pre ++ (name, v) :: rest))
    = Ok (JObj (pre ++ (name, v) :: map coerce_entry rest))).
  { intros v.
    replace (pre ++ (name, v) :: rest)%list
      with ((pre ++ [(name, v)]) ++ rest)%list by now rewrite <- app_assoc.
    rewrite IH; [now rewrite <- app_assoc | | exact Hrest].
    rewrite <- app_assoc. simpl.
    rewrite map_app in *. simpl in *. exact Hnd. }
  destruct score as [| |b|x|s|l|o]; simpl in *; try discriminate.
  - apply Hstep.
  - apply Hstep.
  - rewrite obj_set_middle by exact Hnotin.
    destruct b; simpl; apply Hstep.
  - apply negb_true_iff in Hs. rewrite Hs. apply Hstep.
Qed.

Lemma scores_loop_bad ents : forall s,
  existsb (fun kv => negb (score_ok (snd kv))) ents = true ->
  exists e, scores_loop ents s = Throw e.
Proof.
  induction ents as [|[name score] rest IH]; intros s Hbad; [discriminate|].
  simpl in Hbad. apply orb_true_iff in Hbad.
  destruct score as [| |b|x|str|l|o]; simpl in *;
    try (destruct Hbad as [Hbad|Hbad]; [discriminate | now apply IH]);
    try (eexists; reflexivity).
  - destruct Hbad as [Hbad|Hbad]; [discriminate|].
    destruct b; simpl; now apply IH.
  - destruct ((x <? zero)%float || (one <? x)%float) eqn:Hx; simpl in *.
    + eexists; reflexivity.
    + destruct Hbad as [Hbad|Hbad]; [discriminate | now apply IH].
Qed.

Lemma scores_loop_Ok_inv ents s s' :
  scores_loop ents s = Ok s' ->
  forallb (fun kv => score_ok (snd kv)) ents = true.
Proof.
  intros H.
  destruct (forallb (fun kv => score_ok (snd kv)) ents) eqn:Hall; [reflexivity|].
  exfalso.
  assert (Hex : existsb (fun kv => negb (score_ok (snd kv))) ents = true).
  { clear H. induction ents as [|kv rest IH]; simpl in *; [discriminate|].
    apply andb_false_iff in Hall. apply orb_true_iff.
    destruct Hall as [Hh|Ht]; [left; now rewrite Hh | right; auto]. }
  destruct (scores_loop_bad ents s Hex) as [e He]. congruence.
Qed.

(** A scores value the first block leaves as it is. *)
Definition scores_stable (p : JsValue) : Prop :=
  truthy p = true ->
  isArray p = false /\ scores_loop (entries p) p = Ok p.

Lemma coerce_entries_keys (o : JsObject) :
  map fst (map coerce_entry o) = map fst o.
Proof. rewrite map_map. reflexivity. Qed.

Lemma coerce_entries_ok (o : JsObject) :
  forallb (fun kv => score_ok (snd kv)) o = true ->
  forallb (fun kv => score_ok (snd kv)) (map coerce_entry o) = true.
Proof.
  induction o as [|[k v] o IH]; simpl; [reflexivity|].
  intros H. apply andb_true_iff in H as [Hv Ho].
  now rewrite score_ok_coerce, IH.
Qed.

Lemma coerce_entries_idem (o : JsObject) :
  map coerce_entry (map coerce_entry o) = map coerce_entry o.
Proof.
  induction o as [|[k v] o IH]; simpl; [reflexivity|].
  unfold coerce_entry at 1 2. simpl. now rewrite coerce_score_idem, IH.
Qed.

Lemma chars_scores_rejected c rest s :
  exists e, scores_loop (entries (JStr (String c rest))) s = Throw e.
Proof. simpl. eexists. reflexivity. Qed.

(** What the first block does to an event that passes it. *)
Lemma check_scores_Ok event event1 :
  wf_object event ->
  check_scores event = Ok event1 ->
  scores_stable (prop "scores" event1) /\
  (forall k, k <> "scores" -> obj_get k event1 = obj_get k event) /\
  map fst event1 = map fst event.
Proof using.
  intros Hwf. unfold check_scores.
  destruct (truthy (prop "scores" event)) eqn:Htruthy.
  2:{ intros [= <-]. split; [|split; auto].
      intros Habs. congruence. }
  pose proof (prop_truthy_get _ _ Htruthy) as Hget.
  destruct (isArray (prop "scores" event)) eqn:Harr; [discriminate|].
  destruct (scores_loop _ _) as [scores'|e] eqn:Hloop; simpl; [|discriminate].
  intros [= <-].
  assert (Hhas : obj_has "scores" event = true)
    by (unfold obj_has; now rewrite Hget).
  split; [|split].
  - unfold prop at 1. rewrite obj_get_set_eq.
    destruct (prop "scores" event) as [| |b|x|s|l|o] eqn:Hp;
      try discriminate.
    + (* a boolean: no entry *)
      simpl in Hloop. injection Hloop as <-. intros _. now split.
    + simpl in Hloop. injection Hloop as <-. intros _. now split.
    + (* a string: its first character is not a number *)
      destruct s as [|c rest]; [discriminate|].
      destruct (chars_scores_rejected c rest (JStr (String c rest))) as [e He].
      congruence.
    + (* an object *)
      assert (Hnd : NoDup (map fst o)).
      { apply obj_get_In in Hget.
        apply (wf_object_In _ _ _ Hwf) in Hget. now destruct Hget. }
      simpl in Hloop.
      pose proof (scores_loop_Ok_inv _ _ _ Hloop) as Hall.
      pose proof (scores_loop_ok o [] Hnd Hall) as Hspec. simpl in Hspec.
      rewrite Hspec in Hloop. injection Hloop as <-.
      intros _. split; [reflexivity|]. simpl.
      pose proof (scores_loop_ok (map coerce_entry o) []) as H2. simpl in H2.
      rewrite H2.
      * now rewrite coerce_entries_idem.
      * now rewrite coerce_entries_keys.
      * now apply coerce_entries_ok.
  - intros k Hk. now apply obj_get_set_neq.
  - now apply obj_set_keys.
Qed.

(** The first block changes nothing in an event whose scores are
    stable. *)
Lemma check_scores_fixed event :
  scores_stable (prop "scores" event) -> check_scores event = Ok event.
Proof.
  intros Hst. unfold check_scores.
  destruct (truthy (prop "scores" event)) eqn:Htruthy; [|reflexivity].
  destruct (Hst Htruthy) as [Harr Hloop].
  rewrite Harr, Hloop. simpl.
  now rewrite obj_set_same by now apply prop_truthy_get.
Qed.

Lemma prop_eq_of_get k o o' :
  obj_get k o = obj_get k o' -> prop k o = prop k o'.
Proof. unfold prop. now intros ->. Qed.

Lemma obj_has_eq_of_get k o o' :
  obj_get k o = obj_get k o' -> obj_has k o = obj_has k o'.
Proof. unfold obj_has. now intros ->. Qed.

(** The keys the sanitizer reads, in the renamed event. *)
Lemma rename_inputs_get event k :
  NoDup (map fst event) ->
  k <> "input" -> k <> "inputs" ->
  obj_get k (rename_inputs event) = obj_get k event.
Proof.
  intros Hnd Hk1 Hk2. unfold rename_inputs.
  destruct (obj_has "inputs" event); [|reflexivity].
  rewrite obj_get_spread by now apply obj_omit_NoDup.
  rewrite obj_get_omit_neq by exact Hk2.
  destruct (obj_get k event); [reflexivity|].
  simpl. destruct (String.eqb_spec k "input"); [contradiction | reflexivity].
Qed.

Lemma rename_inputs_no_inputs event :
  NoDup (map fst event) ->
  obj_has "inputs" (rename_inputs event) = false.
Proof.
  intros Hnd. unfold rename_inputs.
  destruct (obj_has "inputs" event) eqn:Hhas; [|exact Hhas].
  unfold obj_has.
  rewrite obj_get_spread by now apply obj_omit_NoDup.
  now rewrite obj_get_omit_eq.
Qed.

(** C9.  Sanitization of partial log events is idempotent: an event
    that [validateAndSanitizeExperimentLogPartialArgs] accepts is turned
    into an event that the function accepts again and returns
    unchanged.  The event is a JavaScript object, so its keys, and the
    keys of the objects in it, are pairwise distinct. *)
Theorem sanitize_idempotent (event out : JsObject) :
  wf_object event ->
  validateAndSanitizeExperimentLogPartialArgs event = Ok out ->
  validateAndSanitizeExperimentLogPartialArgs out = Ok out.
Proof using.
  intros Hwf. unfold validateAndSanitizeExperimentLogPartialArgs.
  destruct (check_scores event) as [event1|e] eqn:Hscores; simpl; [|discriminate].
  destruct (check_scores_Ok _ _ Hwf Hscores) as [Hstable [Hget Hkeys]].
  assert (Hnd : NoDup (map fst event1))
    by (rewrite Hkeys; now apply wf_object_keys).
  destruct (check_metrics event1) as [[]|e] eqn:Hmetrics; simpl; [|discriminate].
  destruct (input_and_inputs event1) eqn:Hboth; [discriminate|].
  destruct (check_tags event1) as [[]|e] eqn:Htags; simpl; [|discriminate].
  intros [= <-].
  assert (Hsame : forall k, k <> "input" -> k <> "inputs" ->
            obj_get k (rename_inputs event1) = obj_get k event1)
    by (intros; now apply rename_inputs_get).
  assert (Hno : obj_has "inputs" (rename_inputs event1) = false)
    by now apply rename_inputs_no_inputs.
  rewrite check_scores_fixed.
  2:{ rewrite (prop_eq_of_get "scores" (rename_inputs event1) event1)
        by (apply Hsame; discriminate).
      exact Hstable. }
  simpl.
  assert (Hm : check_metrics (rename_inputs event1) = Ok tt).
  { unfold check_metrics in *.
    rewrite (prop_eq_of_get "metrics" (rename_inputs event1) event1)
      by (apply Hsame; discriminate).
    exact Hmetrics. }
  rewrite Hm. simpl.
  assert (Hi : input_and_inputs (rename_inputs event1) = false).
  { unfold input_and_inputs. rewrite Hno.
    now rewrite andb_false_r. }
  rewrite Hi.
  assert (Ht : check_tags (rename_inputs event1) = Ok tt).
  { unfold check_tags in *.
    rewrite (prop_eq_of_get "tags" (rename_inputs event1) event1)
      by (apply Hsame; discriminate).
    rewrite (obj_has_eq_of_get "tags" (rename_inputs event1) event1)
      by (apply Hsame; discriminate).
    exact Htags. }
  rewrite Ht. simpl.
  f_equal. unfold rename_inputs at 1. now rewrite Hno.
Qed.

Ltac no_key :=
  let H := fresh in
  simpl; intros H; repeat (destruct H as [H|H]; [discriminate H|]); destruct H.

Ltac solve_keys := repeat (constructor; [no_key|]); try constructor.

Ltac solve_wf :=
  unfold wf_object; simpl; repeat split; solve_keys.

(** Witness of C9: an event with a boolean score and the deprecated
    [inputs] key; its sanitized form is a fixed point. *)
Lemma sanitize_idempotent_witness :
  validateAndSanitizeExperimentLogPartialArgs
    [("input", JStr "q");
     ("scores", JObj [("exact", JNum one); ("close", JNum 0.5)])]
  = Ok [("input", JStr "q");
        ("scores", JObj [("exact", JNum one); ("close", JNum 0.5)])].
Proof using.
  apply (sanitize_idempotent
           [("inputs", JStr "q");
            ("scores", JObj [("exact", JBool true); ("close", JNum 0.5)])]).
  - solve_wf.
  - reflexivity.
Defined.

(** *** Tags *)

(** The membership test of [validateTags] never succeeds, because
    nothing is ever added to [seen]: a list of strings passes whatever
    it repeats. *)
Lemma validateTags_strings_pass (l : list string) :
  validateTags (JArr (map JStr l)) = Ok tt.
Proof.
  unfold validateTags. simpl.
  induction l as [|s l IH]; simpl; [reflexivity | exact IH].
Qed.

(** A tag that is not a string is rejected. *)
Lemma validateTags_rejects_non_string (tags : list JsValue) (t : JsValue) :
  In t tags -> typeof t <> "string" ->
  validateTags (JArr tags) = Throw (Error "tags must be strings").
Proof using.
  unfold validateTags. simpl.
  induction tags as [|t' tags IH]; simpl; [intros []|].
  intros [->|Hin] Hty.
  - destruct t; simpl in *; try reflexivity. now elim Hty.
  - destruct t'; simpl; try reflexivity. now apply IH.
Qed.

(** C4.  The code at the failing input: an event whose tags list holds
    the same tag twice is accepted by
    [validateAndSanitizeExperimentLogPartialArgs] and returned as it
    is, where the claim has it rejected. *)
Theorem duplicate_tags_accepted :
  validateAndSanitizeExperimentLogPartialArgs
    [("tags", JArr [JStr "a"; JStr "a"])]
  = Ok [("tags", JArr [JStr "a"; JStr "a"])].
Proof. reflexivity. Qed.

(** *** Scores *)

Lemma check_scores_object event event1 o :
  wf_object event ->
  prop "scores" event = JObj o ->
  check_scores event = Ok event1 ->
  prop "scores" event1 = JObj (map coerce_entry o) /\
  forallb (fun kv => score_ok (snd kv)) o = true /\
  NoDup (map fst o).
Proof using.
  intros Hwf Hp. unfold check_scores. rewrite Hp. simpl.
  assert (Hget : obj_get "scores" event = Some (JObj o)).
  { rewrite <- Hp. apply prop_truthy_get. now rewrite Hp. }
  assert (Hnd : NoDup (map fst o)).
  { apply obj_get_In in Hget.
    apply (wf_object_In _ _ _ Hwf) in Hget. now destruct Hget. }
  destruct (scores_loop o (JObj o)) as [s'|e] eqn:Hloop; simpl; [|discriminate].
  intros [= <-].
  pose proof (scores_loop_Ok_inv _ _ _ Hloop) as Hall.
  pose proof (scores_loop_ok o [] Hnd Hall) as Hspec. simpl in Hspec.
  rewrite Hspec in Hloop. injection Hloop as <-.
  unfold prop. now rewrite obj_get_set_eq.
Qed.

Lemma sanitize_Ok_inv event out :
  validateAndSanitizeExperimentLogPartialArgs event = Ok out ->
  exists event1, check_scores event = Ok event1 /\
    check_metrics event1 = Ok tt /\ input_and_inputs event1 = false /\
    check_tags event1 = Ok tt /\ out = rename_inputs event1.
Proof.
  unfold validateAndSanitizeExperimentLogPartialArgs.
  destruct (check_scores event) as [event1|e] eqn:H1; simpl; [|discriminate].
  destruct (check_metrics event1) as [[]|e] eqn:H2; simpl; [|discriminate].
  destruct (input_and_inputs event1) eqn:H3; [discriminate|].
  destruct (check_tags event1) as [[]|e] eqn:H4; simpl; [|discriminate].
  intros [= <-]. exists event1. repeat split; assumption.
Qed.

Lemma forallb_score_ok_In (o : JsObject) name v :
  forallb (fun kv => score_ok (snd kv)) o = true ->
  In (name, v) o -> score_ok v = true.
Proof.
  intros Hall Hin. rewrite forallb_forall in Hall.
  exact (Hall (name, v) Hin).
Qed.

(** C5, amended.  For an event whose [scores] is an object: when the
    event is accepted, every score comes out as the loop coerces it
    ([false] as [0], [true] as [1], everything else as it was); the
    event is rejected when some score is a number below 0 or above 1,
    or is neither [null], [undefined], a boolean nor a number.  An
    array given as [scores] is rejected. *)
Theorem sanitize_scores (event : JsObject) :
  wf_object event ->
  (forall o name v out,
     prop "scores" event = JObj o -> In (name, v) o ->
     validateAndSanitizeExperimentLogPartialArgs event = Ok out ->
     member name (prop "scores" out) = coerce_score v) /\
  (forall o name x,
     prop "scores" event = JObj o -> In (name, JNum x) o ->
     ((x <? zero)%float || (one <? x)%float) = true ->
     isThrow (validateAndSanitizeExperimentLogPartialArgs event) = true) /\
  (forall o name v,
     prop "scores" event = JObj o -> In (name, v) o ->
     nullish v = false ->
     typeof v <> "number" -> typeof v <> "boolean" ->
     isThrow (validateAndSanitizeExperimentLogPartialArgs event) = true) /\
  (forall l,
     prop "scores" event = JArr l ->
     validateAndSanitizeExperimentLogPartialArgs event
     = Throw (Error "scores must be an object, not an array")).
Proof using.
  intros Hwf.
  assert (Hbad : forall o name v,
    prop "scores" event = JObj o -> In (name, v) o -> score_ok v = false ->
    isThrow (validateAndSanitizeExperimentLogPartialArgs event) = true).
  { intros o name v Hp Hin Hv.
    destruct (validateAndSanitizeExperimentLogPartialArgs event)
      as [out|e] eqn:Hs; [|reflexivity].
    exfalso.
    destruct (sanitize_Ok_inv _ _ Hs) as [event1 [Hsc _]].
    destruct (check_scores_object _ _ _ Hwf Hp Hsc) as [_ [Hall _]].
    rewrite (forallb_score_ok_In _ _ _ Hall Hin) in Hv. discriminate. }
  repeat split.
  - intros o name v out Hp Hin Hs.
    destruct (sanitize_Ok_inv _ _ Hs) as [event1 [Hsc [_ [_ [_ ->]]]]].
    destruct (check_scores_Ok _ _ Hwf Hsc) as [_ [_ Hkeys]].
    destruct (check_scores_object _ _ _ Hwf Hp Hsc) as [Hp1 [_ Hnd]].
    rewrite (prop_eq_of_get "scores" (rename_inputs event1) event1).
    2:{ apply rename_inputs_get; [|discriminate|discriminate].
        rewrite Hkeys. now apply wf_object_keys. }
    rewrite Hp1. simpl. unfold prop.
    rewrite (In_obj_get name (coerce_score v)); [reflexivity | |].
    + now rewrite coerce_entries_keys.
    + change (name, coerce_score v) with (coerce_entry (name, v)).
      now apply in_map.
  - intros o name x Hp Hin Hx.
    apply (Hbad o name (JNum x) Hp Hin). simpl. now rewrite Hx.
  - intros o name v Hp Hin Hn Hnum Hbool.
    apply (Hbad o name v Hp Hin).
    destruct v; simpl in *; try reflexivity; try discriminate;
      exfalso; auto.
  - intros l Hp. unfold validateAndSanitizeExperimentLogPartialArgs, check_scores.
    rewrite Hp. reflexivity.
Qed.

(** Witness of C5: a [true] score comes out as [1]. *)
Lemma sanitize_scores_witness :
  member "exact"
    (prop "scores" [("scores", JObj [("exact", JNum one)])])
  = JNum one.
Proof using.
  refine (proj1 (sanitize_scores
                   [("scores", JObj [("exact", JBool true)])] _)
            [("exact", JBool true)] "exact" (JBool true) _ _ _ _).
  - solve_wf.
  - reflexivity.
  - simpl. auto.
  - reflexivity.
Defined.

(** C5, the counterexample: a [null] score is a defined value that is
    neither a number nor a boolean, and the event is accepted. *)
Lemma null_score_accepted :
  validateAndSanitizeExperimentLogPartialArgs
    [("scores", JObj [("quality", JNull)])]
  = Ok [("scores", JObj [("quality", JNull)])].
Proof. reflexivity. Qed.

(** The two rejected numbers of the spec's example, and the two
    booleans. *)
Lemma score_examples :
  isThrow (validateAndSanitizeExperimentLogPartialArgs
             [("scores", JObj [("s", JNum 1.5)])]) = true /\
  isThrow (validateAndSanitizeExperimentLogPartialArgs
             [("scores", JObj [("s", JNum (-0.1))])]) = true /\
  validateAndSanitizeExperimentLogPartialArgs
    [("scores", JObj [("t", JBool true); ("f", JBool false)])]
  = Ok [("scores", JObj [("t", JNum one); ("f", JNum zero)])].
Proof. repeat split; reflexivity. Qed.

(** ** The queue of the BackgroundLogger *)

(** The records the logger holds: those the pass in flight has drained
    and those still queued. *)
Definition pending (b : BackgroundLogger) : list LazyRecord :=
  (match activeFlush b with Some l => l | None => [] end ++ items b)%list.

(** The dropped items accounted for: those the warnings have reported
    and those counted since the last warning. *)
Fixpoint reported_dropped (tr : list Effect) : Z :=
  match tr with
  | [] => 0
  | WarnDropped n :: rest => n + reported_dropped rest
  | _ :: rest => reported_dropped rest
  end.

Definition accounted_dropped (w : World) : Z :=
  (reported_dropped (trace w) + numDropped (bgLogger w))%Z.

(** The split [log] makes of the incoming batch. *)
Definition numElementsToAdd (maxsize : option Z) (queued : list LazyRecord)
  (newItems : list LazyRecord) : nat :=
  match maxsize with
  | None => List.length newItems
  | Some m =>
      Z.to_nat (Z.min (Z.max (m - Z.of_nat (List.length queued)) 0)
                  (Z.of_nat (List.length newItems)))
  end.

(** The fields a [log] call never writes. *)
Definition config (b : BackgroundLogger) :=
  (apiConn b, syncFlush b, maxRequestSize b, defaultBatchSize b,
   numTries b, queueDropExceedingMaxsize b, queueDropLoggingPeriod b,
   failedPublishPayloadsDir b, allPublishPayloadsDir b).

Definition same_config (b b' : BackgroundLogger) : Prop :=
  config b' = config b.

Lemma reported_dropped_app tr tr' :
  reported_dropped (tr ++ tr') = (reported_dropped tr + reported_dropped tr')%Z.
Proof.
  induction tr as [|e tr IH]; simpl; [reflexivity|].
  destruct e; rewrite IH; lia.
Qed.

(** Unfold the state-and-exception combinators. *)
Ltac run :=
  repeat (progress
    (unfold bind, ret, throw, lift, modify, gets, update_bg, bg, emit,
       catch, world, call in *)).

(** [registerDroppedItemCount] accounts for exactly the items it is
    given, whether it reports them at once or keeps them counted. *)
Lemma registerDroppedItemCount_spec (n : Z) (w : World) :
  exists w',
    registerDroppedItemCount n w = (Ok tt, w') /\
    accounted_dropped w' = (accounted_dropped w + Z.max n 0)%Z /\
    items (bgLogger w') = items (bgLogger w) /\
    activeFlush (bgLogger w') = activeFlush (bgLogger w) /\
    activeFlushError (bgLogger w') = activeFlushError (bgLogger w) /\
    same_config (bgLogger w) (bgLogger w') /\
    dumps w' = dumps w /\
    uuidCount w' = uuidCount w /\ executionCounter w' = executionCounter w.
Proof.
  unfold registerDroppedItemCount, accounted_dropped, same_config.
  destruct (n <=? 0)%Z eqn:Hn.
  - apply Z.leb_le in Hn. exists w. run. repeat split; try reflexivity. lia.
  - apply Z.leb_gt in Hn.
    unfold getCurrentUnixTimestamp, logFailedPayloadsDir. run. simpl.
    destruct (_ <? _)%float; simpl.
    + destruct (dir_set _); simpl; eexists; (split; [reflexivity|]); simpl;
        rewrite ?reported_dropped_app; simpl; repeat split; try reflexivity; lia.
    + eexists; (split; [reflexivity|]); simpl; repeat split; try reflexivity; lia.
Qed.

(** What a [log] call does to the logger: it never throws, it adds
    the first [k] items of the batch to the records the logger holds,
    and it accounts for the others as dropped. *)
Lemma BackgroundLogger_log_spec (newItems : list LazyRecord) (w : World) :
  let b := bgLogger w in
  let k := numElementsToAdd (queueDropExceedingMaxsize b) (items b) newItems in
  let starts := negb (syncFlush b) && activeFlushResolved b in
  exists w',
    BackgroundLogger_log newItems w = (Ok tt, w') /\
    pending (bgLogger w') = (pending b ++ firstn k newItems)%list /\
    items (bgLogger w')
    = (if starts then [] else items b ++ firstn k newItems)%list /\
    activeFlush (bgLogger w')
    = (if starts then Some (items b ++ firstn k newItems)%list
       else activeFlush b) /\
    accounted_dropped w'
    = (accounted_dropped w + Z.of_nat (List.length (skipn k newItems)))%Z /\
    same_config b (bgLogger w') /\
    uuidCount w' = uuidCount w /\ executionCounter w' = executionCounter w /\
    (skipn k newItems = [] ->
     clockCount w' = clockCount w /\ trace w' = trace w).
Proof.
  intros b k starts.
  assert (Hsplit :
    (match queueDropExceedingMaxsize b with
     | None => (newItems, [])
     | Some m =>
         let n := Z.min (Z.max (m - Z.of_nat (List.length (items b))) 0)
                    (Z.of_nat (List.length newItems)) in
         (firstn (Z.to_nat n) newItems, skipn (Z.to_nat n) newItems)
     end) = (firstn k newItems, skipn k newItems)).
  { subst k. unfold numElementsToAdd.
    destruct (queueDropExceedingMaxsize b); [reflexivity|].
    now rewrite firstn_all, skipn_all. }
  cbv zeta in Hsplit. subst b.
  unfold BackgroundLogger_log.
  unfold bind at 1. unfold bg at 1, gets at 1.
  unfold bind at 1. unfold bg at 1, gets at 1.
  rewrite Hsplit.
  set (added := firstn k newItems) in *.
  set (dropped := skipn k newItems) in *.
  cbv iota beta.
  unfold triggerActiveFlush, drain, activeFlushResolved in *.
  unfold bind at 1, update_bg at 1, modify at 1.
  unfold bind at 1, bg at 1, gets at 1.
  cbn [bgLogger set_bgLogger syncFlush set_items].
  unfold bind at 1.
  assert (Hpre : exists w1,
    (if negb (syncFlush (bgLogger w))
        then
         resolved <-
         bg
           (fun bg0 : BackgroundLogger =>
            match activeFlush bg0 with
            | Some _ => false
            | None => true
            end);;
         (if resolved
          then
           update_bg (set_activeFlushError None);;
           wrappedItems <-
           (wrappedItems <- bg items;; update_bg (set_items []);; ret wrappedItems);;
           update_bg (set_activeFlush (Some wrappedItems))
          else ret tt)
        else ret tt)
         (set_bgLogger
            (set_items (items (bgLogger w) ++ added) (bgLogger w)) w) = (Ok tt, w1) /\
     pending (bgLogger w1) = (pending (bgLogger w) ++ added)%list /\
     items (bgLogger w1) = (if starts then [] else items (bgLogger w) ++ added)%list /\
     activeFlush (bgLogger w1) = (if starts then Some (items (bgLogger w) ++ added)%list
       else activeFlush (bgLogger w)) /\
     accounted_dropped w1 = accounted_dropped w /\
     same_config (bgLogger w) (bgLogger w1) /\
     dumps w1 = dumps w /\
     uuidCount w1 = uuidCount w /\ executionCounter w1 = executionCounter w /\
     clockCount w1 = clockCount w /\ trace w1 = trace w).
  { subst starts. unfold pending, accounted_dropped, same_config.
    destruct (syncFlush (bgLogger w)) eqn:Hsync; simpl.
    - run. eexists. split; [reflexivity|]. simpl.
      rewrite app_assoc. repeat split; try reflexivity; congruence.
    - run. simpl. destruct (activeFlush (bgLogger w)) eqn:Haf; simpl.
      + eexists. split; [reflexivity|]. simpl. rewrite Haf.
        rewrite app_assoc. repeat split; try reflexivity; congruence.
      + eexists. split; [reflexivity|]. simpl.
        rewrite app_nil_r. repeat split; try reflexivity; congruence. }
  destruct Hpre
    as [w1 [Hrun [Hpend [Hitems [Haf [Hacc [Hcfg [Hd [Hu [He [Hc Ht]]]]]]]]]]].
  rewrite Hrun.
  destruct dropped as [|d dropped'] eqn:Hdropped.
  - exists w1. run. split; [reflexivity|].
    split; [exact Hpend|]. split; [exact Hitems|]. split; [exact Haf|].
    split; [simpl; lia|]. split; [exact Hcfg|].
    split; [exact Hu|]. split; [exact He|]. intros _. now split.
  - set (n := Z.of_nat (List.length (d :: dropped'))).
    destruct (registerDroppedItemCount_spec n w1)
      as [w2 [Hreg [Hacc2 [Hi2 [Haf2 [Hae2 [Hcfg2 [Hd2 [Hu2 He2]]]]]]]]].
    unfold bind at 1. rewrite Hreg. run.
    assert (Hn : Z.max n 0 = n) by (subst n; lia).
    assert (Hcfg' : same_config (bgLogger w) (bgLogger w2)).
    { unfold same_config in *. congruence. }
    assert (Hp2 : pending (bgLogger w2)
                  = (pending (bgLogger w) ++ added)%list).
    { rewrite <- Hpend. unfold pending. now rewrite Haf2, Hi2. }
    unfold spawn_dump. run.
    destruct (dir_set (allPublishPayloadsDir (bgLogger w2)) ||
              dir_set (failedPublishPayloadsDir (bgLogger w2)));
      (eexists; split; [reflexivity|]);
      unfold accounted_dropped in *; cbn [bgLogger trace];
      (split; [exact Hp2|]); (split; [congruence|]);
      (split; [congruence|]); (split; [subst n; lia|]);
      (split; [exact Hcfg'|]);
      (split; [simpl; congruence|]); (split; [simpl; congruence|]);
      intros Hnone; fold dropped in Hnone; congruence.
Qed.

(** [for (const r of records) log([r])]: the records logged one call
    at a time, with no [await] between two calls, so that no pass
    resumes in between. *)
Definition log_each (records : list LazyRecord) (w : World) : World :=
  fold_left (fun w r => snd (BackgroundLogger_log [r] w)) records w.

(** While no pass can start (synchronous-flush mode, or a pass in
    flight), logging the records one call at a time does to the queue
    what logging them as one batch does. *)
Lemma log_each_no_start (records : list LazyRecord) :
  forall (w : World) (m : Z),
    queueDropExceedingMaxsize (bgLogger w) = Some m ->
    negb (syncFlush (bgLogger w)) && activeFlushResolved (bgLogger w)
    = false ->
    let n := numElementsToAdd (Some m) (items (bgLogger w)) records in
    let w' := log_each records w in
    items (bgLogger w') = (items (bgLogger w) ++ firstn n records)%list /\
    activeFlush (bgLogger w') = activeFlush (bgLogger w) /\
    accounted_dropped w'
    = (accounted_dropped w + Z.of_nat (List.length (skipn n records)))%Z /\
    same_config (bgLogger w) (bgLogger w').
Proof.
  induction records as [|r rest IH]; intros w m Hmax Hns n w'.
  - subst n w'. unfold log_each. cbn [fold_left].
    rewrite firstn_nil, skipn_nil, app_nil_r. cbn [List.length].
    repeat split; try reflexivity. lia.
  - destruct (BackgroundLogger_log_spec [r] w)
      as [w1 [Hrun [_ [Hitems [Haf [Hacc [Hcfg _]]]]]]].
    rewrite Hns in Hitems, Haf. rewrite Hmax in Hitems, Hacc.
    assert (Hcfg' := Hcfg). unfold same_config, config in Hcfg'.
    assert (Hmax1 : queueDropExceedingMaxsize (bgLogger w1) = Some m)
      by congruence.
    assert (Hns1 : negb (syncFlush (bgLogger w1)) &&
                   activeFlushResolved (bgLogger w1) = false).
    { unfold activeFlushResolved in *. rewrite Haf.
      replace (syncFlush (bgLogger w1)) with (syncFlush (bgLogger w))
        by congruence.
      exact Hns. }
    destruct (IH w1 m Hmax1 Hns1) as [Hi [Ha [Hd Hc]]].
    assert (Hw' : w' = log_each rest w1).
    { subst w'. unfold log_each. cbn [fold_left]. now rewrite Hrun. }
    rewrite Hw'. rewrite Hi, Ha, Hd, Haf, Hacc, Hitems.
    unfold numElementsToAdd in *. subst n.
    rewrite length_app. cbn [List.length].
    set (len := List.length (items (bgLogger w))).
    destruct (Z_lt_le_dec (Z.of_nat len) m) as [Hlt|Hge].
    + replace (Z.to_nat (Z.min (Z.max (m - Z.of_nat len) 0) (Z.of_nat 1)))
        with 1 by lia.
      replace (Z.to_nat (Z.min (Z.max (m - Z.of_nat len) 0)
                           (Z.of_nat (S (List.length rest)))))
        with (S (Z.to_nat
                   (Z.min (Z.max (m - Z.of_nat (len + 1)) 0)
                      (Z.of_nat (List.length rest))))) by lia.
      cbn [firstn skipn List.length]. rewrite <- app_assoc.
      cbn [app]. repeat split; try reflexivity; try lia.
      unfold same_config in *. congruence.
    + replace (Z.to_nat (Z.min (Z.max (m - Z.of_nat len) 0) (Z.of_nat 1)))
        with 0 by lia.
      replace (Z.to_nat (Z.min (Z.max (m - Z.of_nat len) 0)
                           (Z.of_nat (S (List.length rest)))))
        with 0 by lia.
      cbn [firstn skipn List.length]. rewrite !app_nil_r.
      replace (Z.to_nat (Z.min (Z.max (m - Z.of_nat (len + 0)) 0)
                           (Z.of_nat (List.length rest))))
        with 0 by lia.
      cbn [firstn skipn]. rewrite app_nil_r.
      repeat split; try reflexivity; try lia.
      unfold same_config in *. congruence.
Qed.

(** C1, amended.  A [log] call on a logger with a maximum queue size
    [m] never throws; with [k = min (max (m - queue length) 0) (batch
    length)] it adds exactly the first [k] items of the batch, after the
    records the logger already holds and without removing any of them,
    and the dropped-item account (reported plus counted) grows by
    exactly the number of the other items; the queue stays within [m].
    The maximum bounds the queue, not the records a pass in flight has
    drained.  So 250 records logged one call at a time to an empty
    logger with [m = 100], no pass resuming in between, leave the first
    100 to flush and account for 150 as dropped in synchronous-flush
    mode; in asynchronous mode, on an idle logger, the first call
    starts a pass that drains its record, the queue then takes the next
    100, and 101 records are left to flush with 149 accounted for as
    dropped. *)
Theorem log_drops_overflow (newItems : list LazyRecord) (w : World) (m : Z) :
  queueDropExceedingMaxsize (bgLogger w) = Some m ->
  let b := bgLogger w in
  let k :=
    Z.to_nat (Z.min (Z.max (m - Z.of_nat (List.length (items b))) 0)
                (Z.of_nat (List.length newItems))) in
  let w' := snd (BackgroundLogger_log newItems w) in
  fst (BackgroundLogger_log newItems w) = Ok tt /\
  pending (bgLogger w') = (pending b ++ firstn k newItems)%list /\
  accounted_dropped w'
  = (accounted_dropped w + Z.of_nat (List.length (skipn k newItems)))%Z /\
  ((Z.of_nat (List.length (items b)) <= m)%Z ->
   (Z.of_nat (List.length (items (bgLogger w'))) <= m)%Z) /\
  (forall records,
     pending b = [] -> m = 100%Z -> List.length records = 250 ->
     let w250 := log_each records w in
     (syncFlush b = true ->
      pending (bgLogger w250) = firstn 100 records /\
      List.length (pending (bgLogger w250)) = 100 /\
      accounted_dropped w250 = (accounted_dropped w + 150)%Z) /\
     (syncFlush b = false -> activeFlush b = None ->
      activeFlush (bgLogger w250) = Some (firstn 1 records) /\
      items (bgLogger w250) = firstn 100 (skipn 1 records) /\
      List.length (pending (bgLogger w250)) = 101 /\
      accounted_dropped w250 = (accounted_dropped w + 149)%Z)).
Proof.
  intros Hmax b k w'.
  destruct (BackgroundLogger_log_spec newItems w)
    as [w1 [Hrun [Hpend [Hitems [_ [Hacc _]]]]]].
  unfold numElementsToAdd in *. rewrite Hmax in *. fold b in Hpend, Hitems, Hacc.
  fold k in Hpend, Hitems, Hacc.
  subst w'. rewrite Hrun. cbn [fst snd].
  split; [reflexivity|]. split; [exact Hpend|]. split; [exact Hacc|].
  assert (Hk : (Z.of_nat k <= Z.max (m - Z.of_nat (List.length (items b))) 0)%Z)
    by (subst k; lia).
  split.
  - intros Hle. rewrite Hitems.
    destruct (negb (syncFlush b) && activeFlushResolved b).
    + simpl. lia.
    + rewrite length_app.
      pose proof (firstn_le_length k newItems).
      assert (List.length (firstn k newItems) <= k) by apply firstn_le_length.
      lia.
  - intros records Hempty -> Hlen. set (w250 := log_each records w).
    clear Hpend Hitems Hacc Hk Hrun w1. subst k b.
    assert (Hq : items (bgLogger w) = []).
    { unfold pending in Hempty. now apply app_eq_nil in Hempty. }
    split.
    + intros Hsync.
      assert (Hns : negb (syncFlush (bgLogger w)) &&
                    activeFlushResolved (bgLogger w) = false)
        by now rewrite Hsync.
      destruct (log_each_no_start records w 100 Hmax Hns)
        as [Hi [Ha [Hd _]]].
      fold w250 in Hi, Ha, Hd.
      unfold numElementsToAdd in Hi, Hd. rewrite Hq, Hlen in Hi, Hd.
      change (Z.to_nat _) with 100 in Hi, Hd. cbn [app] in Hi.
      assert (Hp : pending (bgLogger w250) = firstn 100 records).
      { unfold pending in *. rewrite Ha, Hi.
        apply app_eq_nil in Hempty. destruct Hempty as [-> _].
        reflexivity. }
      split; [exact Hp|]. split.
      * rewrite Hp, length_firstn, Hlen. reflexivity.
      * rewrite Hd, length_skipn, Hlen. reflexivity.
    + intros Hsync Hidle.
      destruct records as [|r rest]; [discriminate Hlen|].
      injection Hlen as Hlen.
      destruct (BackgroundLogger_log_spec [r] w)
        as [w2 [Hrun2 [_ [Hitems2 [Haf2 [Hacc2 [Hcfg2 _]]]]]]].
      unfold activeFlushResolved in Hitems2, Haf2.
      rewrite Hsync, Hidle in Hitems2, Haf2. cbn [negb andb] in Hitems2, Haf2.
      rewrite Hmax in Haf2, Hacc2. unfold numElementsToAdd in Haf2, Hacc2.
      rewrite Hq in Haf2, Hacc2.
      change (Z.to_nat _) with 1 in Haf2, Hacc2.
      cbn [app firstn skipn List.length] in Haf2, Hacc2.
      unfold same_config, config in Hcfg2.
      assert (Hmax2 : queueDropExceedingMaxsize (bgLogger w2) = Some 100%Z)
        by congruence.
      assert (Hns2 : negb (syncFlush (bgLogger w2)) &&
                     activeFlushResolved (bgLogger w2) = false).
      { unfold activeFlushResolved. rewrite Haf2. apply andb_false_r. }
      destruct (log_each_no_start rest w2 100 Hmax2 Hns2)
        as [Hi [Ha [Hd _]]].
      assert (Hw : w250 = log_each rest w2).
      { subst w250. unfold log_each. cbn [fold_left]. now rewrite Hrun2. }
      rewrite <- Hw in Hi, Ha, Hd.
      unfold numElementsToAdd in Hi, Hd. rewrite Hitems2, Hlen in Hi, Hd.
      change (Z.to_nat _) with 100 in Hi, Hd. cbn [app] in Hi.
      cbn [firstn skipn].
      split; [now rewrite Ha, Haf2|]. split; [exact Hi|]. split.
      * unfold pending. rewrite Ha, Haf2, Hi. cbn [app List.length].
        rewrite length_firstn, Hlen. reflexivity.
      * rewrite Hd, Hacc2, length_skipn, Hlen. cbn. lia.
Qed.

(** ** Batch submission *)

(** The posts to one endpoint among a list of effects. *)
Fixpoint posts_to (path : string) (tr : list Effect) : nat :=
  match tr with
  | [] => 0
  | Post p _ :: rest =>
      if p =? path then S (posts_to path rest) else posts_to path rest
  | _ :: rest => posts_to path rest
  end.

(** The server refuses every request. *)
Definition always_fails (conn : HTTPConnection) : Prop :=
  forall path body i, isOk (post_json conn path body i) = false.

Lemma posts_to_app path tr tr' :
  posts_to path (tr ++ tr') = posts_to path tr + posts_to path tr'.
Proof.
  induction tr as [|e tr IH]; simpl; [reflexivity|].
  destruct e; try exact IH.
  destruct (path0 =? path); simpl; now rewrite IH.
Qed.

(** One attempt: the primary post, and the legacy post exactly when the
    primary one fails and the legacy payload can be built; the attempt
    fails only when the fallback fails too. *)
Lemma submitAttempt_spec (conn : HTTPConnection) (items : list string)
  (dataStr : string) (i : Z) (w : World) :
  exists err effs w',
    submitAttempt conn items dataStr i w = (Ok err, w') /\
    bgLogger w' = bgLogger w /\ trace w' = (trace w ++ effs)%list /\
    posts_to "logs3" effs = 1 /\ posts_to "logs" effs <= 1 /\
    (isOk (post_json conn "logs3" dataStr i) = true ->
     err = None /\ effs = [Post "logs3" dataStr]) /\
    (isOk (post_json conn "logs3" dataStr i) = false ->
     forall legacy, legacyItems items = Ok legacy ->
       effs = [Post "logs3" dataStr; Post "logs" (constructJsonArray legacy)]
       /\ (err = None <->
           isOk (post_json conn "logs" (constructJsonArray legacy) i) = true)) /\
    (always_fails conn -> err <> None).
Proof.
  unfold submitAttempt. run. simpl.
  destruct (post_json conn "logs3" dataStr i) as [[]|e1] eqn:H1; simpl.
  - exists None, [Post "logs3" dataStr]. eexists. split; [reflexivity|].
    simpl. repeat split; auto; try discriminate.
    intros Hf. specialize (Hf "logs3" dataStr i). rewrite H1 in Hf. discriminate.
  - destruct (legacyItems items) as [legacy|e2] eqn:H2; simpl.
    + destruct (post_json conn "logs" (constructJsonArray legacy) i)
        as [[]|e3] eqn:H3; simpl.
      * exists None, [Post "logs3" dataStr; Post "logs" (constructJsonArray legacy)].
        eexists. split; [reflexivity|]. simpl. rewrite <- app_assoc.
        split; [reflexivity|]. split; [reflexivity|].
        split; [reflexivity|]. split; [lia|]. split; [discriminate|].
        split.
        -- intros _ l [= <-]. rewrite H3. now split.
        -- intros Hf. specialize (Hf "logs" (constructJsonArray legacy) i).
           rewrite H3 in Hf. discriminate.
      * exists (Some e3),
          [Post "logs3" dataStr; Post "logs" (constructJsonArray legacy)].
        eexists. split; [reflexivity|]. simpl. rewrite <- app_assoc.
        split; [reflexivity|]. split; [reflexivity|].
        split; [reflexivity|]. split; [lia|]. split; [discriminate|].
        split.
        -- intros _ l [= <-]. rewrite H3. simpl. split; [reflexivity|].
           split; discriminate.
        -- discriminate.
    + exists (Some e2), [Post "logs3" dataStr]. eexists.
      split; [reflexivity|]. simpl.
      split; [reflexivity|]. split; [reflexivity|].
      split; [reflexivity|]. split; [lia|]. split; [discriminate|].
      split; [intros _ l; discriminate | discriminate].
Qed.



(** ** Resolution of the drained records *)

Definition is_sleep (e : Effect) : bool :=
  match e with Sleep ms => (ms =? 100)%Z | _ => false end.

Definition is_post (e : Effect) : bool :=
  match e with Post _ _ => true | _ => false end.

(** The warning a failed resolution try prints. *)
Definition is_try_warning (e : Effect) : bool :=
  match e with
  | Warn m =>
      (m =? "Encountered error when constructing records to flush") ||
      (m =? "Encountered error when constructing records to flush. Retrying")
  | _ => false
  end.

Definition count (p : Effect -> bool) (tr : list Effect) : nat :=
  List.length (filter p tr).

Lemma count_app p tr tr' : count p (tr ++ tr') = count p tr + count p tr'.
Proof. unfold count. now rewrite filter_app, length_app. Qed.

(** The retry loop of [unwrapLazyValues] on a batch one record of which
    rejects: every iteration left is used, each failed try is followed
    by the 100ms delay, and the loop ends with no record at all (or
    rethrows the rejection on the last try, in synchronous-flush
    mode). *)
Lemma unwrapLazyValues_loop_rejected (wrapped : list LazyRecord)
  (e : JsError) :
  get_all wrapped = Throw e ->
  forall (remaining : nat) (i : Z) (w : World),
    remaining = Z.to_nat (numTries (bgLogger w) - i) ->
    exists r effs w',
      unwrapLazyValues_loop remaining i wrapped w = (r, w') /\
      bgLogger w' = bgLogger w /\ trace w' = (trace w ++ effs)%list /\
      count is_post effs = 0 /\
      count is_try_warning effs = remaining /\
      (syncFlush (bgLogger w) = false ->
       r = Ok [] /\ count is_sleep effs = remaining /\
       In (WarnGaveUp
             "Failed to construct log records to flush. Dropping batch"
             (numTries (bgLogger w))) effs) /\
      (syncFlush (bgLogger w) = true -> remaining <> 0 ->
       r = Throw e /\ S (count is_sleep effs) = remaining).
Proof.
  intros Hrej.
  induction remaining as [|remaining IH]; intros i w Hrem.
  - simpl. run. cbv beta iota zeta.
    eexists. eexists. eexists. split; [reflexivity|]. cbn [bgLogger trace].
    split; [reflexivity|]. split; [reflexivity|].
    split; [reflexivity|]. split; [reflexivity|].
    split; [intros _; split; [reflexivity|]; split; [reflexivity | now left]|].
    intros _ H. now elim H.
  - cbn [unwrapLazyValues_loop]. rewrite Hrej. run. cbv beta iota zeta.
    destruct (i + 1 <? numTries (bgLogger w))%Z eqn:Hretry;
      cbn [negb andb bgLogger trace].
    + apply Z.ltb_lt in Hretry.
      set (w1 := {| bgLogger := bgLogger w;
                    trace := (((trace w ++
                      [Warn ("Encountered error when constructing records to flush"
                               ++ ". Retrying")]) ++
                      [WarnError e]) ++ [Sleep 100])%list;
                    dumps := dumps w; uuidCount := uuidCount w;
                    clockCount := clockCount w;
                    executionCounter := executionCounter w |}).
      destruct (IH (i + 1)%Z w1)
        as [r [effs [w' [Hrec [Hbg' [Htr' [Hpost [Htry [Hasync Hsync]]]]]]]]].
      { cbn [w1 bgLogger]. lia. }
      exists r,
        ([Warn ("Encountered error when constructing records to flush"
                  ++ ". Retrying");
          WarnError e; Sleep 100] ++ effs)%list, w'.
      split; [exact Hrec|]. split; [exact Hbg'|].
      split.
      { rewrite Htr'. subst w1. cbn [trace]. now rewrite <- !app_assoc. }
      rewrite !count_app. cbn [bgLogger w1] in *.
      split; [rewrite Hpost; reflexivity|].
      split; [rewrite Htry; reflexivity|].
      split.
      { intros Hs. destruct (Hasync Hs) as [-> [Hsl Hin]].
        split; [reflexivity|]. split; [rewrite Hsl; reflexivity|].
        apply in_or_app. now right. }
      intros Hs _. assert (Hne : remaining <> 0) by lia.
      destruct (Hsync Hs Hne) as [-> Hsl]. split; [reflexivity|].
      rewrite <- Hsl. reflexivity.
    + apply Z.ltb_ge in Hretry.
      assert (Hrem0 : remaining = 0) by lia. subst remaining.
      destruct (syncFlush (bgLogger w)) eqn:Hsync;
        cbn [unwrapLazyValues_loop]; run; cbv beta iota zeta;
        cbn [bgLogger trace];
        (eexists; eexists; eexists; split; [reflexivity|]);
        cbn [bgLogger trace];
        (split; [reflexivity|]);
        (split; [rewrite <- ?app_assoc; reflexivity|]);
        (split; [reflexivity|]); (split; [reflexivity|]).
      * split; [discriminate|]. intros _ _. split; reflexivity.
      * split; [|discriminate]. intros _. split; [reflexivity|].
        split; [reflexivity|]. simpl. auto 10.
Qed.

(** A batch every record of which resolves is resolved at the first
    try, with no warning and no delay. *)
Lemma unwrapLazyValues_resolved (wrapped : list LazyRecord)
  (resolved : list JsValue) (w : World) :
  get_all wrapped = Ok resolved ->
  (0 < numTries (bgLogger w))%Z ->
  unwrapLazyValues wrapped w = (Ok (mergeRowBatch resolved), w).
Proof.
  intros Hall Hpos. unfold unwrapLazyValues. run.
  destruct (Z.to_nat (numTries (bgLogger w))) as [|n] eqn:Hn; [lia|].
  cbn [unwrapLazyValues_loop]. now rewrite Hall.
Qed.
(** A pass with no arrival whose batch resolves to nothing ends at
    once; a pass whose resolution throws fails with that error. *)
Lemma flushOnce_resume_dropped (fuel : nat) (wrapped : list LazyRecord)
  (w w1 : World) :
  unwrapLazyValues wrapped w = (Ok [], w1) ->
  flushOnce_resume (S fuel) [] wrapped w = Some (Ok tt, w1).
Proof.
  intros Hun. cbn [flushOnce_resume hd arrive].
  unfold bind at 1, ret at 1. now rewrite Hun.
Qed.

Lemma flushOnce_resume_failed (fuel : nat) (wrapped : list LazyRecord)
  (w w1 : World) (e : JsError) :
  unwrapLazyValues wrapped w = (Throw e, w1) ->
  flushOnce_resume (S fuel) [] wrapped w = Some (Throw e, w1).
Proof.
  intros Hun. cbn [flushOnce_resume hd arrive].
  unfold bind at 1, ret at 1. now rewrite Hun.
Qed.

(** C7, amended.  Resolution of a drained batch one record of which
    rejects.  The default number of tries is 3.  Every try fails, so
    there are exactly [numTries] of them and nothing is posted.  In
    asynchronous mode each failed try is followed by the 100ms delay,
    the batch is then dropped with a warning, and the flush pass ends
    there without submitting any record of the batch, resolved or not.
    In synchronous-flush mode the last try rethrows the rejection
    instead, so the pass fails after [numTries - 1] delays.  A batch
    whose records all resolve is resolved at the first try. *)
Theorem unwrap_retries (wrapped : list LazyRecord) (e : JsError)
  (w : World) :
  get_all wrapped = Throw e ->
  let b := bgLogger w in
  let n := Z.to_nat (numTries b) in
  let r := fst (unwrapLazyValues wrapped w) in
  let w' := snd (unwrapLazyValues wrapped w) in
  numTries (BackgroundLogger_new (apiConn b) no_env) = 3%Z /\
  bgLogger w' = b /\
  (forall wrapped' resolved,
     get_all wrapped' = Ok resolved -> (0 < numTries b)%Z ->
     unwrapLazyValues wrapped' w = (Ok (mergeRowBatch resolved), w)) /\
  exists effs,
    trace w' = (trace w ++ effs)%list /\
    count is_try_warning effs = n /\
    count is_post effs = 0 /\
    (syncFlush b = false ->
     r = Ok [] /\ count is_sleep effs = n /\
     In (WarnGaveUp
           "Failed to construct log records to flush. Dropping batch"
           (numTries b)) effs /\
     forall fuel,
       flushOnce_resume (S fuel) [] wrapped w = Some (Ok tt, w')) /\
    (syncFlush b = true -> (0 < numTries b)%Z ->
     r = Throw e /\ S (count is_sleep effs) = n /\
     forall fuel,
       flushOnce_resume (S fuel) [] wrapped w = Some (Throw e, w')).
Proof.
  intros Hrej b n r w'.
  split; [reflexivity|].
  destruct (unwrapLazyValues_loop_rejected wrapped e Hrej
              (Z.to_nat (numTries (bgLogger w))) 0 w)
    as [r0 [effs [w1 [Hrun [Hbg [Htr [Hpost [Htry [Hasync Hsync]]]]]]]]].
  { f_equal. lia. }
  assert (Hun : unwrapLazyValues wrapped w = (r0, w1)).
  { unfold unwrapLazyValues. run. exact Hrun. }
  subst r w'. rewrite Hun. cbn [fst snd].
  split; [exact Hbg|]. split.
  { intros wrapped' resolved. apply unwrapLazyValues_resolved. }
  exists effs. split; [exact Htr|]. split; [exact Htry|].
  split; [exact Hpost|]. fold b in Hasync, Hsync. split.
  - intros Hs. destruct (Hasync Hs) as [-> [Hsl Hin]].
    split; [reflexivity|]. split; [exact Hsl|]. split; [exact Hin|].
    intros fuel. now apply flushOnce_resume_dropped.
  - intros Hs Hpos. assert (Hne : Z.to_nat (numTries b) <> 0) by lia.
    destruct (Hsync Hs Hne) as [-> Hsl].
    split; [reflexivity|]. split; [exact Hsl|].
    intros fuel. now apply flushOnce_resume_failed.
Qed.

(** ** Spans *)

(** The contract of [mergeDicts] that the comment in
    [splitLoggingData] relies on: merging into an empty dictionary
    copies the other one, merging an empty dictionary changes nothing,
    and the merge has no key that neither dictionary has. *)
Hypothesis mergeDicts_into_empty : forall o, mergeDicts [] o = o.
Hypothesis mergeDicts_from_empty : forall o, mergeDicts o [] = o.
Hypothesis mergeDicts_keys : forall a b k,
  obj_has k (mergeDicts a b) = true ->
  obj_has k a = true \/ obj_has k b = true.

(** A double that is a truthy JSON number. *)
Definition finite_nonzero (x : float) : Prop :=
  is_nan x = false /\ is_infinity x = false /\ is_zero x = false.

(** [args?.endTime ?? getCurrentUnixTimestamp()] *)
Definition end_time (endTime : option JsValue) (w : World) : JsValue :=
  match nullish_or endTime with
  | Some v => v
  | None => JNum (time_at (clockCount w))
  end.

(** With no maximum queue size a logged batch is queued whole, without
    a warning and without a reading of the clock. *)
Lemma BackgroundLogger_log_unbounded (newItems : list LazyRecord)
  (w : World) :
  queueDropExceedingMaxsize (bgLogger w) = None ->
  exists w',
    BackgroundLogger_log newItems w = (Ok tt, w') /\
    pending (bgLogger w') = (pending (bgLogger w) ++ newItems)%list /\
    same_config (bgLogger w) (bgLogger w') /\
    uuidCount w' = uuidCount w /\ executionCounter w' = executionCounter w /\
    clockCount w' = clockCount w /\ trace w' = trace w.
Proof.
  intros Hmax.
  destruct (BackgroundLogger_log_spec newItems w)
    as [w' [Hrun [Hpend [_ [_ [_ [Hcfg [Hu [He Hquiet]]]]]]]]].
  rewrite Hmax in Hpend, Hquiet. cbn [numElementsToAdd] in Hpend, Hquiet.
  rewrite firstn_all in Hpend. rewrite skipn_all in Hquiet.
  destruct (Hquiet eq_refl) as [Hc Ht].
  exists w'. split; [exact Hrun|]. split; [exact Hpend|].
  split; [exact Hcfg|]. repeat split; assumption.
Qed.

Lemma obj_set_NoDup k v o :
  NoDup (map fst o) -> NoDup (map fst (obj_set k v o)).
Proof using.
  intros Hnd. destruct (obj_has k o) eqn:Hhas.
  - now rewrite obj_set_keys.
  - assert (Hkeys : map fst (obj_set k v o) = (map fst o ++ [k])%list).
    { unfold obj_has in Hhas. clear Hnd.
      induction o as [|[k' v'] o IH]; simpl in *; [reflexivity|].
      destruct (String.eqb_spec k k'); [discriminate|].
      simpl. now rewrite IH. }
    rewrite Hkeys. apply NoDup_app; [exact Hnd | solve_keys |].
    intros x Hin Hx. destruct Hx as [Hx|[]]. subst x.
    unfold obj_has in Hhas.
    destruct (obj_get k o) eqn:Hg; [discriminate|].
    now apply obj_get_None_notin in Hg.
Qed.

Lemma obj_spread_NoDup into from :
  NoDup (map fst into) -> NoDup (map fst (obj_spread into from)).
Proof using.
  unfold obj_spread. revert into.
  induction from as [|[k v] from IH]; simpl; intros into Hnd; [exact Hnd|].
  apply IH. now apply obj_set_NoDup.
Qed.

Lemma obj_get_json_props k o :
  NoDup (map fst o) ->
  obj_get k (json_props o)
  = match obj_get k o with Some v => json_roundtrip v | None => None end.
Proof.
  induction o as [|[k' v'] o IH]; simpl; intros Hnd; [reflexivity|].
  inversion Hnd as [|? ? Hnotin Hnd']; subst.
  destruct (String.eqb_spec k k') as [->|Hne].
  - destruct (json_roundtrip v') as [v''|] eqn:Hrt; simpl.
    + now rewrite String.eqb_refl.
    + rewrite IH by exact Hnd'.
      destruct (obj_get k' o) as [v2|] eqn:Hg; [|reflexivity].
      exfalso. apply Hnotin. apply obj_get_In in Hg.
      change k' with (fst (k', v2)). now apply in_map.
  - destruct (json_roundtrip v'); simpl.
    + destruct (String.eqb_spec k k'); [contradiction | now apply IH].
    + now apply IH.
Qed.

Lemma json_roundtrip_object o :
  json_roundtrip (JObj o) = Some (JObj (json_props o)).
Proof.
  simpl. do 2 f_equal.
Qed.

Lemma json_roundtrip_strings l :
  json_roundtrip (str_array l) = Some (str_array l).
Proof.
  unfold str_array. simpl. do 2 f_equal.
  rewrite map_map. reflexivity.
Qed.

Lemma json_roundtrip_number x :
  finite_nonzero x -> json_roundtrip (JNum x) = Some (JNum x).
Proof. intros [H1 [H2 H3]]. simpl. now rewrite H1, H2, H3. Qed.

(** A key of the partial record that is not the merge flag: the
    data wins over the identity of the span, and the value goes
    through JSON. *)
Lemma buildPartialRecord_get (this : SpanImpl) (data : JsObject) k :
  k <> IS_MERGE_FIELD ->
  obj_get k (buildPartialRecord this data)
  = match obj_get k
            (obj_spread
               [("id", _id this);
                ("span_id", JStr (spanId this));
                ("root_span_id", JStr (rootSpanId this));
                ("span_parents",
                  match spanParents this with
                  | Some l => str_array l
                  | None => JUndefined
                  end)] data) with
    | Some v => json_roundtrip v
    | None => None
    end.
Proof.
  intros Hk. unfold buildPartialRecord.
  rewrite obj_get_json_props.
  - now rewrite obj_get_set_neq.
  - apply obj_set_NoDup, obj_spread_NoDup. solve_keys.
Qed.

(** The record of a call that logs no data has no metrics and no
    tags. *)
Lemma buildPartialRecord_empty (this : SpanImpl) :
  prop "metrics" (buildPartialRecord this []) = JUndefined /\
  prop "tags" (buildPartialRecord this []) = JUndefined.
Proof.
  unfold prop.
  rewrite !buildPartialRecord_get by discriminate.
  split; reflexivity.
Qed.

(** The record of the call that logs the end time. *)
Lemma buildPartialRecord_end (this : SpanImpl) (x : float) :
  finite_nonzero x ->
  prop "metrics"
    (buildPartialRecord this [("metrics", JObj [("end", JNum x)])])
  = JObj [("end", JNum x)] /\
  prop "tags"
    (buildPartialRecord this [("metrics", JObj [("end", JNum x)])])
  = JUndefined.
Proof.
  intros Hx. unfold prop.
  rewrite !buildPartialRecord_get by discriminate.
  cbn [obj_spread fold_left fst snd obj_set obj_get String.eqb Ascii.eqb
       Bool.eqb].
  rewrite json_roundtrip_object. cbn [json_props].
  rewrite (json_roundtrip_number x Hx). split; reflexivity.
Qed.

(** [logInternal] with no event, on a span and a world with no maximum
    queue size, for data whose record has no tags: one record is
    queued, and the logged end time is updated when the record has a
    truthy [metrics.end]. *)
Lemma logInternal_internal (data : JsObject) (sp : SpanImpl) (w : World) :
  queueDropExceedingMaxsize (bgLogger w) = None ->
  prop "tags" (buildPartialRecord sp data) = JUndefined ->
  let rec := {| partialRecord := buildPartialRecord sp data;
                recordObjectType := parentObjectType sp;
                recordObjectId := parentObjectId sp |} in
  let logged := member "end" (prop "metrics" (buildPartialRecord sp data)) in
  exists w',
    logInternal None (Some data) (sp, w)
    = (Ok tt, (if truthy logged then set_loggedEndTime (Some logged) sp
               else sp, w')) /\
    pending (bgLogger w') = (pending (bgLogger w) ++ [rec])%list /\
    same_config (bgLogger w) (bgLogger w') /\
    clockCount w' = clockCount w /\ trace w' = trace w.
Proof.
  intros Hmax Htags rec logged.
  destruct (BackgroundLogger_log_unbounded [rec] w Hmax)
    as [w' [Hrun [Hpend [Hcfg [_ [_ [Hc Ht]]]]]]].
  exists w'. split; [|repeat split; assumption].
  unfold logInternal, splitLoggingData. cbn [or_default].
  change (validateAndSanitizeExperimentLogPartialArgs [])
    with (Ok (@nil (string * JsValue))).
  cbn [rbind]. rewrite mergeDicts_into_empty, mergeDicts_from_empty.
  run. cbv beta iota zeta. cbn [fst snd]. fold logged.
  destruct (truthy logged); cbn [fst snd];
    rewrite Htags; cbn [nonempty_length andb];
    cbn [spanParents parentObjectType parentObjectId set_loggedEndTime].
  all: cbn [fst snd]; fold rec; now rewrite Hrun.
Qed.

(** [end] on a span whose end time has been logged: the logged time
    is returned, the span is left as it is, no timestamp is taken, and
    one more record, with no metrics, is queued. *)
Lemma end_when_logged (sp : SpanImpl) (w : World) (t : JsValue)
  (endTime : option JsValue) :
  queueDropExceedingMaxsize (bgLogger w) = None ->
  loggedEndTime sp = Some t -> truthy t = true ->
  exists rec w',
    SpanImpl_end endTime (sp, w) = (Ok t, (sp, w')) /\
    pending (bgLogger w') = (pending (bgLogger w) ++ [rec])%list /\
    prop "metrics" (partialRecord rec) = JUndefined /\
    same_config (bgLogger w) (bgLogger w') /\
    clockCount w' = clockCount w.
Proof.
  intros Hmax Hlogged Ht.
  destruct (buildPartialRecord_empty sp) as [Hmetrics Htags].
  destruct (logInternal_internal [] sp w Hmax Htags)
    as [w' [Hrun [Hpend [Hcfg [Hc _]]]]].
  rewrite Hmetrics in Hrun. cbn [member truthy] in Hrun.
  eexists. exists w'.
  split; [|split; [exact Hpend|]; split; [exact Hmetrics|];
           split; [exact Hcfg | exact Hc]].
  unfold SpanImpl_end, end_not_logged. run. cbn [fst snd].
  rewrite Hlogged, Ht. cbn [negb or_default fst snd].
  unfold JsObject in *. rewrite Hrun. reflexivity.
Qed.

(** The first [end] on a span whose end time has not been logged, when
    the end time is a truthy JSON number: the time is returned and
    remembered, and one record carrying it as [metrics.end] is
    queued. *)
Lemma end_first (sp : SpanImpl) (w : World) (endTime : option JsValue)
  (x : float) :
  queueDropExceedingMaxsize (bgLogger w) = None ->
  end_not_logged sp = true ->
  end_time endTime w = JNum x -> finite_nonzero x ->
  exists rec w',
    SpanImpl_end endTime (sp, w)
    = (Ok (JNum x), (set_loggedEndTime (Some (JNum x)) sp, w')) /\
    pending (bgLogger w') = (pending (bgLogger w) ++ [rec])%list /\
    member "end" (prop "metrics" (partialRecord rec)) = JNum x /\
    same_config (bgLogger w) (bgLogger w').
Proof.
  intros Hmax Hnot Htime Hx.
  destruct (buildPartialRecord_end sp x Hx) as [Hmetrics Htags].
  assert (Htruthy : truthy (JNum x) = true).
  { destruct Hx as [H1 [_ H3]]. cbn [truthy]. now rewrite H1, H3. }
  unfold SpanImpl_end. unfold bind at 1, gets at 1. cbn [fst].
  rewrite Hnot. unfold end_time in Htime.
  assert (Hdraw : exists w0,
    (match nullish_or endTime with
     | Some v => ret v
     | None => now <- world getCurrentUnixTimestamp;; ret (JNum now)
     end) (sp, w) = (Ok (JNum x), (sp, w0)) /\
    bgLogger w0 = bgLogger w).
  { destruct (nullish_or endTime) as [v|].
    - subst v. exists w. now split.
    - injection Htime as <-. unfold getCurrentUnixTimestamp. run.
      cbn [fst snd]. eexists. split; reflexivity. }
  destruct Hdraw as [w0 [Hdraw Hbg0]].
  assert (Hmax0 : queueDropExceedingMaxsize (bgLogger w0) = None)
    by now rewrite Hbg0.
  destruct (logInternal_internal [("metrics", JObj [("end", JNum x)])]
              sp w0 Hmax0 Htags)
    as [w' [Hrun [Hpend [Hcfg _]]]].
  rewrite Hmetrics in Hrun. cbn [member prop obj_get String.eqb Ascii.eqb
    Bool.eqb] in Hrun. rewrite Htruthy in Hrun.
  eexists. exists w'.
  split; [|split; [|split]].
  - unfold bind at 1. unfold bind at 1. rewrite Hdraw.
    unfold ret at 1. unfold bind at 1. cbn [snd fst].
    unfold JsObject in *. rewrite Hrun. reflexivity.
  - rewrite Hpend. unfold pending. now rewrite Hbg0.
  - cbn [partialRecord]. rewrite Hmetrics. reflexivity.
  - unfold same_config in *. now rewrite Hcfg, Hbg0.
Qed.

(** C3, amended.  On a span whose end time has not been logged, in a
    logger with no maximum queue size, with an end time that is a
    truthy JSON number: the first [end] returns the time, remembers it
    and queues one record whose [metrics.end] is that time; a second
    [end] returns the same time, leaves the span as it is and takes no
    timestamp, but it is not a no-op: it queues one more record, which
    carries no metrics.  So exactly one of the two records has
    [metrics.end]. *)
Theorem end_twice (sp : SpanImpl) (w : World)
  (endTime endTime2 : option JsValue) (x : float) :
  queueDropExceedingMaxsize (bgLogger w) = None ->
  end_not_logged sp = true ->
  end_time endTime w = JNum x -> finite_nonzero x ->
  exists sp1 w1 rec1 w2 rec2,
    SpanImpl_end endTime (sp, w) = (Ok (JNum x), (sp1, w1)) /\
    pending (bgLogger w1) = (pending (bgLogger w) ++ [rec1])%list /\
    member "end" (prop "metrics" (partialRecord rec1)) = JNum x /\
    loggedEndTime sp1 = Some (JNum x) /\
    SpanImpl_end endTime2 (sp1, w1) = (Ok (JNum x), (sp1, w2)) /\
    pending (bgLogger w2) = (pending (bgLogger w1) ++ [rec2])%list /\
    prop "metrics" (partialRecord rec2) = JUndefined /\
    clockCount w2 = clockCount w1.
Proof.
  intros Hmax Hnot Htime Hx.
  destruct (end_first sp w endTime x Hmax Hnot Htime Hx)
    as [rec1 [w1 [Hrun1 [Hpend1 [Hend1 Hcfg1]]]]].
  assert (Hmax1 : queueDropExceedingMaxsize (bgLogger w1) = None).
  { unfold same_config, config in Hcfg1. congruence. }
  assert (Htruthy : truthy (JNum x) = true).
  { destruct Hx as [H1 [_ H3]]. cbn [truthy]. now rewrite H1, H3. }
  destruct (end_when_logged (set_loggedEndTime (Some (JNum x)) sp) w1
              (JNum x) endTime2 Hmax1 eq_refl Htruthy)
    as [rec2 [w2 [Hrun2 [Hpend2 [Hend2 [_ Hclock]]]]]].
  exists (set_loggedEndTime (Some (JNum x)) sp), w1, rec1, w2, rec2.
  repeat split; assumption.
Qed.

(** *** Span identity *)

(** UUIDs never repeat. *)
Hypothesis uuid_at_inj : forall i j, uuid_at i = uuid_at j -> i = j.

(** An id that [uuidv4] has already returned. *)
Definition issued (w : World) (id : string) : Prop :=
  exists j, j < uuidCount w /\ id = uuid_at j.

(** [logInternal] writes no field of the span but the logged end
    time. *)
Definition same_identity (sp sp' : SpanImpl) : Prop :=
  (_id sp', spanId sp', rootSpanId sp', spanParents sp', isMerge sp',
   parentObjectType sp', parentObjectId sp',
   parentComputeObjectMetadataArgs sp')
  = (_id sp, spanId sp, rootSpanId sp, spanParents sp, isMerge sp,
     parentObjectType sp, parentObjectId sp,
     parentComputeObjectMetadataArgs sp).

(** What a call of [logInternal] that returns has done: the event was
    accepted, the record built from it was handed to the background
    logger, and the span kept its identity. *)
Lemma logInternal_Ok (event internalData : option JsObject)
  (sp sp' : SpanImpl) (w w' : World) :
  logInternal event internalData (sp, w) = (Ok tt, (sp', w')) ->
  exists data,
    splitLoggingData event internalData = Ok data /\
    same_identity sp sp' /\
    BackgroundLogger_log
      [{| partialRecord := buildPartialRecord sp data;
          recordObjectType := parentObjectType sp;
          recordObjectId := parentObjectId sp |}] w = (Ok tt, w').
Proof.
  unfold logInternal. unfold bind at 1, lift at 1.
  destruct (splitLoggingData event internalData) as [data|e]; [|discriminate].
  intros H. exists data. split; [reflexivity|].
  revert H. run. cbv beta iota zeta. cbn [fst snd].
  destruct (truthy _); cbn [fst snd];
    destruct (nonempty_length _ && has_parents _); try discriminate;
    cbn [fst snd spanParents parentObjectType parentObjectId
         set_loggedEndTime];
    destruct (BackgroundLogger_log _ w) as [[[]|e] w1]; try discriminate;
    intros [= <- <-]; split; reflexivity.
Qed.
(** The keys of the identity of a span in its records. *)
Definition identity_keys : list string :=
  ["span_id"; "root_span_id"; "span_parents"].

(** What a constructor call that returns has done: it has drawn a
    fresh UUID for the span id, taken the root id and the parents from
    the parent span ids when there are some, and handed the creation
    record to the background logger. *)
Lemma SpanImpl_new_Ok (args : SpanImplArgs) (w w' : World) (sp : SpanImpl) :
  SpanImpl_new args w = (Ok sp, w') ->
  exists k w0 this internal data,
    uuidCount w <= k /\ uuidCount w0 = S k /\ bgLogger w0 = bgLogger w /\
    spanId sp = uuid_at k /\
    rootSpanId sp
    = match new_parentSpanIds args with
      | Some p => parent_rootSpanId p
      | None => uuid_at k
      end /\
    spanParents sp
    = match new_parentSpanIds args with
      | Some p => Some [parent_spanId p]
      | None => None
      end /\
    isMerge sp = true /\
    same_identity this (set_isMerge false sp) /\
    (forall key, In key identity_keys -> obj_has key internal = false) /\
    splitLoggingData
      (Some (obj_omit "id" (or_default (arg_event (new_args args)) [])))
      (Some internal) = Ok data /\
    BackgroundLogger_log
      [{| partialRecord := buildPartialRecord this data;
          recordObjectType := parentObjectType this;
          recordObjectId := parentObjectId this |}] w0 = (Ok tt, w').
Proof.
  unfold SpanImpl_new.
  unfold bind at 1.
  set (drawStart := match nullish_or (arg_startTime (new_args args)) with
                    | Some t => ret t
                    | None => t <- getCurrentUnixTimestamp;; ret (JNum t)
                    end).
  assert (Hstart : exists start w1, drawStart w = (Ok start, w1) /\
            bgLogger w1 = bgLogger w /\ uuidCount w1 = uuidCount w).
  { subst drawStart. destruct (nullish_or _).
    - eexists. exists w. now split.
    - unfold getCurrentUnixTimestamp. run. eexists. eexists.
      split; [reflexivity|]. now split. }
  destruct Hstart as [start [w1 [Hstart [Hbg1 Hu1]]]]. rewrite Hstart.
  unfold bind at 1, next_exec_counter at 1.
  unfold bind at 1, getCurrentUnixTimestamp at 1.
  unfold bind at 1.
  cbn [bgLogger trace dumps uuidCount clockCount executionCounter].
  set (w2 := {| bgLogger := bgLogger w1; trace := trace w1;
                dumps := dumps w1; uuidCount := uuidCount w1;
                clockCount := S (clockCount w1);
                executionCounter := S (executionCounter w1) |}).
  set (event := or_default (arg_event (new_args args)) []).
  assert (Hid : exists id w3,
    (if nullish (prop "id" event)
     then u <- uuidv4;; ret (JStr u)
     else ret (prop "id" event)) w2 = (Ok id, w3) /\
    bgLogger w3 = bgLogger w /\ uuidCount w <= uuidCount w3).
  { destruct (nullish (prop "id" event)).
    - unfold uuidv4. run. eexists. eexists. split; [reflexivity|].
      cbn [bgLogger uuidCount w2]. split; [exact Hbg1 | lia].
    - eexists. exists w2. split; [reflexivity|].
      cbn [bgLogger uuidCount w2]. split; [exact Hbg1 | lia]. }
  destruct Hid as [id [w3 [Hid [Hbg3 Hu3]]]]. rewrite Hid.
  unfold bind at 1, uuidv4 at 1.
  set (w4 := {| bgLogger := bgLogger w3; trace := trace w3;
                dumps := dumps w3; uuidCount := S (uuidCount w3);
                clockCount := clockCount w3;
                executionCounter := executionCounter w3 |}).
  set (internal := [("metrics", JObj [("start", start)]); _; _; _]).
  set (this := {| isMerge := false; loggedEndTime := None;
                  parentObjectType := new_parentObjectType args;
                  parentObjectId := new_parentObjectId args;
                  parentComputeObjectMetadataArgs :=
                    new_parentComputeObjectMetadataArgs args;
                  _id := id; spanId := uuid_at (uuidCount w3);
                  rootSpanId := _; spanParents := _ |}).
  unfold bind at 1, call at 1.
  destruct (logInternal (Some (obj_omit "id" event)) (Some internal)
              (this, w4)) as [[[]|e] [this' w5]] eqn:Hlog; [|discriminate].
  unfold ret. intros [= <- <-].
  destruct (logInternal_Ok _ _ _ _ _ _ Hlog) as [data [Hsplit [Hsame Hbg]]].
  exists (uuidCount w3), w4, this, internal, data.
  split; [exact Hu3|]. split; [reflexivity|]. split; [exact Hbg3|].
  unfold same_identity in *. cbn [snd set_isMerge _id spanId rootSpanId
    spanParents isMerge parentObjectType parentObjectId
    parentComputeObjectMetadataArgs] in *.
  injection Hsame as H1 H2 H3 H4 H5 H6 H7 H8.
  split; [exact H2|]. split; [exact H3|]. split; [exact H4|].
  split; [reflexivity|].
  split; [subst this; cbn; congruence|].
  split.
  { intros key Hin. subst internal. cbn in Hin.
    destruct Hin as [<-|[<-|[<-|[]]]]; reflexivity. }
  split; [exact Hsplit | exact Hbg].
Qed.

(** The sanitizer adds no key but [input]. *)
Lemma obj_get_spread_has k into from :
  obj_has k (obj_spread into from) = true ->
  obj_has k into = true \/ obj_has k from = true.
Proof.
  unfold obj_spread. revert into.
  induction from as [|[k' v'] from IH]; simpl; intros into H; [now left|].
  destruct (IH _ H) as [Hin|Hin].
  - unfold obj_has in *. simpl.
    destruct (String.eqb_spec k k') as [->|Hne]; [now right|].
    rewrite obj_get_set_neq in Hin by exact Hne. now left.
  - unfold obj_has in *. simpl.
    destruct (String.eqb_spec k k'); now right.
Qed.

Lemma obj_has_omit k k' o :
  obj_has k (obj_omit k' o) = true -> obj_has k o = true.
Proof.
  unfold obj_has. destruct (String.eqb_spec k k') as [->|Hne].
  - now rewrite obj_get_omit_eq.
  - now rewrite obj_get_omit_neq.
Qed.

Lemma check_scores_keys event event1 k :
  check_scores event = Ok event1 ->
  obj_has k event1 = true -> obj_has k event = true.
Proof.
  unfold check_scores.
  destruct (truthy (prop "scores" event)) eqn:Htruthy; [|now intros [= <-]].
  destruct (isArray _); [discriminate|].
  destruct (scores_loop _ _) as [s'|e]; simpl; [|discriminate].
  intros [= <-]. unfold obj_has.
  destruct (String.eqb_spec k "scores") as [->|Hne].
  - intros _. now rewrite (prop_truthy_get _ _ Htruthy).
  - now rewrite obj_get_set_neq.
Qed.

Lemma sanitize_keys event out k :
  validateAndSanitizeExperimentLogPartialArgs event = Ok out ->
  obj_has k out = true -> obj_has k event = true \/ k = "input".
Proof.
  intros Hs Hk.
  destruct (sanitize_Ok_inv _ _ Hs) as [event1 [Hsc [_ [_ [_ ->]]]]].
  unfold rename_inputs in Hk.
  destruct (obj_has "inputs" event1).
  - apply obj_get_spread_has in Hk. destruct Hk as [Hk|Hk].
    + right. unfold obj_has in Hk. simpl in Hk.
      destruct (String.eqb_spec k "input"); [assumption | discriminate].
    + left. apply obj_has_omit in Hk. now apply (check_scores_keys _ _ _ Hsc).
  - left. now apply (check_scores_keys _ _ _ Hsc).
Qed.

(** The data of a record has no identity key when neither the event
    nor the internal data has one. *)
Lemma splitLoggingData_keys (event internal : option JsObject)
  (data : JsObject) key :
  In key identity_keys ->
  obj_has key (or_default event []) = false ->
  obj_has key (or_default internal []) = false ->
  splitLoggingData event internal = Ok data ->
  obj_get key data = None.
Proof using mergeDicts_keys.
  intros Hin Hev Hint. unfold splitLoggingData.
  destruct (validateAndSanitizeExperimentLogPartialArgs (or_default event []))
    as [sanitized|e] eqn:Hs; simpl; [|discriminate].
  intros [= <-].
  destruct (obj_get key (mergeDicts (mergeDicts [] (or_default internal []))
                           sanitized)) as [v|] eqn:Hg; [|reflexivity].
  exfalso.
  assert (Hhas : obj_has key (mergeDicts (mergeDicts [] (or_default internal []))
                                sanitized) = true)
    by (unfold obj_has; now rewrite Hg).
  apply mergeDicts_keys in Hhas. destruct Hhas as [Hhas|Hhas].
  - apply mergeDicts_keys in Hhas. destruct Hhas as [Hhas|Hhas];
      [discriminate | congruence].
  - destruct (sanitize_keys _ _ _ Hs Hhas) as [Hk | ->]; [congruence|].
    cbn in Hin. repeat (destruct Hin as [Hin|Hin]; [discriminate Hin|]).
    destruct Hin.
Qed.

(** The identity a record carries when its data has no identity key. *)
Lemma buildPartialRecord_identity (this : SpanImpl) (data : JsObject) :
  (forall key, In key identity_keys -> obj_get key data = None) ->
  prop "span_id" (buildPartialRecord this data) = JStr (spanId this) /\
  prop "root_span_id" (buildPartialRecord this data)
  = JStr (rootSpanId this) /\
  prop "span_parents" (buildPartialRecord this data)
  = match spanParents this with
    | Some l => str_array l
    | None => JUndefined
    end.
Proof.
  intros Hdata. unfold prop.
  rewrite !buildPartialRecord_get by discriminate.
  rewrite !obj_get_spread_absent by (apply Hdata; cbn; auto).
  cbn [obj_get String.eqb Ascii.eqb Bool.eqb].
  split; [reflexivity|]. split; [reflexivity|].
  destruct (spanParents this) as [l|]; [|reflexivity].
  now rewrite json_roundtrip_strings.
Qed.
(** C2.  Span identity.  For every span the constructor returns, when
    the parent's root span id (if there is a parent) is a UUID issued
    earlier: the root span id is the span id exactly when the span was
    created without parent span ids, and the span has no parents
    exactly then.  For a span [B] started under [A] by [A.startSpan]
    (no [parent] token in the arguments): [B] has the root span id of
    [A] and the parents [[A.spanId]]; and when the queue has no maximum
    size and the event does not itself carry identity keys, the record
    queued for [B] has [root_span_id] equal to [A]'s root span id and
    [span_parents] equal to the one-element list of [A]'s span id. *)
Theorem span_identity :
  (forall args w sp w',
     SpanImpl_new args w = (Ok sp, w') ->
     (forall p, new_parentSpanIds args = Some p ->
                issued w (parent_rootSpanId p)) ->
     (rootSpanId sp = spanId sp <-> new_parentSpanIds args = None) /\
     (spanParents sp = None <-> new_parentSpanIds args = None)) /\
  (forall A args w B A' w',
     has_parent args = false ->
     SpanImpl_startSpan args (A, w) = (Ok B, (A', w')) ->
     rootSpanId B = rootSpanId A /\
     spanParents B = Some [spanId A] /\
     (queueDropExceedingMaxsize (bgLogger w) = None ->
      (forall key, In key identity_keys ->
         obj_has key (or_default (arg_event args) []) = false) ->
      exists rec,
        pending (bgLogger w') = (pending (bgLogger w) ++ [rec])%list /\
        prop "root_span_id" (partialRecord rec) = JStr (rootSpanId A) /\
        prop "span_parents" (partialRecord rec) = str_array [spanId A])).
Proof.
  split.
  - intros args w sp w' Hnew Hissued.
    destruct (SpanImpl_new_Ok _ _ _ _ Hnew)
      as [k [w0 [this [internal [data
           [Hk [_ [_ [Hspan [Hroot [Hparents _]]]]]]]]]]].
    rewrite Hroot, Hparents, Hspan.
    destruct (new_parentSpanIds args) as [p|].
    + split; (split; [|discriminate]); [|discriminate].
      intros Heq. exfalso.
      destruct (Hissued p eq_refl) as [j [Hj Hp]].
      rewrite Hp in Heq. apply uuid_at_inj in Heq. lia.
    + split; split; reflexivity.
  - intros A args w B A' w' Hparent.
    unfold SpanImpl_startSpan. unfold bind at 1, gets at 1. cbn [fst].
    rewrite Hparent.
    assert (Hargs : startSpanParentArgs (arg_parent args)
              (parentObjectType A) (parentObjectId A)
              (parentComputeObjectMetadataArgs A)
              (Some {| parent_spanId := spanId A;
                       parent_rootSpanId := rootSpanId A |})
            = Ok (parentObjectType A, parentObjectId A,
                  parentComputeObjectMetadataArgs A,
                  Some {| parent_spanId := spanId A;
                          parent_rootSpanId := rootSpanId A |})).
    { unfold has_parent in Hparent. unfold startSpanParentArgs.
      destruct (arg_parent args) as [[|c s]|]; try reflexivity. discriminate. }
    unfold bind at 1, lift at 1. rewrite Hargs. unfold world.
    cbn [fst snd].
    destruct (SpanImpl_new _ w) as [[sp|e] w1] eqn:Hnew; [|discriminate].
    intros [= <- <- <-].
    destruct (SpanImpl_new_Ok _ _ _ _ Hnew)
      as [k [w0 [this [internal [data
           [Hk [Hu0 [Hbg0 [Hspan [Hroot [Hparents
             [_ [Hsame [Hint [Hsplit Hlog]]]]]]]]]]]]]]].
    cbn [new_parentSpanIds parent_rootSpanId parent_spanId new_args] in *.
    split; [exact Hroot|]. split; [exact Hparents|].
    intros Hmax Hevent.
    assert (Hmax0 : queueDropExceedingMaxsize (bgLogger w0) = None)
      by now rewrite Hbg0.
    destruct (BackgroundLogger_log_unbounded
                [{| partialRecord := buildPartialRecord this data;
                    recordObjectType := parentObjectType this;
                    recordObjectId := parentObjectId this |}] w0 Hmax0)
      as [w2 [Hrun [Hpend _]]].
    rewrite Hrun in Hlog. injection Hlog as <-.
    eexists. split.
    { rewrite Hpend. unfold pending. rewrite Hbg0. reflexivity. }
    cbn [partialRecord].
    assert (Hdata : forall key, In key identity_keys ->
              obj_get key data = None).
    { intros key Hin.
      apply (splitLoggingData_keys _ _ _ key Hin) in Hsplit;
        [exact Hsplit | | now apply Hint].
      cbn [or_default].
      destruct (obj_has key (obj_omit "id" (or_default (arg_event args) [])))
        eqn:Hhas; [|reflexivity].
      apply obj_has_omit in Hhas. rewrite Hevent in Hhas by exact Hin.
      discriminate. }
    destruct (buildPartialRecord_identity this data Hdata)
      as [_ [Hr Hp]].
    unfold same_identity in Hsame. cbn [set_isMerge _id spanId rootSpanId
      spanParents isMerge parentObjectType parentObjectId
      parentComputeObjectMetadataArgs] in Hsame.
    injection Hsame as H1 H2 H3 H4 H5 H6 H7 H8.
    rewrite Hr, Hp. rewrite <- H4, <- H3 in *. rewrite Hparents, Hroot.
    split; reflexivity.
Qed.

(** ** Toplevel [log] and spans *)

(** [logInternal] on a root span returns as soon as the event is
    accepted. *)
Lemma logInternal_root (event internalData : option JsObject)
  (data : JsObject) (sp : SpanImpl) (w : World) :
  spanParents sp = None ->
  splitLoggingData event internalData = Ok data ->
  exists sp' w',
    logInternal event internalData (sp, w) = (Ok tt, (sp', w')) /\
    same_identity sp sp'.
Proof.
  intros Hroot Hsplit. unfold logInternal.
  unfold bind at 1, lift at 1. rewrite Hsplit.
  run. cbv beta iota zeta. cbn [fst snd]. rewrite Hroot.
  cbn [has_parents]. rewrite andb_false_r.
  destruct (truthy _); cbn [fst snd].
  - destruct (BackgroundLogger_log_spec
                [{| partialRecord := buildPartialRecord sp data;
                    recordObjectType := parentObjectType sp;
                    recordObjectId := parentObjectId sp |}] w)
      as [w' [Hrun _]].
    rewrite Hrun. eexists. exists w'. split; reflexivity.
  - destruct (BackgroundLogger_log_spec
                [{| partialRecord := buildPartialRecord sp data;
                    recordObjectType := parentObjectType sp;
                    recordObjectId := parentObjectId sp |}] w)
      as [w' [Hrun _]].
    rewrite Hrun. exists sp, w'. split; reflexivity.
Qed.

Lemma splitLoggingData_Ok (event internalData : option JsObject)
  (sanitized : JsObject) :
  validateAndSanitizeExperimentLogPartialArgs (or_default event [])
  = Ok sanitized ->
  exists data, splitLoggingData event internalData = Ok data.
Proof.
  intros H. unfold splitLoggingData. rewrite H. simpl. eauto.
Qed.

(** The constructor returns a root span as soon as the event is
    accepted. *)
Lemma SpanImpl_new_root (args : SpanImplArgs) (w : World)
  (sanitized : JsObject) :
  new_parentSpanIds args = None ->
  validateAndSanitizeExperimentLogPartialArgs
    (obj_omit "id" (or_default (arg_event (new_args args)) []))
  = Ok sanitized ->
  exists sp w', SpanImpl_new args w = (Ok sp, w') /\ spanParents sp = None.
Proof.
  intros Hroot Hvalid. unfold SpanImpl_new.
  unfold bind at 1.
  destruct (nullish_or (arg_startTime (new_args args)));
    unfold getCurrentUnixTimestamp, next_exec_counter, uuidv4; run;
    cbv beta iota zeta;
    cbn [bgLogger trace dumps uuidCount clockCount executionCounter];
    destruct (nullish (prop "id" _)); cbv beta iota zeta;
    cbn [bgLogger trace dumps uuidCount clockCount executionCounter];
    rewrite Hroot;
    match goal with
    | |- context [logInternal ?ev ?int (?this, ?w0)] =>
        destruct (splitLoggingData_Ok ev int sanitized Hvalid) as [data Hsplit];
        destruct (logInternal_root ev int data this w0 eq_refl Hsplit)
          as [sp' [w' [Hrun Hsame]]];
        rewrite Hrun; cbv beta iota zeta; cbn [fst snd];
        exists (set_isMerge true sp'), w'; split; [reflexivity|];
        unfold same_identity in Hsame;
        cbn [set_isMerge spanParents] in *; congruence
    end.
Qed.

(** [end] on a root span always returns. *)
Lemma SpanImpl_end_root (sp : SpanImpl) (w : World)
  (endTime : option JsValue) :
  spanParents sp = None ->
  exists t sp' w', SpanImpl_end endTime (sp, w) = (Ok t, (sp', w')).
Proof.
  intros Hroot. unfold SpanImpl_end.
  unfold bind at 1, gets at 1. cbn [fst].
  assert (Hsplit : forall data, exists d,
            splitLoggingData None (Some data) = Ok d).
  { intros data. now apply (splitLoggingData_Ok None (Some data) []). }
  destruct (end_not_logged sp).
  - destruct (nullish_or endTime) as [v|];
      unfold getCurrentUnixTimestamp; run; cbv beta iota zeta;
      cbn [fst snd];
      match goal with
      | |- context [logInternal None (Some ?d) (?this, ?w0)] =>
          destruct (Hsplit d) as [data Hd];
          destruct (logInternal_root None (Some d) data this w0 Hroot Hd)
            as [sp' [w' [Hrun _]]];
          rewrite Hrun; eexists; eexists; eexists; reflexivity
      end.
  - run. cbv beta iota zeta. cbn [fst snd].
    destruct (Hsplit []) as [data Hd].
    destruct (logInternal_root None (Some []) data sp w Hroot Hd)
      as [sp' [w' [Hrun _]]].
    unfold JsObject in *. rewrite Hrun.
    eexists; eexists; eexists; reflexivity.
Qed.
(** The calls a program makes on a toplevel object. *)
Inductive ToplevelCall : Type :=
| CallLog (event : JsObject) (allowConcurrentWithSpans : bool)
| CallStartSpan (args : StartSpanArgs).

Definition Logger_call (c : ToplevelCall) (lw : Logger * World)
  : Logger * World :=
  match c with
  | CallLog event allow => snd (Logger_log event allow lw)
  | CallStartSpan args => snd (Logger_startSpan args lw)
  end.

Definition Experiment_call (c : ToplevelCall) (ew : Experiment * World)
  : Experiment * World :=
  match c with
  | CallLog event allow => snd (Experiment_log event allow ew)
  | CallStartSpan args => snd (Experiment_startSpan args ew)
  end.

Definition Logger_log_error : JsError :=
  Error "Cannot run toplevel `log` method while using spans. To log to the span, call `logger.traced` and then log with `span.log`".

Definition Experiment_log_error : JsError :=
  Error "Cannot run toplevel `log` method while using spans. To log to the span, call `experiment.traced` and then log with `span.log`".

(** No method of [Logger] writes a field of the logger in a way that
    clears [calledStartSpan]. *)
Lemma Logger_startSpanImpl_flag (args : StartSpanArgs) (lw : Logger * World) :
  fst (snd (Logger_startSpanImpl args lw)) = fst lw.
Proof.
  destruct lw as [lg w]. unfold Logger_startSpanImpl.
  unfold bind at 1, gets at 1. cbn [fst].
  unfold bind at 1, lift at 1.
  destruct (startSpanParentArgs _ _ _ _ _) as [[[[ty oid] cargs] ids]|e];
    [|reflexivity].
  unfold world. cbn [fst snd].
  now destruct (SpanImpl_new _ w) as [r w'].
Qed.

Lemma Logger_startSpan_flag (args : StartSpanArgs) (lw : Logger * World) :
  logger_calledStartSpan (fst (snd (Logger_startSpan args lw))) = true.
Proof.
  unfold Logger_startSpan. unfold bind at 1, modify at 1.
  now rewrite Logger_startSpanImpl_flag.
Qed.

Lemma Logger_log_flag (event : JsObject) (allow : bool)
  (lw : Logger * World) :
  logger_calledStartSpan (fst lw) = true ->
  logger_calledStartSpan (fst (snd (Logger_log event allow lw))) = true.
Proof.
  destruct lw as [lg w]. cbn [fst]. intros Hflag.
  unfold Logger_log. unfold bind at 1, gets at 1. cbn [fst].
  rewrite Hflag. destruct allow; cbn [negb andb]; [|exact Hflag].
  unfold bind at 1.
  pose proof (Logger_startSpanImpl_flag
                (with_event_and_startTime no_args
                   (logger_lastStartTime lg) event) (lg, w)) as Himpl.
  destruct (Logger_startSpanImpl _ (lg, w)) as [[span|e] [lg1 w1]];
    cbn [fst snd] in Himpl; subst lg1; [|exact Hflag].
  unfold bind at 1, world at 1, call at 1. cbn [fst snd].
  destruct (SpanImpl_end None (span, w1)) as [[t|e] [span' w2]];
    cbn [fst snd]; [|exact Hflag].
  unfold bind at 1, modify at 1. cbn [fst snd].
  destruct (logger_asyncFlush lg) as [[|]|];
    unfold triggerActiveFlush, drain; run; cbv beta iota zeta;
    cbn [fst snd logger_calledStartSpan];
    repeat match goal with
           | |- context [if ?b then _ else _] => destruct b
           end; cbn [fst snd logger_calledStartSpan]; exact Hflag.
Qed.

Lemma Logger_call_flag (c : ToplevelCall) (lw : Logger * World) :
  logger_calledStartSpan (fst lw) = true ->
  logger_calledStartSpan (fst (Logger_call c lw)) = true.
Proof.
  destruct c; simpl; intros H.
  - now apply Logger_log_flag.
  - apply Logger_startSpan_flag.
Qed.

Lemma Logger_calls_flag (calls : list ToplevelCall) (lw : Logger * World) :
  logger_calledStartSpan (fst lw) = true ->
  logger_calledStartSpan
    (fst (fold_left (fun s c => Logger_call c s) calls lw)) = true.
Proof.
  revert lw. induction calls as [|c calls IH]; simpl; intros lw H; [exact H|].
  apply IH. now apply Logger_call_flag.
Qed.
Lemma Experiment_startSpanImpl_flag (args : StartSpanArgs)
  (ew : Experiment * World) :
  fst (snd (Experiment_startSpanImpl args ew)) = fst ew.
Proof.
  destruct ew as [ex w]. unfold Experiment_startSpanImpl.
  unfold bind at 1, gets at 1. cbn [fst].
  unfold bind at 1, lift at 1.
  destruct (startSpanParentArgs _ _ _ _ _) as [[[[ty oid] cargs] ids]|e];
    [|reflexivity].
  unfold world. cbn [fst snd].
  now destruct (SpanImpl_new _ w) as [r w'].
Qed.

Lemma Experiment_startSpan_flag (args : StartSpanArgs)
  (ew : Experiment * World) :
  experiment_calledStartSpan (fst (snd (Experiment_startSpan args ew))) = true.
Proof.
  unfold Experiment_startSpan. unfold bind at 1, modify at 1.
  now rewrite Experiment_startSpanImpl_flag.
Qed.

Lemma Experiment_log_flag (event : JsObject) (allow : bool)
  (ew : Experiment * World) :
  experiment_calledStartSpan (fst ew) = true ->
  experiment_calledStartSpan (fst (snd (Experiment_log event allow ew)))
  = true.
Proof.
  destruct ew as [ex w]. cbn [fst]. intros Hflag.
  unfold Experiment_log. unfold bind at 1, gets at 1. cbn [fst].
  rewrite Hflag. destruct allow; cbn [negb andb]; [|exact Hflag].
  unfold bind at 1, lift at 1.
  destruct (validateAndSanitizeExperimentLogFullArgs _ _) as [event'|e];
    [|exact Hflag].
  unfold bind at 1.
  pose proof (Experiment_startSpanImpl_flag
                (with_event_and_startTime no_args
                   (experiment_lastStartTime ex) event') (ex, w)) as Himpl.
  destruct (Experiment_startSpanImpl _ (ex, w)) as [[span|e] [ex1 w1]];
    cbn [fst snd] in Himpl; subst ex1; [|exact Hflag].
  unfold bind at 1, world at 1, call at 1. cbn [fst snd].
  destruct (SpanImpl_end None (span, w1)) as [[t|e] [span' w2]];
    cbn [fst snd]; [|exact Hflag].
  run. cbn [fst snd experiment_calledStartSpan]. exact Hflag.
Qed.

Lemma Experiment_calls_flag (calls : list ToplevelCall)
  (ew : Experiment * World) :
  experiment_calledStartSpan (fst ew) = true ->
  experiment_calledStartSpan
    (fst (fold_left (fun s c => Experiment_call c s) calls ew)) = true.
Proof.
  revert ew. induction calls as [|c calls IH]; simpl; intros ew H; [exact H|].
  apply IH. destruct c; simpl.
  - now apply Experiment_log_flag.
  - apply Experiment_startSpan_flag.
Qed.

(** The guard of [Logger.log] and [Experiment.log]: with the flag set
    and no permission the call throws before it does anything. *)
Lemma Logger_log_guard (event : JsObject) (lw : Logger * World) :
  logger_calledStartSpan (fst lw) = true ->
  Logger_log event false lw = (Throw Logger_log_error, lw).
Proof.
  destruct lw as [lg w]. cbn [fst]. intros Hflag.
  unfold Logger_log. unfold bind at 1, gets at 1. cbn [fst].
  now rewrite Hflag.
Qed.

Lemma Experiment_log_guard (event : JsObject) (ew : Experiment * World) :
  experiment_calledStartSpan (fst ew) = true ->
  Experiment_log event false ew = (Throw Experiment_log_error, ew).
Proof.
  destruct ew as [ex w]. cbn [fst]. intros Hflag.
  unfold Experiment_log. unfold bind at 1, gets at 1. cbn [fst].
  now rewrite Hflag.
Qed.

(** With the flag clear, a toplevel [log] of an event the sanitizer
    accepts returns. *)
Lemma Logger_log_returns (event sanitized : JsObject) (allow : bool)
  (lg : Logger) (w : World) :
  logger_calledStartSpan lg = false ->
  validateAndSanitizeExperimentLogPartialArgs (obj_omit "id" event)
  = Ok sanitized ->
  exists id lw', Logger_log event allow (lg, w) = (Ok id, lw').
Proof.
  intros Hflag Hvalid.
  unfold Logger_log. unfold bind at 1, gets at 1. cbn [fst].
  rewrite Hflag. cbn [andb].
  unfold bind at 1. unfold Logger_startSpanImpl.
  unfold bind at 1, gets at 1. cbn [fst].
  unfold bind at 1, lift at 1.
  cbn [with_event_and_startTime no_args arg_parent startSpanParentArgs].
  unfold world at 1. cbn [fst snd].
  match goal with
  | |- context [SpanImpl_new ?a w] =>
      destruct (SpanImpl_new_root a w sanitized eq_refl Hvalid)
        as [sp [w1 [Hnew Hroot]]]
  end.
  rewrite Hnew.
  unfold bind at 1, world at 1, call at 1. cbn [fst snd].
  destruct (SpanImpl_end_root sp w1 None Hroot) as [t [sp' [w2 Hend]]].
  rewrite Hend. cbn [fst snd].
  unfold bind at 1, modify at 1. cbn [fst snd].
  destruct (logger_asyncFlush lg) as [[|]|];
    unfold triggerActiveFlush, drain; run; cbv beta iota zeta;
    cbn [fst snd];
    repeat match goal with
           | |- context [if ?b then _ else _] => destruct b
           end; cbn [fst snd]; eexists; eexists; reflexivity.
Qed.

Lemma Experiment_log_returns (event sanitized : JsObject) (allow : bool)
  (ex : Experiment) (w : World) :
  experiment_calledStartSpan ex = false ->
  validateAndSanitizeExperimentLogFullArgs event (experiment_hasDataset ex)
  = Ok event ->
  validateAndSanitizeExperimentLogPartialArgs (obj_omit "id" event)
  = Ok sanitized ->
  exists id ew', Experiment_log event allow (ex, w) = (Ok id, ew').
Proof.
  intros Hflag Hfull Hvalid.
  unfold Experiment_log. unfold bind at 1, gets at 1. cbn [fst].
  rewrite Hflag. cbn [andb].
  unfold bind at 1, lift at 1. rewrite Hfull.
  unfold bind at 1. unfold Experiment_startSpanImpl.
  unfold bind at 1, gets at 1. cbn [fst].
  unfold bind at 1, lift at 1.
  cbn [with_event_and_startTime no_args arg_parent startSpanParentArgs].
  unfold world at 1. cbn [fst snd].
  match goal with
  | |- context [SpanImpl_new ?a w] =>
      destruct (SpanImpl_new_root a w sanitized eq_refl Hvalid)
        as [sp [w1 [Hnew Hroot]]]
  end.
  rewrite Hnew.
  unfold bind at 1, world at 1, call at 1. cbn [fst snd].
  destruct (SpanImpl_end_root sp w1 None Hroot) as [t [sp' [w2 Hend]]].
  rewrite Hend. cbn [fst snd]. run. cbn [fst snd].
  eexists; eexists; reflexivity.
Qed.

(** C10.  The guard on the toplevel [log] of a [Logger] and of an
    [Experiment].  After a [startSpan] call, whatever further [log] and
    [startSpan] calls are made on the object, a [log] call without
    [allowConcurrentWithSpans] throws and leaves the object and the
    world (so the queue) as they were.  A new object has the flag
    clear, and with the flag clear a [log] of an event that the
    validation accepts returns. *)
Theorem toplevel_log_guard :
  (forall (args : StartSpanArgs) (calls : list ToplevelCall)
          (event : JsObject) (lw : Logger * World),
     let lw' := fold_left (fun s c => Logger_call c s) calls
                  (snd (Logger_startSpan args lw)) in
     Logger_log event false lw' = (Throw Logger_log_error, lw')) /\
  (forall (args : StartSpanArgs) (calls : list ToplevelCall)
          (event : JsObject) (ew : Experiment * World),
     let ew' := fold_left (fun s c => Experiment_call c s) calls
                  (snd (Experiment_startSpan args ew)) in
     Experiment_log event false ew' = (Throw Experiment_log_error, ew')) /\
  (forall lazyId asyncFlush cargs w lg w',
     Logger_new lazyId asyncFlush cargs w = (Ok lg, w') ->
     logger_calledStartSpan lg = false) /\
  (forall lazyId hasDataset w ex w',
     Experiment_new lazyId hasDataset w = (Ok ex, w') ->
     experiment_calledStartSpan ex = false) /\
  (forall event sanitized allow lg w,
     logger_calledStartSpan lg = false ->
     validateAndSanitizeExperimentLogPartialArgs (obj_omit "id" event)
     = Ok sanitized ->
     isOk (fst (Logger_log event allow (lg, w))) = true) /\
  (forall event sanitized allow ex w,
     experiment_calledStartSpan ex = false ->
     validateAndSanitizeExperimentLogFullArgs event (experiment_hasDataset ex)
     = Ok event ->
     validateAndSanitizeExperimentLogPartialArgs (obj_omit "id" event)
     = Ok sanitized ->
     isOk (fst (Experiment_log event allow (ex, w))) = true).
Proof.
  split; [|split; [|split; [|split; [|split]]]].
  - intros args calls event lw lw'. apply Logger_log_guard.
    apply Logger_calls_flag, Logger_startSpan_flag.
  - intros args calls event ew ew'. apply Experiment_log_guard.
    apply Experiment_calls_flag, Experiment_startSpan_flag.
  - intros lazyId asyncFlush cargs w lg w'.
    unfold Logger_new, getCurrentUnixTimestamp. run. now intros [= <- _].
  - intros lazyId hasDataset w ex w'.
    unfold Experiment_new, getCurrentUnixTimestamp. run. now intros [= <- _].
  - intros event sanitized allow lg w Hflag Hvalid.
    destruct (Logger_log_returns event sanitized allow lg w Hflag Hvalid)
      as [id [lw' ->]]. reflexivity.
  - intros event sanitized allow ex w Hflag Hfull Hvalid.
    destruct (Experiment_log_returns event sanitized allow ex w Hflag Hfull
                Hvalid) as [id [ew' ->]]. reflexivity.
Qed.

(** ** Flush passes *)

(** A computation that never writes the background logger. *)
Definition keeps_logger {A} (c : M World A) : Prop :=
  forall w, bgLogger (snd (c w)) = bgLogger w.

Lemma keeps_ret {A} (a : A) : keeps_logger (ret a).
Proof. intros w. reflexivity. Qed.

Lemma keeps_throw {A} (e : JsError) : keeps_logger (@throw World A e).
Proof. intros w. reflexivity. Qed.

Lemma keeps_lift {A} (r : Result A) : keeps_logger (lift r).
Proof. intros w. reflexivity. Qed.

Lemma keeps_bg {A} (f : BackgroundLogger -> A) : keeps_logger (bg f).
Proof. intros w. reflexivity. Qed.

Lemma keeps_emit (e : Effect) : keeps_logger (emit e).
Proof. intros w. reflexivity. Qed.

Lemma keeps_bind {A B} (c : M World A) (k : A -> M World B) :
  keeps_logger c -> (forall a, keeps_logger (k a)) ->
  keeps_logger (bind c k).
Proof.
  intros Hc Hk w. unfold bind. specialize (Hc w).
  destruct (c w) as [[a|e] w1]; cbn [snd] in *; [|exact Hc].
  rewrite Hk. exact Hc.
Qed.

Lemma keeps_catch {A} (c : M World A) (h : JsError -> M World A) :
  keeps_logger c -> (forall e, keeps_logger (h e)) ->
  keeps_logger (catch c h).
Proof.
  intros Hc Hh w. unfold catch. specialize (Hc w).
  destruct (c w) as [[a|e] w1]; cbn [snd] in *; [exact Hc|].
  rewrite Hh. exact Hc.
Qed.

Lemma keeps_if {A} (b : bool) (c c' : M World A) :
  keeps_logger c -> keeps_logger c' -> keeps_logger (if b then c else c').
Proof. now destruct b. Qed.

Create HintDb keeps.
#[local] Hint Resolve keeps_ret keeps_throw keeps_lift keeps_bg keeps_emit
  keeps_if : keeps.
#[local] Hint Extern 2 (keeps_logger (bind _ _)) =>
  apply keeps_bind; [|intros ?] : keeps.
#[local] Hint Extern 2 (keeps_logger (catch _ _)) =>
  apply keeps_catch; [|intros ?] : keeps.

Lemma keeps_writePayloadToDir (d p : string) :
  keeps_logger (writePayloadToDir d p).
Proof. unfold writePayloadToDir. auto with keeps. Qed.

Lemma keeps_logFailedPayloadsDir : keeps_logger logFailedPayloadsDir.
Proof. unfold logFailedPayloadsDir. auto with keeps. Qed.

#[local] Hint Resolve keeps_writePayloadToDir keeps_logFailedPayloadsDir
  : keeps.

Lemma keeps_unwrapLazyValues_loop (wrapped : list LazyRecord) :
  forall remaining i, keeps_logger (unwrapLazyValues_loop remaining i wrapped).
Proof.
  induction remaining as [|remaining IH]; intros i; cbn [unwrapLazyValues_loop].
  - auto with keeps.
  - destruct (get_all wrapped); auto 10 with keeps.
Qed.

Lemma keeps_unwrapLazyValues (wrapped : list LazyRecord) :
  keeps_logger (unwrapLazyValues wrapped).
Proof.
  unfold unwrapLazyValues. apply keeps_bind; [auto with keeps|].
  intros n. apply keeps_unwrapLazyValues_loop.
Qed.

Lemma keeps_submitAttempt conn items dataStr i :
  keeps_logger (submitAttempt conn items dataStr i).
Proof.
  unfold submitAttempt. apply keeps_bind; [auto with keeps|]. intros _.
  destruct (post_json conn "logs3" dataStr i); [auto with keeps|].
  destruct (legacyItems items); [|auto with keeps].
  apply keeps_bind; [auto with keeps|]. intros _.
  destruct (post_json conn "logs" _ i); auto with keeps.
Qed.

Lemma keeps_submitLogsRequest_loop conn items dataStr :
  forall remaining i,
    keeps_logger (submitLogsRequest_loop remaining i conn items dataStr).
Proof.
  induction remaining as [|remaining IH]; intros i;
    cbn [submitLogsRequest_loop].
  - auto with keeps.
  - apply keeps_bind; [apply keeps_submitAttempt|].
    intros [e|]; [|auto with keeps].
    repeat (apply keeps_bind; [auto 10 with keeps|]; intros ?).
    apply keeps_if; [auto with keeps|].
    repeat (apply keeps_bind; [auto 10 with keeps|]; intros ?).
    apply IH.
Qed.

Lemma keeps_submitLogsRequest (items : list string) :
  keeps_logger (submitLogsRequest items).
Proof.
  unfold submitLogsRequest.
  repeat (apply keeps_bind; [auto 10 with keeps|]; intros ?).
  apply keeps_submitLogsRequest_loop.
Qed.

Lemma keeps_submitBatchSet (batchSet : list (list string)) :
  keeps_logger (submitBatchSet batchSet).
Proof.
  induction batchSet as [|batch rest IH]; cbn [submitBatchSet];
    [auto with keeps|].
  apply keeps_bind.
  - apply keeps_catch; [|auto with keeps].
    apply keeps_bind; [apply keeps_submitLogsRequest | auto with keeps].
  - intros r. apply keeps_bind; [exact IH | auto with keeps].
Qed.

Lemma keeps_submitBatchSets (batchSets : list (list (list string))) :
  keeps_logger (submitBatchSets batchSets).
Proof.
  induction batchSets as [|batchSet rest IH]; cbn [submitBatchSets];
    [auto with keeps|].
  apply keeps_bind; [apply keeps_submitBatchSet|].
  intros [|e errs]; [exact IH | auto with keeps].
Qed.
(** A pass starts from the whole queue and leaves a fresh empty one. *)
Lemma drain_spec (w : World) :
  drain w = (Ok (items (bgLogger w)),
             set_bgLogger (set_items [] (bgLogger w)) w).
Proof. reflexivity. Qed.

(** X8.  One flush at a time.  While a pass is in flight a [log] call
    starts no second pass: it appends the part of the batch that fits
    to the queue, after what is queued already, and leaves the pass in
    flight and the list it drained as they are. *)
Lemma log_during_flush (newItems wrapped : list LazyRecord) (w : World) :
  activeFlush (bgLogger w) = Some wrapped ->
  let k := numElementsToAdd (queueDropExceedingMaxsize (bgLogger w))
             (items (bgLogger w)) newItems in
  let w' := snd (BackgroundLogger_log newItems w) in
  items (bgLogger w') = (items (bgLogger w) ++ firstn k newItems)%list /\
  activeFlush (bgLogger w') = Some wrapped.
Proof.
  intros Haf k w'.
  destruct (BackgroundLogger_log_spec newItems w)
    as [w1 [Hrun [_ [Hitems [Haf1 _]]]]].
  subst w'. rewrite Hrun. cbn [snd].
  unfold activeFlushResolved in *. rewrite Haf in *.
  rewrite andb_false_r in *. now split.
Qed.

(** The records a sequence of [log] calls leaves in the queue were in
    the queue before or belong to one of the batches logged. *)
Lemma arrive_items (batches : Arrivals) :
  forall (w : World) (r : LazyRecord),
    In r (items (bgLogger (snd (arrive batches w)))) ->
    In r (items (bgLogger w)) \/
    exists batch, In batch batches /\ In r batch.
Proof.
  induction batches as [|b rest IH]; intros w r; cbn [arrive].
  - intros H. now left.
  - destruct (BackgroundLogger_log_spec b w)
      as [w1 [Hrun [_ [Hitems _]]]].
    unfold bind at 1. rewrite Hrun. intros Hin.
    destruct (IH w1 r Hin) as [H|[batch [Hb Hr]]].
    + rewrite Hitems in H.
      destruct (negb (syncFlush (bgLogger w)) &&
                activeFlushResolved (bgLogger w)); [destruct H|].
      apply in_app_or in H. destruct H as [H|H]; [now left|].
      right. exists b. split; [now left|].
      rewrite <- (firstn_skipn
                    (numElementsToAdd
                       (queueDropExceedingMaxsize (bgLogger w))
                       (items (bgLogger w)) b) b).
      apply in_or_app. now left.
    + right. exists batch. split; [now right | exact Hr].
Qed.

(** X7.  What a flush leaves behind.  A pass starts on the queue it
    has just drained, so on an empty one.  When the flush ends without
    an error, whatever [log] calls arrive while it runs, either the
    queue is empty or every record in it was logged by a [log] call
    made during one and the same pass of this flush.  So with no [log]
    call during the flush the queue ends empty. *)
Lemma flushOnce_resume_done :
  forall (fuel : nat) (sched : list Arrivals) (wrapped : list LazyRecord)
         (w w' : World),
    items (bgLogger w) = [] ->
    flushOnce_resume fuel sched wrapped w = Some (Ok tt, w') ->
    items (bgLogger w') = [] \/
    exists arrivals,
      In arrivals sched /\
      forall r, In r (items (bgLogger w')) ->
        exists batch, In batch arrivals /\ In r batch.
Proof.
  induction fuel as [|fuel IH]; intros sched wrapped w w' Hq;
    [discriminate|].
  cbn [flushOnce_resume]. unfold bind at 1.
  pose proof (arrive_items (hd [] sched) w) as Harr.
  destruct (arrive (hd [] sched) w) as [[[]|e] wa]; [|discriminate].
  cbn [snd] in Harr.
  pose proof (keeps_unwrapLazyValues wrapped wa) as Hk1.
  destruct (unwrapLazyValues wrapped wa) as [[[|x l]|e] w1];
    cbn [snd] in Hk1; [| |discriminate].
  - intros [= <-]. rewrite Hk1.
    destruct sched as [|a sched'].
    + left. destruct (items (bgLogger wa)) as [|r q]; [reflexivity|].
      destruct (Harr r (or_introl eq_refl)) as [H|[batch [[] _]]].
      rewrite Hq in H. destruct H.
    + right. exists a. split; [now left|].
      intros r Hin. destruct (Harr r Hin) as [H|H]; [|exact H].
      rewrite Hq in H. destruct H.
  - match goal with
    | |- context [submitBatchSets ?b w1] =>
        pose proof (keeps_submitBatchSets b w1) as Hk2;
        destruct (submitBatchSets b w1) as [[[]|e] w2]
    end; [|discriminate].
    destruct (items (bgLogger w2)) as [|y q] eqn:Hq2.
    + intros [= <-]. now left.
    + rewrite drain_spec. intros Hrun.
      apply IH in Hrun; [|reflexivity].
      destruct Hrun as [H|[a [Ha H]]]; [now left|].
      right. exists a. split; [|exact H].
      destruct sched as [|a0 sched']; [destruct Ha | now right].
Qed.

Lemma keeps_items_arrive_nil (w : World) : arrive [] w = (Ok tt, w).
Proof. reflexivity. Qed.

(** A pass with no arrival on an empty queue is the last one. *)
Lemma flushOnce_resume_last (fuel : nat) (wrapped : list LazyRecord)
  (w : World) :
  items (bgLogger w) = [] ->
  exists res, flushOnce_resume (S fuel) [] wrapped w = Some res.
Proof.
  intros Hq. cbn [flushOnce_resume hd tl arrive].
  unfold bind at 1, ret at 1.
  pose proof (keeps_unwrapLazyValues wrapped w) as Hk1.
  destruct (unwrapLazyValues wrapped w) as [[[|x l]|e] w1];
    cbn [snd] in Hk1; eauto.
  match goal with
  | |- context [submitBatchSets ?b w1] =>
      pose proof (keeps_submitBatchSets b w1) as Hk2;
      destruct (submitBatchSets b w1) as [[[]|e] w2]
  end; cbn [snd] in Hk2; eauto.
  rewrite Hk2, Hk1, Hq. eauto.
Qed.

(** X6.  A flush ends once the [log] calls stop.  When [log] calls
    arrive during the first [n] passes only, the recursion of
    [flushOnce] stops after at most [n + 2] passes, whatever the
    records, the server and the configuration are: the flush returns or
    throws, it does not go on for ever. *)
Lemma flushOnce_resume_total :
  forall (sched : list Arrivals) (wrapped : list LazyRecord) (w : World),
    exists res,
      flushOnce_resume (S (S (List.length sched))) sched wrapped w = Some res.
Proof.
  induction sched as [|a sched IH]; intros wrapped w.
  - cbn [List.length]. cbn [flushOnce_resume hd tl].
    destruct ((arrive [];; unwrapLazyValues wrapped) w)
      as [[[|x l]|e] w1]; eauto.
    destruct (submitBatchSets _ w1) as [[[]|e] w2]; eauto.
    destruct (items (bgLogger w2)) as [|y q]; eauto.
    rewrite drain_spec.
    apply (flushOnce_resume_last 0). reflexivity.
  - cbn [List.length]. remember (S (S (List.length sched))) as fuel.
    cbn [flushOnce_resume hd tl].
    destruct ((arrive a;; unwrapLazyValues wrapped) w)
      as [[[|x l]|e] w1]; eauto.
    destruct (submitBatchSets _ w1) as [[[]|e] w2]; eauto.
    destruct (items (bgLogger w2)) as [|y q]; eauto.
    rewrite drain_spec. subst fuel. apply IH.
Qed.

(** In asynchronous mode a [log] call on an idle logger with no maximum
    queue size starts a pass at once: the queue, the new items included,
    is drained into the pass and an empty queue is left. *)
Lemma BackgroundLogger_log_starts (newItems : list LazyRecord) (w : World) :
  syncFlush (bgLogger w) = false ->
  activeFlush (bgLogger w) = None ->
  queueDropExceedingMaxsize (bgLogger w) = None ->
  exists w',
    BackgroundLogger_log newItems w = (Ok tt, w') /\
    items (bgLogger w') = [] /\
    activeFlush (bgLogger w') = Some (items (bgLogger w) ++ newItems)%list /\
    activeFlushError (bgLogger w') = None /\
    same_config (bgLogger w) (bgLogger w') /\
    trace w' = trace w.
Proof.
  intros Hsync Haf Hmax.
  unfold BackgroundLogger_log, triggerActiveFlush, drain, activeFlushResolved.
  run. cbn. rewrite Hmax, Hsync. cbn. rewrite Haf. cbn.
  eexists. split; [reflexivity|]. cbn.
  repeat (split; [reflexivity|]). reflexivity.
Qed.
(** While a pass is in flight, a [log] call with no maximum queue size
    appends the batch to the queue and does nothing else. *)
Lemma BackgroundLogger_log_in_flight (newItems wrapped : list LazyRecord)
  (w : World) :
  activeFlush (bgLogger w) = Some wrapped ->
  queueDropExceedingMaxsize (bgLogger w) = None ->
  BackgroundLogger_log newItems w
  = (Ok tt,
     set_bgLogger (set_items (items (bgLogger w) ++ newItems) (bgLogger w)) w).
Proof.
  intros Haf Hmax.
  unfold BackgroundLogger_log, triggerActiveFlush, drain, activeFlushResolved.
  run. cbn. rewrite Hmax. cbn.
  destruct (syncFlush (bgLogger w)); cbn; [reflexivity|].
  now rewrite Haf.
Qed.

(** In asynchronous mode, resolution of a batch one record of which
    rejects ends with no record, posts nothing and leaves the logger as
    it was. *)
Lemma unwrapLazyValues_dropped (wrapped : list LazyRecord) (e : JsError)
  (w : World) :
  get_all wrapped = Throw e ->
  syncFlush (bgLogger w) = false ->
  exists w',
    unwrapLazyValues wrapped w = (Ok [], w') /\
    bgLogger w' = bgLogger w /\
    count is_post (trace w') = count is_post (trace w).
Proof.
  intros Hrej Hsync.
  destruct (unwrapLazyValues_loop_rejected wrapped e Hrej
              (Z.to_nat (numTries (bgLogger w))) 0 w)
    as [r [effs [w' [Hrun [Hbg [Htr [Hposts [_ [Hasync _]]]]]]]]].
  { now rewrite Z.sub_0_r. }
  destruct (Hasync Hsync) as [-> _].
  exists w'. unfold unwrapLazyValues. run. cbv beta iota zeta.
  rewrite Hrun. split; [reflexivity|]. split; [exact Hbg|].
  rewrite Htr, count_app, Hposts. apply Nat.add_0_r.
Qed.

(** C8.  A flush pass starts by draining the whole queue into the pass
    and leaving an empty queue, and a [log] call made while the pass is
    in flight adds to that new queue.  The pass does not always look at
    the queue again when it ends.  Asynchronous mode, no maximum queue
    size, an idle logger with an empty queue: [log([bad])], where the
    deferred value of [bad] rejects, starts a pass that drains [bad];
    [log([x])] arrives while the pass retries the resolution; the pass
    drops its batch and returns at [if (allItems.length === 0) return],
    before the test of [this.items.length].  The promise of the flush is
    then settled without an error, nothing has been posted, [x] is still
    queued, and a [flush()] call returns at once and leaves it there. *)
Theorem flush_leaves_arrivals_queued (bad x : LazyRecord) (e : JsError)
  (w : World) :
  syncFlush (bgLogger w) = false ->
  activeFlush (bgLogger w) = None ->
  items (bgLogger w) = [] ->
  queueDropExceedingMaxsize (bgLogger w) = None ->
  computeRecord bad = Throw e ->
  exists w1 w2,
    BackgroundLogger_log [bad] w = (Ok tt, w1) /\
    activeFlush (bgLogger w1) = Some [bad] /\
    items (bgLogger w1) = [] /\
    (forall fuel, runActiveFlush (S fuel) [[[x]]] w1 = Some w2) /\
    activeFlushResolved (bgLogger w2) = true /\
    activeFlushError (bgLogger w2) = None /\
    items (bgLogger w2) = [x] /\
    count is_post (trace w2) = count is_post (trace w) /\
    (forall fuel sched,
       BackgroundLogger_flush fuel sched w2 = Some (Ok tt, w2)).
Proof.
  intros Hsync Haf Hitems Hmax Hbad.
  destruct (BackgroundLogger_log_starts [bad] w Hsync Haf Hmax)
    as [w1 [Hlog [Hit1 [Haf1 [Herr1 [Hcfg1 Htr1]]]]]].
  rewrite Hitems in Haf1. cbn [app] in Haf1.
  assert (Hsync1 : syncFlush (bgLogger w1) = false).
  { unfold same_config, config in Hcfg1. congruence. }
  assert (Hmax1 : queueDropExceedingMaxsize (bgLogger w1) = None).
  { unfold same_config, config in Hcfg1. congruence. }
  pose (wa := set_bgLogger
                (set_items (items (bgLogger w1) ++ [x]) (bgLogger w1)) w1).
  assert (Hrej : get_all [bad] = Throw e).
  { cbn [get_all]. now rewrite Hbad. }
  destruct (unwrapLazyValues_dropped [bad] e wa Hrej)
    as [w3 [Hun [Hbg3 Hposts3]]]; [exact Hsync1|].
  assert (Hpass : forall fuel,
    flushOnce_resume (S fuel) [[[x]]] [bad] w1 = Some (Ok tt, w3)).
  { intros fuel. cbn [flushOnce_resume hd arrive].
    unfold bind at 1. unfold bind at 1.
    rewrite (BackgroundLogger_log_in_flight [x] [bad] w1 Haf1 Hmax1).
    fold wa. unfold ret at 1. now rewrite Hun. }
  exists w1, (set_bgLogger (set_activeFlush None (bgLogger w3)) w3).
  split; [exact Hlog|]. split; [exact Haf1|]. split; [exact Hit1|].
  split.
  { intros fuel. unfold runActiveFlush. rewrite Haf1, Hpass. reflexivity. }
  split; [reflexivity|].
  split; [cbn; rewrite Hbg3; exact Herr1|].
  split; [cbn; rewrite Hbg3; cbn; now rewrite Hit1|].
  split.
  { cbn [trace set_bgLogger]. rewrite Hposts3. cbn [trace set_bgLogger wa].
    now rewrite Htr1. }
  intros fuel sched. unfold BackgroundLogger_flush.
  cbn [bgLogger set_bgLogger syncFlush set_activeFlush].
  rewrite Hbg3. cbn [bgLogger set_bgLogger syncFlush set_items wa].
  rewrite Hsync1. unfold runActiveFlush.
  cbn [bgLogger set_bgLogger activeFlush set_activeFlush activeFlushError].
  cbn [activeFlushError set_items]. now rewrite Herr1.
Qed.

(** * Further properties of the code *)

(** ** Validation of partial events *)

(** The scores block leaves every other key of the event alone. *)
Lemma check_scores_get event event1 k :
  k <> "scores" -> check_scores event = Ok event1 ->
  obj_get k event1 = obj_get k event.
Proof using.
  intros Hk. unfold check_scores.
  destruct (truthy (prop "scores" event)); [|now intros [= <-]].
  destruct (isArray (prop "scores" event)); [discriminate|].
  destruct (scores_loop _ _) as [s|e]; simpl; [|discriminate].
  intros [= <-]. now apply obj_get_set_neq.
Qed.

Lemma validateTags_Ok_strings (tags : list JsValue) :
  validateTags (JArr tags) = Ok tt ->
  Forall (fun t => typeof t = "string") tags.
Proof using.
  unfold validateTags. simpl.
  induction tags as [|t tags IH]; simpl; intros H; [constructor|].
  destruct t; try discriminate. constructor; [reflexivity | auto].
Qed.

(** An accepted event keeps its array of tags, which holds strings
    only. *)
Lemma sanitize_tags_kept (event out : JsObject) (tags : list JsValue) :
  wf_object event ->
  prop "tags" event = JArr tags ->
  validateAndSanitizeExperimentLogPartialArgs event = Ok out ->
  Forall (fun t => typeof t = "string") tags /\ prop "tags" out = JArr tags.
Proof using.
  intros Hwf Hp Hs.
  destruct (sanitize_Ok_inv _ _ Hs) as [event1 [Hsc [_ [_ [Htags ->]]]]].
  assert (Hget : obj_get "tags" event1 = obj_get "tags" event)
    by (apply (check_scores_get event); [discriminate | exact Hsc]).
  destruct (check_scores_Ok _ _ Hwf Hsc) as [_ [_ Hkeys]].
  assert (Hp1 : prop "tags" event1 = JArr tags)
    by (rewrite <- Hp; now apply prop_eq_of_get).
  split.
  - unfold check_tags in Htags. rewrite Hp1 in Htags.
    replace (obj_has "tags" event1) with true in Htags.
    + now apply validateTags_Ok_strings.
    + symmetry. unfold obj_has. unfold prop in Hp1.
      destruct (obj_get "tags" event1); [reflexivity | discriminate].
  - rewrite <- Hp1. apply prop_eq_of_get.
    apply rename_inputs_get; [|discriminate|discriminate].
    rewrite Hkeys. now apply wf_object_keys.
Qed.

(** X1.  Tags.  An event whose [tags] is an array holding a value that
    is not a string is rejected; an accepted event whose [tags] is an
    array has only strings in it, and the array comes out as it went
    in. *)
Theorem sanitize_tags (event : JsObject) (tags : list JsValue) :
  wf_object event ->
  prop "tags" event = JArr tags ->
  (forall t, In t tags -> typeof t <> "string" ->
     isThrow (validateAndSanitizeExperimentLogPartialArgs event) = true) /\
  (forall out,
     validateAndSanitizeExperimentLogPartialArgs event = Ok out ->
     Forall (fun t => typeof t = "string") tags /\
     prop "tags" out = JArr tags).
Proof using.
  intros Hwf Hp.
  assert (Hok : forall out,
    validateAndSanitizeExperimentLogPartialArgs event = Ok out ->
    Forall (fun t => typeof t = "string") tags /\ prop "tags" out = JArr tags)
    by (intros out Hs; exact (sanitize_tags_kept _ _ _ Hwf Hp Hs)).
  split; [|exact Hok].
  intros t Hin Hty.
  destruct (validateAndSanitizeExperimentLogPartialArgs event)
    as [out|e] eqn:Hs; [|reflexivity].
  exfalso. destruct (Hok out eq_refl) as [Hall _].
  rewrite Forall_forall in Hall. exact (Hty (Hall t Hin)).
Qed.

Lemma sanitize_tags_witness :
  isThrow (validateAndSanitizeExperimentLogPartialArgs
             [("tags", JArr [JStr "a"; JNum one])]) = true.
Proof using.
  refine (proj1 (sanitize_tags [("tags", JArr [JStr "a"; JNum one])]
                   [JStr "a"; JNum one] _ eq_refl) (JNum one) _ _).
  - solve_wf.
  - simpl. auto.
  - discriminate.
Defined.

Lemma metrics_loop_Ok (o : JsObject) :
  metrics_loop o = Ok tt <->
  Forall (fun kv => snd kv = JUndefined \/ typeof (snd kv) = "number") o.
Proof using.
  induction o as [|[k v] o IH]; simpl.
  - split; [constructor | reflexivity].
  - destruct v; simpl;
      try (split; [discriminate |
                   intros H; inversion H as [|? ? [Hv|Hv] _]; discriminate]).
    + rewrite IH. split; [intros H; constructor; auto |
                          intros H; now inversion H].
    + rewrite IH. split; [intros H; constructor; auto |
                          intros H; now inversion H].
Qed.

(** Replacing the metrics of an accepted event by numbers leaves it
    accepted. *)
Lemma sanitize_set_metrics (event o' : JsObject) :
  Forall (fun kv => snd kv = JUndefined \/ typeof (snd kv) = "number") o' ->
  isOk (validateAndSanitizeExperimentLogPartialArgs event) = true ->
  isOk (validateAndSanitizeExperimentLogPartialArgs
          (obj_set "metrics" (JObj o') event)) = true.
Proof using.
  intros Hall Hok.
  destruct (validateAndSanitizeExperimentLogPartialArgs event)
    as [out|e] eqn:Hs; [|discriminate].
  destruct (sanitize_Ok_inv _ _ Hs) as [e1 [Hsc [_ [Hii [Htags _]]]]].
  set (event' := obj_set "metrics" (JObj o') event).
  assert (Hps : prop "scores" event' = prop "scores" event)
    by (apply prop_eq_of_get, obj_get_set_neq; discriminate).
  assert (Hsc' : exists e1', check_scores event' = Ok e1').
  { unfold check_scores in Hsc |- *. rewrite Hps.
    destruct (truthy (prop "scores" event)); [|eauto].
    destruct (isArray (prop "scores" event)); [discriminate|].
    destruct (scores_loop _ _) as [s'|e]; simpl in *; [eauto|discriminate]. }
  destruct Hsc' as [e1' Hsc'].
  assert (Hg : forall k, k <> "scores" -> k <> "metrics" ->
                 obj_get k e1' = obj_get k e1).
  { intros k Hk1 Hk2.
    rewrite (check_scores_get _ _ k Hk1 Hsc'),
            (check_scores_get _ _ k Hk1 Hsc).
    now apply obj_get_set_neq. }
  assert (Hm' : obj_get "metrics" e1' = Some (JObj o')).
  { rewrite (check_scores_get event' e1' "metrics") by
      (discriminate || exact Hsc').
    apply obj_get_set_eq. }
  assert (Hii' : input_and_inputs e1' = input_and_inputs e1).
  { unfold input_and_inputs, obj_has, prop.
    now rewrite !Hg by discriminate. }
  assert (Htags' : check_tags e1' = check_tags e1).
  { unfold check_tags, obj_has, prop. now rewrite !Hg by discriminate. }
  unfold validateAndSanitizeExperimentLogPartialArgs.
  rewrite Hsc'. cbn [rbind].
  unfold check_metrics, prop. rewrite Hm'. cbn [truthy entries].
  rewrite (proj2 (metrics_loop_Ok o') Hall). cbn [rbind].
  rewrite Hii', Hii, Htags', Htags. reflexivity.
Qed.

(** X2.  Metrics.  An event whose [metrics] is an object is accepted
    only if every metric is a number or [undefined]: a metric that is
    [null], a boolean, a string, an array or an object makes the call
    throw, where a [null] score is let through.  No range is imposed on
    a metric: when the event is accepted, it is accepted too with any
    other metrics that are numbers or [undefined], whatever their sign
    and size.  The object comes out as it went in. *)
Theorem sanitize_metrics (event : JsObject) (o : JsObject) :
  wf_object event ->
  prop "metrics" event = JObj o ->
  (forall name v, In (name, v) o ->
     v <> JUndefined -> typeof v <> "number" ->
     isThrow (validateAndSanitizeExperimentLogPartialArgs event) = true) /\
  (forall out,
     validateAndSanitizeExperimentLogPartialArgs event = Ok out ->
     Forall (fun kv => snd kv = JUndefined \/ typeof (snd kv) = "number") o /\
     prop "metrics" out = JObj o) /\
  (forall o',
     isOk (validateAndSanitizeExperimentLogPartialArgs event) = true ->
     Forall (fun kv => snd kv = JUndefined \/ typeof (snd kv) = "number") o' ->
     isOk (validateAndSanitizeExperimentLogPartialArgs
             (obj_set "metrics" (JObj o') event)) = true).
Proof using.
  intros Hwf Hp.
  assert (Hok : forall out,
    validateAndSanitizeExperimentLogPartialArgs event = Ok out ->
    Forall (fun kv => snd kv = JUndefined \/ typeof (snd kv) = "number") o /\
    prop "metrics" out = JObj o).
  { intros out Hs.
    destruct (sanitize_Ok_inv _ _ Hs) as [event1 [Hsc [Hm [_ [_ ->]]]]].
    assert (Hget : obj_get "metrics" event1 = obj_get "metrics" event)
      by (apply (check_scores_get event); [discriminate | exact Hsc]).
    destruct (check_scores_Ok _ _ Hwf Hsc) as [_ [_ Hkeys]].
    assert (Hp1 : prop "metrics" event1 = JObj o)
      by (rewrite <- Hp; now apply prop_eq_of_get).
    split.
    - unfold check_metrics in Hm. rewrite Hp1 in Hm. simpl in Hm.
      now apply metrics_loop_Ok.
    - rewrite <- Hp1. apply prop_eq_of_get.
      apply rename_inputs_get; [|discriminate|discriminate].
      rewrite Hkeys. now apply wf_object_keys. }
  split; [|split; [exact Hok|]].
  - intros name v Hin Hu Hn.
    destruct (validateAndSanitizeExperimentLogPartialArgs event)
      as [out|e] eqn:Hs; [|reflexivity].
    exfalso. destruct (Hok out eq_refl) as [Hall _].
    rewrite Forall_forall in Hall.
    destruct (Hall (name, v) Hin) as [H|H]; [exact (Hu H) | exact (Hn H)].
  - intros o' Hacc Hall. now apply sanitize_set_metrics.
Qed.

(** A [null] metric is rejected; a negative metric, a metric above 1
    and an [undefined] one are accepted. *)
Lemma sanitize_metrics_witness :
  isThrow (validateAndSanitizeExperimentLogPartialArgs
             [("metrics", JObj [("tokens", JNull)])]) = true /\
  isOk (validateAndSanitizeExperimentLogPartialArgs
          [("metrics", JObj [("tokens", JNum (-5)%float);
                             ("latency", JNum 1000%float);
                             ("cost", JUndefined)])]) = true.
Proof using.
  split.
  - refine (proj1 (sanitize_metrics [("metrics", JObj [("tokens", JNull)])]
                     [("tokens", JNull)] _ eq_refl) "tokens" JNull _ _ _).
    + solve_wf.
    + simpl. auto.
    + discriminate.
    + discriminate.
  - refine (proj2 (proj2 (sanitize_metrics
                            [("metrics", JObj [("tokens", JNum one)])]
                            [("tokens", JNum one)] _ eq_refl))
              [("tokens", JNum (-5)%float); ("latency", JNum 1000%float);
               ("cost", JUndefined)] eq_refl _).
    + solve_wf.
    + repeat (apply Forall_cons;
              [cbn; first [left; reflexivity | right; reflexivity]|]).
      apply Forall_nil.
Defined.

(** X3.  The deprecated [inputs] key.  An event with a truthy [input]
    and a truthy [inputs] is rejected.  An accepted event comes out
    without an [inputs] key.  When the event has [inputs] and no [input]
    key, [input] comes out with the value of [inputs]; when it has both
    keys (so one of them is falsy), [input] keeps its own value and the
    value of [inputs] is lost. *)
Theorem sanitize_inputs (event : JsObject) :
  wf_object event ->
  (obj_has "input" event && truthy (prop "input" event) &&
   obj_has "inputs" event && truthy (prop "inputs" event) = true ->
   isThrow (validateAndSanitizeExperimentLogPartialArgs event) = true) /\
  (forall out,
     validateAndSanitizeExperimentLogPartialArgs event = Ok out ->
     obj_has "inputs" out = false /\
     (obj_has "inputs" event = true ->
      obj_get "input" out
      = Some (if obj_has "input" event then prop "input" event
              else prop "inputs" event)) /\
     (obj_has "inputs" event = false ->
      obj_get "input" out = obj_get "input" event)).
Proof using.
  intros Hwf.
  assert (Hinv : forall out,
    validateAndSanitizeExperimentLogPartialArgs event = Ok out ->
    exists event1,
      out = rename_inputs event1 /\ input_and_inputs event1 = false /\
      NoDup (map fst event1) /\
      obj_get "input" event1 = obj_get "input" event /\
      obj_get "inputs" event1 = obj_get "inputs" event).
  { intros out Hs.
    destruct (sanitize_Ok_inv _ _ Hs) as [event1 [Hsc [_ [Hboth [_ ->]]]]].
    destruct (check_scores_Ok _ _ Hwf Hsc) as [_ [_ Hkeys]].
    exists event1. split; [reflexivity|]. split; [exact Hboth|].
    split; [rewrite Hkeys; now apply wf_object_keys|].
    split; apply (check_scores_get event); try discriminate; exact Hsc. }
  split.
  - intros Hboth.
    destruct (validateAndSanitizeExperimentLogPartialArgs event)
      as [out|e] eqn:Hs; [|reflexivity].
    exfalso. destruct (Hinv out eq_refl) as [event1 [_ [Hno [_ [Hi Hii]]]]].
    unfold input_and_inputs, obj_has, prop in *.
    rewrite Hi, Hii in Hno. congruence.
  - intros out Hs.
    destruct (Hinv out Hs) as [event1 [-> [_ [Hnd [Hi Hii]]]]].
    split; [now apply rename_inputs_no_inputs|].
    unfold rename_inputs, obj_has, prop in *. rewrite Hii.
    split; intros Hhas.
    + destruct (obj_get "inputs" event) as [vs|]; [|discriminate].
      rewrite obj_get_spread by now apply obj_omit_NoDup.
      rewrite obj_get_omit_neq by discriminate. rewrite Hi.
      destruct (obj_get "input" event); reflexivity.
    + destruct (obj_get "inputs" event); [discriminate | exact Hi].
Qed.

Lemma sanitize_inputs_witness :
  obj_get "input" [("input", JStr ""); ("output", JStr "a")]
  = Some (JStr "").
Proof using.
  refine (proj1 (proj2 (proj2 (sanitize_inputs
            [("inputs", JStr "q"); ("input", JStr ""); ("output", JStr "a")]
            _) [("input", JStr ""); ("output", JStr "a")] _)) _).
  - solve_wf.
  - reflexivity.
  - reflexivity.
Defined.

(** X4.  What the sanitizer leaves alone: in an accepted event every
    key other than [scores], [input] and [inputs] comes out with the
    value it went in with, and no key is added except [input]. *)
Theorem sanitize_keeps_fields (event out : JsObject) (k : string) :
  wf_object event ->
  validateAndSanitizeExperimentLogPartialArgs event = Ok out ->
  (k <> "scores" -> k <> "input" -> k <> "inputs" ->
   obj_get k out = obj_get k event) /\
  (obj_has k out = true -> obj_has k event = true \/ k = "input").
Proof using.
  intros Hwf Hs. split; [|now apply sanitize_keys].
  intros Hk1 Hk2 Hk3.
  destruct (sanitize_Ok_inv _ _ Hs) as [event1 [Hsc [_ [_ [_ ->]]]]].
  destruct (check_scores_Ok _ _ Hwf Hsc) as [_ [_ Hkeys]].
  rewrite rename_inputs_get; [|rewrite Hkeys; now apply wf_object_keys | |];
    try assumption.
  now apply (check_scores_get event).
Qed.

Lemma sanitize_keeps_fields_witness :
  obj_get "output" [("input", JStr "q"); ("output", JStr "a")]
  = obj_get "output" [("inputs", JStr "q"); ("output", JStr "a")].
Proof using.
  refine (proj1 (sanitize_keeps_fields
            [("inputs", JStr "q"); ("output", JStr "a")]
            [("input", JStr "q"); ("output", JStr "a")] "output" _ _) _ _ _).
  - solve_wf.
  - reflexivity.
  - discriminate.
  - discriminate.
  - discriminate.
Defined.

(** ** Rejected events *)

Lemma logInternal_invalid (event internalData : option JsObject)
  (ow : SpanImpl * World) (e : JsError) :
  validateAndSanitizeExperimentLogPartialArgs (or_default event []) = Throw e ->
  logInternal event internalData ow = (Throw e, ow).
Proof.
  intros Hv. unfold logInternal, splitLoggingData. rewrite Hv.
  reflexivity.
Qed.

(** A constructor call on a rejected event throws before the record
    is handed to the background logger. *)
Lemma SpanImpl_new_invalid (args : SpanImplArgs) (w : World) (e : JsError) :
  validateAndSanitizeExperimentLogPartialArgs
    (obj_omit "id" (or_default (arg_event (new_args args)) [])) = Throw e ->
  exists w',
    SpanImpl_new args w = (Throw e, w') /\
    bgLogger w' = bgLogger w /\ trace w' = trace w /\ dumps w' = dumps w.
Proof.
  intros Hv. unfold SpanImpl_new, call.
  run. cbv beta iota zeta.
  unfold getCurrentUnixTimestamp, next_exec_counter, uuidv4.
  destruct (nullish_or (arg_startTime (new_args args)));
    destruct (nullish (prop "id" (or_default (arg_event (new_args args)) [])));
    cbn [fst snd]; rewrite (logInternal_invalid _ _ _ e) by exact Hv;
    eexists; (split; [reflexivity|]); cbn; repeat split.
Qed.

(** X5.  A rejected event is rejected before anything is queued.  When
    the validation of the event throws, [span.log] throws the same error
    and changes nothing; the toplevel [log] of a [Logger] or an
    [Experiment] (not stopped by the span guard) throws it too, the
    object is as it was, and the background logger and the effects are
    as they were: no record has been queued and nothing has been sent or
    printed. *)
Theorem rejected_event_queues_nothing (event : JsObject) (e : JsError) :
  (validateAndSanitizeExperimentLogPartialArgs event = Throw e ->
   forall sp w, SpanImpl_log event (sp, w) = (Throw e, (sp, w))) /\
  (validateAndSanitizeExperimentLogPartialArgs (obj_omit "id" event)
   = Throw e ->
   forall lg w allow,
     logger_calledStartSpan lg && negb allow = false ->
     exists w',
       Logger_log event allow (lg, w) = (Throw e, (lg, w')) /\
       bgLogger w' = bgLogger w /\ trace w' = trace w) /\
  (forall ex w allow,
     experiment_calledStartSpan ex && negb allow = false ->
     (validateAndSanitizeExperimentLogFullArgs event
        (experiment_hasDataset ex) = Throw e ->
      Experiment_log event allow (ex, w) = (Throw e, (ex, w))) /\
     (validateAndSanitizeExperimentLogFullArgs event
        (experiment_hasDataset ex) = Ok event ->
      validateAndSanitizeExperimentLogPartialArgs (obj_omit "id" event)
      = Throw e ->
      exists w',
        Experiment_log event allow (ex, w) = (Throw e, (ex, w')) /\
        bgLogger w' = bgLogger w /\ trace w' = trace w)).
Proof.
  split; [|split].
  - intros Hv sp w. unfold SpanImpl_log. now apply logInternal_invalid.
  - intros Hv lg w allow Hguard.
    destruct (SpanImpl_new_invalid
                {| new_parentObjectType := PROJECT_LOGS;
                   new_parentObjectId := logger_lazyId lg;
                   new_parentComputeObjectMetadataArgs :=
                     logger_computeMetadataArgs lg;
                   new_parentSpanIds := None;
                   new_defaultRootType := Some SpanTypeAttribute_TASK;
                   new_args := with_event_and_startTime no_args
                                 (logger_lastStartTime lg) event |} w e Hv)
      as [w' [Hnew [Hbg [Htr _]]]].
    exists w'. unfold Logger_log, Logger_startSpanImpl.
    run. cbv beta iota zeta. cbn [fst snd]. rewrite Hguard.
    cbn [startSpanParentArgs with_event_and_startTime arg_parent no_args
         fst snd].
    rewrite Hnew. now repeat split.
  - intros ex w allow Hguard. split.
    + intros Hfull. unfold Experiment_log.
      run. cbv beta iota zeta. cbn [fst snd]. rewrite Hguard, Hfull.
      reflexivity.
    + intros Hfull Hv.
      destruct (SpanImpl_new_invalid
                  {| new_parentObjectType := EXPERIMENT;
                     new_parentObjectId := experiment_lazyId ex;
                     new_parentComputeObjectMetadataArgs := None;
                     new_parentSpanIds := None;
                     new_defaultRootType := Some SpanTypeAttribute_EVAL;
                     new_args := with_event_and_startTime no_args
                                   (experiment_lastStartTime ex) event |}
                  w e Hv)
        as [w' [Hnew [Hbg [Htr _]]]].
      exists w'. unfold Experiment_log, Experiment_startSpanImpl.
      run. cbv beta iota zeta. cbn [fst snd]. rewrite Hguard, Hfull.
      cbn [startSpanParentArgs with_event_and_startTime arg_parent no_args
           fst snd].
      rewrite Hnew. now repeat split.
Qed.

(** ** Flushing *)

(** A pass with no arrival on an empty queue ends and leaves the
    logger as it found it. *)
Lemma flushOnce_resume_idle (fuel : nat) (wrapped : list LazyRecord)
  (w : World) :
  items (bgLogger w) = [] ->
  exists r w',
    flushOnce_resume (S fuel) [] wrapped w = Some (r, w') /\
    bgLogger w' = bgLogger w.
Proof.
  intros Hq. cbn [flushOnce_resume hd tl arrive].
  unfold bind at 1, ret at 1.
  pose proof (keeps_unwrapLazyValues wrapped w) as Hk1.
  destruct (unwrapLazyValues wrapped w) as [[[|x l]|e] w1];
    cbn [snd] in Hk1; eauto.
  match goal with
  | |- context [submitBatchSets ?b w1] =>
      pose proof (keeps_submitBatchSets b w1) as Hk2;
      destruct (submitBatchSets b w1) as [[[]|e] w2]
  end; cbn [snd] in Hk2.
  - rewrite Hk2, Hk1, Hq. eexists. eexists. split; [reflexivity|].
    congruence.
  - eexists. eexists. split; [reflexivity|]. congruence.
Qed.

(** X9.  In synchronous-flush mode, [flush()] on a logger with no pass
    in flight, with no [log] call arriving while it runs, needs one pass
    whatever the queue holds, and whether it returns or throws it leaves
    nothing behind: the queue is empty, no pass is in flight and no
    error is kept for a later [flush()].  What was queued has been
    submitted or dropped; a failed batch is not kept for a retry. *)
Theorem flush_sync_drains (w : World) :
  syncFlush (bgLogger w) = true ->
  activeFlush (bgLogger w) = None ->
  exists r w',
    BackgroundLogger_flush 1 [] w = Some (r, w') /\
    pending (bgLogger w') = [] /\
    activeFlushError (bgLogger w') = None /\
    same_config (bgLogger w) (bgLogger w').
Proof.
  intros Hsync Haf. unfold BackgroundLogger_flush. rewrite Hsync.
  unfold triggerActiveFlush, drain, activeFlushResolved.
  run. cbv beta iota zeta. rewrite Haf. cbn [snd fst].
  unfold runActiveFlush.
  cbn [bgLogger set_bgLogger activeFlush set_activeFlush].
  match goal with
  | |- context [flushOnce_resume 1 [] ?l ?s] =>
      destruct (flushOnce_resume_idle 0 l s) as [r [w1 [Hrun Hbg]]];
        [reflexivity | rewrite Hrun]
  end.
  cbn [bgLogger set_bgLogger] in Hbg.
  destruct r as [[]|err];
    cbn [bgLogger set_bgLogger activeFlushError set_activeFlush
         set_activeFlushError];
    rewrite Hbg; cbn; eexists; eexists; (split; [reflexivity|]);
    cbn; unfold pending, same_config, config; cbn; auto.
Qed.

(** X10.  A logger whose number of tries is not positive (the
    environment sets it to [BRAINTRUST_NUM_RETRIES + 1]) sends nothing:
    a flush pass gives its whole batch up without one attempt to
    resolve it, even when every record would resolve, and ends without
    an error. *)
Theorem no_tries_drops_batch (wrapped : list LazyRecord) (w : World)
  (fuel : nat) :
  (numTries (bgLogger w) <= 0)%Z ->
  exists w',
    flushOnce_resume (S fuel) [] wrapped w = Some (Ok tt, w') /\
    bgLogger w' = bgLogger w /\
    trace w'
    = (trace w ++
       [WarnGaveUp "Failed to construct log records to flush. Dropping batch"
          (numTries (bgLogger w))])%list.
Proof.
  intros Hn. cbn [flushOnce_resume hd arrive].
  unfold bind at 1, ret at 1. unfold unwrapLazyValues.
  unfold bind at 1, bg at 1, gets at 1.
  replace (Z.to_nat (numTries (bgLogger w))) with 0 by lia.
  cbn [unwrapLazyValues_loop]. run.
  eexists. split; [reflexivity|]. split; reflexivity.
Qed.

(** The dump of dropped events catches what the resolution throws. *)
Lemma keeps_dumpDroppedEvents (wrapped : list LazyRecord) :
  keeps_logger (dumpDroppedEvents wrapped).
Proof.
  unfold dumpDroppedEvents.
  apply keeps_bind; [auto with keeps|]. intros allDir.
  apply keeps_bind; [auto with keeps|]. intros failedDir.
  cbv zeta.
  set (dirs := ((if dir_set allDir then [or_default allDir ""] else []) ++
                (if dir_set failedDir then [or_default failedDir ""] else []))%list).
  destruct wrapped as [|x wrapped]; [auto with keeps|].
  destruct dirs as [|d dirs]; [auto with keeps|].
  apply keeps_catch; [|auto with keeps].
  apply keeps_bind; [apply keeps_unwrapLazyValues|]. intros allItems.
  generalize (d :: dirs). intros l.
  assert (Hfold : forall (acc : M World unit), keeps_logger acc ->
    keeps_logger
      (fold_left
         (fun acc payloadDir =>
            acc;; writePayloadToDir payloadDir
                    (constructLogs3Data
                       (map (fun x0 => stringify (JArr x0)) allItems)))
         l acc)).
  { induction l as [|p l IH]; intros acc Hacc; [exact Hacc|].
    cbn [fold_left]. apply IH. auto with keeps. }
  apply Hfold. auto with keeps.
Qed.

(** X11.  The dump of the events a [log] call drops never throws, also
    when the resolution of the events does (the error is caught), and
    it never writes the logger; with no payload directory configured,
    or with nothing to dump, it does nothing at all. *)
Theorem dumpDroppedEvents_safe (wrapped : list LazyRecord) (w : World) :
  exists w',
    dumpDroppedEvents wrapped w = (Ok tt, w') /\
    bgLogger w' = bgLogger w /\
    (wrapped = [] \/
     (dir_set (allPublishPayloadsDir (bgLogger w)) = false /\
      dir_set (failedPublishPayloadsDir (bgLogger w)) = false) ->
     w' = w).
Proof.
  pose proof (keeps_dumpDroppedEvents wrapped w) as Hkeep.
  assert (Hnothrow : forall l acc (s : World),
    (forall s0, exists s1, acc s0 = (Ok tt, s1)) ->
    forall payload, exists s1,
      fold_left
        (fun acc payloadDir => acc;; writePayloadToDir payloadDir payload)
        l acc s = (Ok tt, s1)).
  { induction l as [|p l IH]; intros acc s Hacc payload; [apply Hacc|].
    cbn [fold_left]. apply IH. intros s0.
    destruct (Hacc s0) as [s1 H1]. unfold bind. rewrite H1.
    unfold writePayloadToDir. destruct fsSupported; run; eauto. }
  revert Hkeep. unfold dumpDroppedEvents. run. cbv beta iota zeta.
  destruct wrapped as [|x wrapped].
  { intros _. exists w. now repeat split. }
  destruct (dir_set (allPublishPayloadsDir (bgLogger w))) eqn:Ha;
    destruct (dir_set (failedPublishPayloadsDir (bgLogger w))) eqn:Hf;
    cbn [app];
    try (intros _; exists w; now repeat split);
    (destruct (unwrapLazyValues (x :: wrapped) w) as [[allItems|e] w1];
     [ match goal with
       | |- context [fold_left ?f ?l ?acc w1] =>
           destruct (Hnothrow l acc w1
                       (fun s0 => ex_intro _ s0 eq_refl)
                       (constructLogs3Data
                          (map (fun x0 => stringify (JArr x0)) allItems)))
             as [s1 Hs1]
       end;
       rewrite Hs1; intros Hk; exists s1;
       (split; [reflexivity|]); (split; [exact Hk|]);
       intros [H|[H1 H2]]; discriminate
     | intros Hk; eexists; (split; [reflexivity|]); (split; [exact Hk|]);
       intros [H|[H1 H2]]; discriminate ]).
Qed.

(** ** Retries that end in a success *)

Definition is_gave_up (e : Effect) : bool :=
  match e with WarnGaveUp _ _ => true | _ => false end.

(** An attempt both posts of which are refused. *)
Lemma submitAttempt_refused (conn : HTTPConnection) (items : list string)
  (dataStr : string) (i : Z) (w : World) :
  (forall path body, isOk (post_json conn path body i) = false) ->
  exists e effs w',
    submitAttempt conn items dataStr i w = (Ok (Some e), w') /\
    bgLogger w' = bgLogger w /\ trace w' = (trace w ++ effs)%list /\
    posts_to "logs3" effs = 1 /\ count is_sleep effs = 0 /\
    count is_gave_up effs = 0.
Proof.
  intros Hfail. unfold submitAttempt. run. simpl.
  pose proof (Hfail "logs3" dataStr) as H1.
  destruct (post_json conn "logs3" dataStr i) as [[]|e1]; [discriminate|].
  destruct (legacyItems items) as [legacy|e2]; simpl.
  - pose proof (Hfail "logs" (constructJsonArray legacy)) as H2.
    destruct (post_json conn "logs" (constructJsonArray legacy) i)
      as [[]|e3]; [discriminate|].
    exists e3, [Post "logs3" dataStr; Post "logs" (constructJsonArray legacy)].
    eexists. split; [reflexivity|]. simpl.
    rewrite <- app_assoc. now repeat split.
  - exists e2, [Post "logs3" dataStr]. eexists. split; [reflexivity|].
    now repeat split.
Qed.

Lemma submitLogsRequest_loop_success (conn : HTTPConnection)
  (items : list string) (dataStr : string) :
  forall (d remaining : nat) (i : Z) (w : World),
    d < remaining ->
    (i + Z.of_nat d + 1 <= numTries (bgLogger w))%Z ->
    (forall j, j < d -> forall path body,
       isOk (post_json conn path body (i + Z.of_nat j)) = false) ->
    isOk (post_json conn "logs3" dataStr (i + Z.of_nat d)) = true ->
    exists effs w',
      submitLogsRequest_loop remaining i conn items dataStr w = (Ok tt, w') /\
      bgLogger w' = bgLogger w /\ trace w' = (trace w ++ effs)%list /\
      posts_to "logs3" effs = S d /\ count is_sleep effs = d /\
      count is_gave_up effs = 0.
Proof.
  induction d as [|d IH]; intros remaining i w Hlt Hn Hfail Hok;
    (destruct remaining as [|remaining]; [lia|]);
    cbn [submitLogsRequest_loop]; unfold bind at 1.
  - rewrite Z.add_0_r in Hok.
    destruct (submitAttempt_spec conn items dataStr i w)
      as [err [effs [w1 [Hrun [Hbg [Htr [_ [_ [Hsucc _]]]]]]]]].
    destruct (Hsucc Hok) as [-> ->]. rewrite Hrun.
    exists [Post "logs3" dataStr], w1. now repeat split.
  - destruct (submitAttempt_refused conn items dataStr i w)
      as [e [effs [w1 [Hrun [Hbg [Htr [Hp [Hs Hg]]]]]]]].
    { intros path body. specialize (Hfail 0 ltac:(lia) path body).
      now rewrite Z.add_0_r in Hfail. }
    rewrite Hrun. run. cbv beta iota zeta. rewrite Hbg.
    assert (Hretry : (i + 1 <? numTries (bgLogger w))%Z = true)
      by (apply Z.ltb_lt; lia).
    rewrite Hretry. cbn [negb andb].
    match goal with
    | |- context [submitLogsRequest_loop remaining (i + 1) conn items dataStr ?s] =>
        destruct (IH remaining (i + 1)%Z s) as [effs2 [w2 [Hrun2 [Hbg2 [Htr2 [Hp2 [Hs2 Hg2]]]]]]]
    end.
    + lia.
    + cbn [bgLogger]. rewrite Hbg. lia.
    + intros j Hj path body.
      replace (i + 1 + Z.of_nat j)%Z with (i + Z.of_nat (S j))%Z by lia.
      apply Hfail. lia.
    + replace (i + 1 + Z.of_nat d)%Z with (i + Z.of_nat (S d))%Z by lia.
      exact Hok.
    + rewrite Hrun2. cbn [bgLogger trace] in Hbg2, Htr2.
      exists (effs ++ [WarnLogRequestFailed (String.length dataStr) "" e;
                       Sleep 100] ++ effs2)%list, w2.
      split; [reflexivity|]. split; [now rewrite Hbg2|].
      split; [rewrite Htr2, Htr; now rewrite <- !app_assoc|].
      rewrite !posts_to_app, !count_app, Hp, Hs, Hg, Hp2, Hs2, Hg2.
      cbn. repeat split; lia.
Qed.

(** X12.  Retries stop at the first success.  When the server refuses
    both posts of the first [k] attempts of a batch and accepts the
    primary post of the next one, and [k] is below the number of tries,
    the submission returns without an error after exactly [k + 1] posts
    to [logs3] and [k] delays of 100ms; the batch is not given up, in
    either flush mode, and the logger is not written. *)
Theorem submit_stops_at_success (items : list string) (w : World)
  (conn : HTTPConnection) (k : nat) :
  get (apiConn (bgLogger w)) = Ok conn ->
  dir_set (allPublishPayloadsDir (bgLogger w)) = false ->
  (Z.of_nat k < numTries (bgLogger w))%Z ->
  (forall j, j < k -> forall path body,
     isOk (post_json conn path body (Z.of_nat j)) = false) ->
  isOk (post_json conn "logs3" (constructLogs3Data items) (Z.of_nat k))
  = true ->
  exists effs w',
    submitLogsRequest items w = (Ok tt, w') /\
    bgLogger w' = bgLogger w /\ trace w' = (trace w ++ effs)%list /\
    posts_to "logs3" effs = S k /\ count is_sleep effs = k /\
    count is_gave_up effs = 0.
Proof.
  intros Hconn Hall Hk Hfail Hok.
  unfold submitLogsRequest. run. cbv beta iota zeta.
  rewrite Hconn, Hall. cbn [fst snd].
  apply (submitLogsRequest_loop_success conn items
           (constructLogs3Data items) k
           (Z.to_nat (numTries (bgLogger w))) 0 w); try lia; assumption.
Qed.

(** ** The records of a span *)

(** The merge flag is written last, so nothing in the data overrides
    it. *)
Lemma buildPartialRecord_merge (this : SpanImpl) (data : JsObject) :
  prop IS_MERGE_FIELD (buildPartialRecord this data) = JBool (isMerge this).
Proof using.
  unfold prop, buildPartialRecord.
  rewrite obj_get_json_props.
  - now rewrite obj_get_set_eq.
  - apply obj_set_NoDup, obj_spread_NoDup. solve_keys.
Qed.

(** An accepted event comes out with distinct keys. *)
Lemma sanitize_NoDup (event out : JsObject) :
  wf_object event ->
  validateAndSanitizeExperimentLogPartialArgs event = Ok out ->
  NoDup (map fst out).
Proof using.
  intros Hwf Hs.
  destruct (sanitize_Ok_inv _ _ Hs) as [event1 [Hsc [_ [_ [_ ->]]]]].
  destruct (check_scores_Ok _ _ Hwf Hsc) as [_ [_ Hkeys]].
  assert (Hnd : NoDup (map fst event1))
    by (rewrite Hkeys; now apply wf_object_keys).
  unfold rename_inputs. destruct (obj_has "inputs" event1); [|exact Hnd].
  apply obj_spread_NoDup. solve_keys.
Qed.

(** With no internal data the data of the record is the sanitized
    event. *)
Lemma splitLoggingData_event (event sanitized : JsObject) :
  validateAndSanitizeExperimentLogPartialArgs event = Ok sanitized ->
  splitLoggingData (Some event) None = Ok sanitized.
Proof using mergeDicts_into_empty.
  intros Hs. unfold splitLoggingData. cbn [or_default]. rewrite Hs.
  cbn [rbind]. now rewrite !mergeDicts_into_empty.
Qed.

(** X13.  What [span.log] queues.  A call that returns, on a logger
    with no maximum queue size, has queued exactly one record, for the
    parent object of the span, and has left the identity of the span as
    it was.  The record carries the sanitized event, each value as JSON
    renders it; it is marked with the merge flag of the span, whatever
    the event says; and for each of [id], [span_id], [root_span_id] and
    [span_parents] that the event does not set, it carries the value of
    the span. *)
Theorem span_log_record (event : JsObject) (sp sp' : SpanImpl)
  (w w' : World) :
  wf_object event ->
  queueDropExceedingMaxsize (bgLogger w) = None ->
  SpanImpl_log event (sp, w) = (Ok tt, (sp', w')) ->
  same_identity sp sp' /\
  exists sanitized rec,
    validateAndSanitizeExperimentLogPartialArgs event = Ok sanitized /\
    pending (bgLogger w') = (pending (bgLogger w) ++ [rec])%list /\
    recordObjectType rec = parentObjectType sp /\
    recordObjectId rec = parentObjectId sp /\
    prop IS_MERGE_FIELD (partialRecord rec) = JBool (isMerge sp) /\
    (forall k v, k <> IS_MERGE_FIELD -> obj_get k sanitized = Some v ->
       obj_get k (partialRecord rec) = json_roundtrip v) /\
    (forall k, k <> IS_MERGE_FIELD -> obj_get k sanitized = None ->
       obj_get k (partialRecord rec)
       = obj_get k (json_props
           [("id", _id sp); ("span_id", JStr (spanId sp));
            ("root_span_id", JStr (rootSpanId sp));
            ("span_parents", match spanParents sp with
                             | Some l => str_array l
                             | None => JUndefined
                             end)])).
Proof using mergeDicts_into_empty.
  intros Hwf Hmax Hrun. unfold SpanImpl_log in Hrun.
  destruct (logInternal_Ok _ _ _ _ _ _ Hrun) as [data [Hsplit [Hid Hlog]]].
  split; [exact Hid|].
  destruct (validateAndSanitizeExperimentLogPartialArgs event)
    as [sanitized|e] eqn:Hs.
  2:{ unfold splitLoggingData in Hsplit. cbn [or_default] in Hsplit.
      rewrite Hs in Hsplit. discriminate. }
  rewrite (splitLoggingData_event _ _ Hs) in Hsplit.
  injection Hsplit as <-.
  destruct (BackgroundLogger_log_unbounded
              [{| partialRecord := buildPartialRecord sp sanitized;
                  recordObjectType := parentObjectType sp;
                  recordObjectId := parentObjectId sp |}] w Hmax)
    as [w1 [Hrun1 [Hpend _]]].
  rewrite Hlog in Hrun1. injection Hrun1 as <-.
  exists sanitized. eexists. split; [reflexivity|].
  split; [exact Hpend|]. cbn [recordObjectType recordObjectId partialRecord].
  split; [reflexivity|]. split; [reflexivity|].
  split; [apply buildPartialRecord_merge|].
  pose proof (sanitize_NoDup _ _ Hwf Hs) as Hnd.
  split.
  - intros k v Hk Hget. rewrite buildPartialRecord_get by exact Hk.
    rewrite obj_get_spread by exact Hnd. now rewrite Hget.
  - intros k Hk Hget. rewrite buildPartialRecord_get by exact Hk.
    rewrite obj_get_spread by exact Hnd. rewrite Hget.
    rewrite obj_get_json_props by solve_keys. reflexivity.
Qed.

(** X14.  Tags go to the root span only.  [span.log] of an accepted
    event whose [tags] is a non-empty array throws on a span that has
    parents, after the validation and before the background logger is
    called: nothing is queued and the identity of the span is as it
    was. *)
Theorem child_span_rejects_tags (event sanitized : JsObject)
  (t : JsValue) (ts : list JsValue) (sp : SpanImpl) (w : World) :
  wf_object event ->
  validateAndSanitizeExperimentLogPartialArgs event = Ok sanitized ->
  prop "tags" event = JArr (t :: ts) ->
  has_parents (spanParents sp) = true ->
  exists sp',
    SpanImpl_log event (sp, w)
    = (Throw (Error "Tags can only be logged to the root span"), (sp', w)) /\
    same_identity sp sp'.
Proof using mergeDicts_into_empty.
  intros Hwf Hs Htags Hparents.
  destruct (sanitize_tags_kept _ _ _ Hwf Htags Hs) as [_ Hp].
  pose proof (sanitize_NoDup _ _ Hwf Hs) as Hnd.
  assert (Hrec : nonempty_length (prop "tags" (buildPartialRecord sp sanitized))
                 = true).
  { unfold prop. rewrite buildPartialRecord_get by discriminate.
    rewrite obj_get_spread by exact Hnd.
    unfold prop in Hp.
    destruct (obj_get "tags" sanitized) as [v|]; [|discriminate].
    subst v. reflexivity. }
  unfold SpanImpl_log, logInternal.
  unfold bind at 1, lift at 1.
  rewrite (splitLoggingData_event _ _ Hs).
  run. cbv beta iota zeta. cbn [fst snd].
  destruct (truthy _); cbn [fst snd spanParents set_loggedEndTime];
    rewrite Hrec, Hparents; cbn [andb]; eexists; split; reflexivity.
Qed.

(** What a call of [logInternal] that returns has queued, on a logger
    with no maximum queue size. *)
Lemma logInternal_queued (event internalData : option JsObject)
  (sp sp' : SpanImpl) (w w' : World) :
  queueDropExceedingMaxsize (bgLogger w) = None ->
  logInternal event internalData (sp, w) = (Ok tt, (sp', w')) ->
  same_identity sp sp' /\
  exists rec,
    pending (bgLogger w') = (pending (bgLogger w) ++ [rec])%list /\
    prop IS_MERGE_FIELD (partialRecord rec) = JBool (isMerge sp).
Proof.
  intros Hmax Hrun.
  destruct (logInternal_Ok _ _ _ _ _ _ Hrun) as [data [_ [Hid Hlog]]].
  split; [exact Hid|].
  destruct (BackgroundLogger_log_unbounded
              [{| partialRecord := buildPartialRecord sp data;
                  recordObjectType := parentObjectType sp;
                  recordObjectId := parentObjectId sp |}] w Hmax)
    as [w1 [Hrun1 [Hpend _]]].
  rewrite Hlog in Hrun1. injection Hrun1 as <-.
  eexists. split; [exact Hpend|]. apply buildPartialRecord_merge.
Qed.

(** X15.  The merge flag of the records of a span.  The record the
    constructor queues is not a merge, and the span it returns is set
    to merge; [end] queues one record with the merge flag of the span
    and leaves the flag as it is.  So, with X13, the first record of a
    span creates the row and every later one is merged into it. *)
Theorem span_merge_flag :
  (forall args w sp w',
     queueDropExceedingMaxsize (bgLogger w) = None ->
     SpanImpl_new args w = (Ok sp, w') ->
     isMerge sp = true /\
     exists rec,
       pending (bgLogger w') = (pending (bgLogger w) ++ [rec])%list /\
       prop IS_MERGE_FIELD (partialRecord rec) = JBool false) /\
  (forall endTime sp w t sp' w',
     queueDropExceedingMaxsize (bgLogger w) = None ->
     SpanImpl_end endTime (sp, w) = (Ok t, (sp', w')) ->
     isMerge sp' = isMerge sp /\
     exists rec,
       pending (bgLogger w') = (pending (bgLogger w) ++ [rec])%list /\
       prop IS_MERGE_FIELD (partialRecord rec) = JBool (isMerge sp)).
Proof.
  split.
  - intros args w sp w' Hmax Hnew.
    destruct (SpanImpl_new_Ok _ _ _ _ Hnew)
      as [k [w0 [this [internal [data
           [_ [_ [Hbg [_ [_ [_ [Hmerge [Hid [_ [_ Hlog]]]]]]]]]]]]]]].
    split; [exact Hmerge|].
    assert (Hmax0 : queueDropExceedingMaxsize (bgLogger w0) = None)
      by now rewrite Hbg.
    destruct (BackgroundLogger_log_unbounded
                [{| partialRecord := buildPartialRecord this data;
                    recordObjectType := parentObjectType this;
                    recordObjectId := parentObjectId this |}] w0 Hmax0)
      as [w1 [Hrun1 [Hpend _]]].
    rewrite Hlog in Hrun1. injection Hrun1 as <-.
    eexists. split; [rewrite Hpend, Hbg; reflexivity|].
    cbn [partialRecord]. rewrite buildPartialRecord_merge.
    unfold same_identity in Hid. cbn in Hid. congruence.
  - intros endTime sp w t sp' w' Hmax. unfold SpanImpl_end.
    run. cbv beta iota zeta. cbn [fst snd].
    unfold getCurrentUnixTimestamp.
    destruct (end_not_logged sp); [destruct (nullish_or endTime)|];
      cbn [fst snd];
      match goal with
      | |- context [logInternal ?e ?i ?s] =>
          destruct (logInternal e i s) as [[[]|err] [sp1 w1]] eqn:Hl
      end; try discriminate; intros [= _ <- <-];
      apply logInternal_queued in Hl; try exact Hmax;
      destruct Hl as [Hid Hrec];
      (split; [unfold same_identity in Hid; congruence | exact Hrec]).
Qed.

(** ** The row id of a toplevel [log] *)

(** The row id of a span: the [id] of the event when it has one, the
    next UUID otherwise. *)
Lemma SpanImpl_new_id (args : SpanImplArgs) (w w' : World) (sp : SpanImpl) :
  SpanImpl_new args w = (Ok sp, w') ->
  _id sp
  = (if nullish (prop "id" (or_default (arg_event (new_args args)) []))
     then JStr (uuid_at (uuidCount w))
     else prop "id" (or_default (arg_event (new_args args)) [])).
Proof.
  unfold SpanImpl_new, call.
  run. cbv beta iota zeta.
  unfold getCurrentUnixTimestamp, next_exec_counter, uuidv4.
  destruct (nullish_or (arg_startTime (new_args args)));
    destruct (nullish (prop "id" (or_default (arg_event (new_args args)) [])));
    cbn [fst snd uuidCount];
    match goal with
    | |- context [logInternal ?e ?i ?s] =>
        destruct (logInternal e i s) as [[[]|err] [sp1 w1]] eqn:Hl
    end; try discriminate; intros [= <- _];
    apply logInternal_Ok in Hl; destruct Hl as [data [_ [Hid _]]];
    unfold same_identity in Hid; cbn in Hid; cbn [_id set_isMerge];
    congruence.
Qed.

Lemma SpanImpl_end_identity (endTime : option JsValue) (sp sp' : SpanImpl)
  (w w' : World) (t : JsValue) :
  SpanImpl_end endTime (sp, w) = (Ok t, (sp', w')) -> same_identity sp sp'.
Proof.
  unfold SpanImpl_end.
  run. cbv beta iota zeta. cbn [fst snd].
  unfold getCurrentUnixTimestamp.
  destruct (end_not_logged sp); [destruct (nullish_or endTime)|];
    cbn [fst snd];
    match goal with
    | |- context [logInternal ?e ?i ?s] =>
        destruct (logInternal e i s) as [[[]|err] [sp1 w1]] eqn:Hl
    end; try discriminate; intros [= _ <- <-];
    apply logInternal_Ok in Hl; destruct Hl as [data [_ [Hid _]]];
    exact Hid.
Qed.

(** X16.  The value of a toplevel [log].  When [Logger.log] or
    [Experiment.log] returns, it returns the [id] of the event if the
    event has one that is neither [null] nor [undefined], and otherwise
    the UUID drawn next; the span guard of the object is as it was. *)
Theorem toplevel_log_id (event : JsObject) (allow : bool) (w : World) :
  let row_id :=
    if nullish (prop "id" event) then JStr (uuid_at (uuidCount w))
    else prop "id" event in
  (forall lg id lg' w',
     Logger_log event allow (lg, w) = (Ok id, (lg', w')) ->
     id = row_id /\
     logger_calledStartSpan lg' = logger_calledStartSpan lg) /\
  (forall ex id ex' w',
     Experiment_log event allow (ex, w) = (Ok id, (ex', w')) ->
     id = row_id /\
     experiment_calledStartSpan ex' = experiment_calledStartSpan ex).
Proof.
  intros row_id. split.
  - intros lg id lg' w'. unfold Logger_log, Logger_startSpanImpl.
    run. cbv beta iota zeta. cbn [fst snd].
    destruct (logger_calledStartSpan lg && negb allow); [discriminate|].
    cbn [startSpanParentArgs with_event_and_startTime arg_parent no_args
         fst snd].
    match goal with
    | |- context [SpanImpl_new ?a w] =>
        destruct (SpanImpl_new a w) as [[sp|err] w1] eqn:Hnew
    end; [|discriminate].
    apply SpanImpl_new_id in Hnew. cbn [new_args arg_event or_default with_event_and_startTime] in Hnew.
    cbn [fst snd].
    destruct (SpanImpl_end None (sp, w1)) as [[t|err] [sp2 w2]] eqn:Hend;
      [|discriminate].
    apply SpanImpl_end_identity in Hend.
    assert (Hid : _id sp2 = row_id)
      by (unfold same_identity in Hend; subst row_id; congruence).
    cbn [fst snd logger_asyncFlush logger_calledStartSpan].
    destruct (logger_asyncFlush lg) as [[|]|];
      try (destruct (syncFlush (bgLogger w2)));
      unfold triggerActiveFlush, drain; run; cbv beta iota zeta;
      cbn [fst snd];
      repeat match goal with
             | |- context [if ?b then _ else _] => destruct b
             end; cbn [fst snd];
      intros [= <- <- _]; (split; [exact Hid | reflexivity]).
  - intros ex id ex' w'. unfold Experiment_log, Experiment_startSpanImpl.
    run. cbv beta iota zeta. cbn [fst snd].
    destruct (experiment_calledStartSpan ex && negb allow); [discriminate|].
    unfold validateAndSanitizeExperimentLogFullArgs.
    match goal with
    | |- context [if ?c then Throw ?e1 else ?rest] =>
        destruct c; [discriminate|]
    end.
    destruct (isEmpty (prop "output" event)); [discriminate|].
    destruct (isEmpty (prop "scores" event)); [discriminate|].
    destruct (experiment_hasDataset ex);
      destruct (prop "datasetRecordId" event); try discriminate;
      cbn [startSpanParentArgs with_event_and_startTime arg_parent no_args
           fst snd];
      match goal with
      | |- context [SpanImpl_new ?a w] =>
          destruct (SpanImpl_new a w) as [[sp|err] w1] eqn:Hnew
      end; try discriminate;
      apply SpanImpl_new_id in Hnew;
      cbn [new_args arg_event or_default with_event_and_startTime] in Hnew;
      cbn [fst snd];
      (destruct (SpanImpl_end None (sp, w1)) as [[t|err] [sp2 w2]] eqn:Hend;
       [|discriminate]);
      apply SpanImpl_end_identity in Hend;
      intros [= <- <- _];
      (split; [unfold same_identity in Hend; subst row_id; congruence
              | reflexivity]).
Qed.

(** * Login state

    The login fields of [BraintrustState], its connections, and
    [_check_org_info]. *)

(** [String.prototype.trim] and [String(v)] of the host. *)
Variable trim : string -> string.
Variable String_of : JsValue -> string.

(** The fields of an [HTTPConnection] object that [set_token] and
    [_reset] write; the [fetch] function is left out. *)
Record ConnState : Type := {
  base_url : JsValue;
  token : option string;
  headers : list (string * string)
}.

(** [_reset] *)
Definition HTTPConnection_reset (c : ConnState) : ConnState :=
  {| base_url := base_url c;
     token := token c;
     headers :=
       match token c with
       | Some (String a rest) =>
           [("Authorization", "Bearer " ++ String a rest)]
       | _ => []
       end |}.

(** [new HTTPConnection(base_url, fetch)] *)
Definition HTTPConnection_new (url : JsValue) : ConnState :=
  HTTPConnection_reset {| base_url := url; token := None; headers := [] |}.

(** [sanitize_token] *)
Definition sanitize_token (t : string) : string := trim t.

(** [set_token] *)
Definition set_token (t : string) (c : ConnState) : ConnState :=
  HTTPConnection_reset
    {| base_url := base_url c; token := Some (sanitize_token t);
       headers := headers c |}.

(** [make_long_lived] *)
Definition make_long_lived (c : ConnState) : ConnState :=
  HTTPConnection_reset c.

(** The login fields of [BraintrustState].  A connection field holds
    the object it refers to. *)
Record LoginState : Type := {
  appUrl : JsValue;
  appPublicUrl : JsValue;
  loginToken : JsValue;
  orgId : JsValue;
  orgName : JsValue;
  apiUrl : JsValue;
  proxyUrl : JsValue;
  loggedIn : bool;
  gitMetadataSettings : JsValue;
  _appConn : option ConnState;
  _apiConn : option ConnState;
  _proxyConn : option ConnState
}.

(** [resetLoginInfo] *)
Definition resetLoginInfo (s : LoginState) : LoginState :=
  {| appUrl := JNull; appPublicUrl := JNull; loginToken := JNull;
     orgId := JNull; orgName := JNull; apiUrl := JNull; proxyUrl := JNull;
     loggedIn := false; gitMetadataSettings := JUndefined;
     _appConn := None; _apiConn := None; _proxyConn := None |}.

Definition set__appConn (c : option ConnState) (s : LoginState) :=
  {| appUrl := appUrl s; appPublicUrl := appPublicUrl s;
     loginToken := loginToken s; orgId := orgId s; orgName := orgName s;
     apiUrl := apiUrl s; proxyUrl := proxyUrl s; loggedIn := loggedIn s;
     gitMetadataSettings := gitMetadataSettings s;
     _appConn := c; _apiConn := _apiConn s; _proxyConn := _proxyConn s |}.

Definition set__apiConn (c : option ConnState) (s : LoginState) :=
  {| appUrl := appUrl s; appPublicUrl := appPublicUrl s;
     loginToken := loginToken s; orgId := orgId s; orgName := orgName s;
     apiUrl := apiUrl s; proxyUrl := proxyUrl s; loggedIn := loggedIn s;
     gitMetadataSettings := gitMetadataSettings s;
     _appConn := _appConn s; _apiConn := c; _proxyConn := _proxyConn s |}.

Definition set__proxyConn (c : option ConnState) (s : LoginState) :=
  {| appUrl := appUrl s; appPublicUrl := appPublicUrl s;
     loginToken := loginToken s; orgId := orgId s; orgName := orgName s;
     apiUrl := apiUrl s; proxyUrl := proxyUrl s; loggedIn := loggedIn s;
     gitMetadataSettings := gitMetadataSettings s;
     _appConn := _appConn s; _apiConn := _apiConn s; _proxyConn := c |}.

(** [appConn()] *)
Definition BraintrustState_appConn : M LoginState ConnState :=
  cached <- gets _appConn ;;
  match cached with
  | Some c => ret c
  | None =>
      url <- gets appUrl ;;
      if truthy url then
        modify (set__appConn (Some (HTTPConnection_new url))) ;;
        ret (HTTPConnection_new url)
      else throw (Error "Must initialize appUrl before requesting appConn")
  end.

(** [apiConn()] *)
Definition BraintrustState_apiConn : M LoginState ConnState :=
  cached <- gets _apiConn ;;
  match cached with
  | Some c => ret c
  | None =>
      url <- gets apiUrl ;;
      if truthy url then
        modify (set__apiConn (Some (HTTPConnection_new url))) ;;
        ret (HTTPConnection_new url)
      else throw (Error "Must initialize apiUrl before requesting apiConn")
  end.

(** [proxyConn()]; the test of [proxyUrl] inside the second branch
    cannot fail after the first one. *)
Definition BraintrustState_proxyConn : M LoginState ConnState :=
  url <- gets proxyUrl ;;
  if negb (truthy url) then BraintrustState_apiConn
  else
    cached <- gets _proxyConn ;;
    match cached with
    | Some c => ret c
    | None =>
        modify (set__proxyConn (Some (HTTPConnection_new url))) ;;
        ret (HTTPConnection_new url)
    end.

(** [serialize] *)
Definition BraintrustState_serialize (s : LoginState) : Result JsObject :=
  if negb (loggedIn s) then
    Throw (Error "Cannot serialize BraintrustState without being logged in")
  else if negb (truthy (appUrl s)) || negb (truthy (appPublicUrl s)) ||
          negb (truthy (apiUrl s)) || negb (truthy (proxyUrl s)) ||
          negb (truthy (orgName s)) || negb (truthy (loginToken s)) ||
          negb (loggedIn s)
  then
    Throw (Error
      "Cannot serialize BraintrustState without all login attributes")
  else
    Ok [("appUrl", appUrl s);
        ("appPublicUrl", appPublicUrl s);
        ("loginToken", loginToken s);
        ("orgId", orgId s);
        ("orgName", orgName s);
        ("apiUrl", apiUrl s);
        ("proxyUrl", proxyUrl s);
        ("gitMetadataSettings", gitMetadataSettings s)].

Definition set_loggedIn (b : bool) (s : LoginState) :=
  {| appUrl := appUrl s; appPublicUrl := appPublicUrl s;
     loginToken := loginToken s; orgId := orgId s; orgName := orgName s;
     apiUrl := apiUrl s; proxyUrl := proxyUrl s; loggedIn := b;
     gitMetadataSettings := gitMetadataSettings s;
     _appConn := _appConn s; _apiConn := _apiConn s;
     _proxyConn := _proxyConn s |}.

(** [token.trim()] on the value of [loginToken] *)
Definition token_string (v : JsValue) : Result string :=
  match v with
  | JStr t => Ok t
  | _ => Throw (TypeError "token.trim is not a function")
  end.

(** [deserialize], given the outcome of [loginSchema.safeParse]: the
    text of the errors, or the parsed data.  The new state starts from
    the constructor's [resetLoginInfo]; its background logger, and the
    call of [loginReplaceApiConn] that hands it the connection, are
    left out. *)
Definition BraintrustState_deserialize (parsed : string + JsObject)
  : Result LoginState :=
  match parsed with
  | inl errors =>
      Throw (Error ("Cannot deserialize BraintrustState: " ++ errors))
  | inr data =>
      let state :=
        {| appUrl := prop "appUrl" data;
           appPublicUrl := prop "appPublicUrl" data;
           loginToken := prop "loginToken" data;
           orgId := prop "orgId" data;
           orgName := prop "orgName" data;
           apiUrl := prop "apiUrl" data;
           proxyUrl := prop "proxyUrl" data;
           loggedIn := false;
           gitMetadataSettings := prop "gitMetadataSettings" data;
           _appConn := None; _apiConn := None; _proxyConn := None |} in
      if negb (truthy (loginToken state)) then
        Throw (Error
          "Cannot deserialize BraintrustState without a login token")
      else
        let run : M LoginState unit :=
          c <- BraintrustState_apiConn ;;
          t <- lift (token_string (loginToken state)) ;;
          modify (set__apiConn (Some (set_token t c))) ;;
          c <- BraintrustState_apiConn ;;
          modify (set__apiConn (Some (make_long_lived c))) ;;
          c <- BraintrustState_appConn ;;
          modify (set__appConn (Some (set_token t c))) ;;
          (if truthy (proxyUrl state) then
             c <- BraintrustState_proxyConn ;;
             modify (set__proxyConn (Some (make_long_lived c))) ;;
             c <- BraintrustState_proxyConn ;;
             modify (set__proxyConn (Some (set_token t c)))
           else ret tt) ;;
          modify (set_loggedIn true) in
        match run state with
        | (Ok _, state') => Ok state'
        | (Throw e, _) => Throw e
        end
  end.

(** [org.k]: reading a property of [null] or [undefined] throws. *)
Definition read_property (k : string) (v : JsValue) : Result JsValue :=
  match v with
  | JUndefined =>
      Throw (TypeError
        ("Cannot read properties of undefined (reading '" ++ k ++ "')"))
  | JNull =>
      Throw (TypeError
        ("Cannot read properties of null (reading '" ++ k ++ "')"))
  | _ => Ok (member k v)
  end.

(** [v === s] for a string [s] *)
Definition is_string (s : string) (v : JsValue) : bool :=
  match v with JStr s' => s' =? s | _ => false end.

(** The body of the [if] in the loop of [_check_org_info]: the five
    assignments.  [env_api_url] and [env_proxy_url] are
    [iso.getEnv("BRAINTRUST_API_URL")] and
    [iso.getEnv("BRAINTRUST_PROXY_URL")]. *)
Definition select_org (env_api_url env_proxy_url : option string)
  (org : JsValue) : M LoginState unit :=
  id <- lift (read_property "id" org) ;;
  name <- lift (read_property "name" org) ;;
  api_url <- match env_api_url with
             | Some u => ret (JStr u)
             | None => lift (read_property "api_url" org)
             end ;;
  proxy_url <- match env_proxy_url with
               | Some u => ret (JStr u)
               | None => lift (read_property "proxy_url" org)
               end ;;
  git <- lift (read_property "git_metadata" org) ;;
  modify (fun s =>
    {| appUrl := appUrl s; appPublicUrl := appPublicUrl s;
       loginToken := loginToken s;
       orgId := id; orgName := name; apiUrl := api_url;
       proxyUrl := proxy_url; loggedIn := loggedIn s;
       gitMetadataSettings := if truthy git then git else JUndefined;
       _appConn := _appConn s; _apiConn := _apiConn s;
       _proxyConn := _proxyConn s |}).

(** The loop [for (const org of org_info)] with its [break]. *)
Fixpoint check_org_loop (env_api_url env_proxy_url : option string)
  (org_name : option string) (orgs : list JsValue) : M LoginState unit :=
  match orgs with
  | [] => ret tt
  | org :: rest =>
      matches <- match org_name with
                 | None => ret true
                 | Some n =>
                     name <- lift (read_property "name" org) ;;
                     ret (is_string n name)
                 end ;;
      if (matches : bool) then select_org env_api_url env_proxy_url org
      else check_org_loop env_api_url env_proxy_url org_name rest
  end.

(** An element of [names.join(", ")] *)
Definition join_element (v : JsValue) : string :=
  match v with
  | JUndefined | JNull => ""
  | JStr s => s
  | _ => String_of v
  end.

Fixpoint org_names (orgs : list JsValue) : Result (list JsValue) :=
  match orgs with
  | [] => Ok []
  | org :: rest =>
      rbind (read_property "name" org) (fun n =>
        rbind (org_names rest) (fun ns => Ok (n :: ns)))
  end.

(** [_check_org_info], for an [org_info] that is an array. *)
Definition _check_org_info (env_api_url env_proxy_url : option string)
  (org_info : list JsValue) (org_name : option string)
  : M LoginState unit :=
  match org_info with
  | [] => throw (Error "This user is not part of any organizations.")
  | _ :: _ =>
      check_org_loop env_api_url env_proxy_url org_name org_info ;;
      id <- gets orgId ;;
      match id with
      | JUndefined =>
          names <- lift (org_names org_info) ;;
          throw (Error ("Organization " ++
                        match org_name with
                        | Some n => n
                        | None => "undefined"
                        end ++
                        " not found. Must be one of " ++
                        String.concat ", " (map join_element names)))
      | _ => ret tt
      end
  end.

(** ** Properties of the login state *)

(** [org_name === undefined || org.name === org_name] *)
Definition org_matches (org_name : option string) (org : JsValue) : bool :=
  match org_name with
  | None => true
  | Some n => is_string n (member "name" org)
  end.

(** The state after the assignments of [_check_org_info] for the
    organization [o]. *)
Definition with_org (env_api_url env_proxy_url : option string)
  (o : JsObject) (s : LoginState) : LoginState :=
  {| appUrl := appUrl s; appPublicUrl := appPublicUrl s;
     loginToken := loginToken s;
     orgId := prop "id" o;
     orgName := prop "name" o;
     apiUrl := match env_api_url with
               | Some u => JStr u
               | None => prop "api_url" o
               end;
     proxyUrl := match env_proxy_url with
                 | Some u => JStr u
                 | None => prop "proxy_url" o
                 end;
     loggedIn := loggedIn s;
     gitMetadataSettings :=
       if truthy (prop "git_metadata" o) then prop "git_metadata" o
       else JUndefined;
     _appConn := _appConn s; _apiConn := _apiConn s;
     _proxyConn := _proxyConn s |}.

Lemma read_property_Ok k v :
  nullish v = false -> read_property k v = Ok (member k v).
Proof using. now destruct v. Qed.

Lemma check_org_loop_skips (ea ep org_name : option string)
  (pre rest : list JsValue) (s : LoginState) :
  Forall (fun org => nullish org = false /\ org_matches org_name org = false)
    pre ->
  check_org_loop ea ep org_name (pre ++ rest) s
  = check_org_loop ea ep org_name rest s.
Proof using.
  induction pre as [|org pre IH]; intros Hpre; [reflexivity|].
  inversion Hpre as [|? ? [Hn Hm] Hrest]; subst.
  cbn [app check_org_loop]. unfold bind at 1.
  destruct org_name as [n|]; [|discriminate].
  unfold bind at 1, lift at 1. rewrite (read_property_Ok _ _ Hn).
  unfold ret at 1. cbn [org_matches] in Hm. rewrite Hm. now apply IH.
Qed.

Lemma org_names_Ok (orgs : list JsValue) :
  Forall (fun org => nullish org = false) orgs ->
  org_names orgs = Ok (map (member "name") orgs).
Proof using.
  induction orgs as [|org orgs IH]; intros H; [reflexivity|].
  inversion H; subst. cbn [org_names map].
  rewrite read_property_Ok by assumption. cbn [rbind].
  now rewrite IH.
Qed.

(** X17.  [_check_org_info] takes the first organization that matches.
    When the organizations before [o] in [org_info] are not [null] or
    [undefined] and do not match, [o] matches (its [name] is the
    requested name, or no name is requested) and [o] has an [id], the
    call returns, and the state has the id, the name, the URLs and the
    git settings of [o], whatever comes after [o] in the list; the two
    environment variables, when set, take the place of the URLs of
    [o]; a falsy [git_metadata] is stored as [undefined]. *)
Theorem check_org_info_first_match (ea ep org_name : option string)
  (pre post : list JsValue) (o : JsObject) (s : LoginState) :
  Forall (fun org => nullish org = false /\ org_matches org_name org = false)
    pre ->
  org_matches org_name (JObj o) = true ->
  prop "id" o <> JUndefined ->
  _check_org_info ea ep (pre ++ JObj o :: post) org_name s
  = (Ok tt, with_org ea ep o s).
Proof using.
  intros Hpre Hmatch Hid. unfold _check_org_info.
  destruct (pre ++ JObj o :: post)%list as [|x l] eqn:Hl.
  { destruct pre; discriminate. }
  rewrite <- Hl. clear Hl x l.
  unfold bind at 1. rewrite check_org_loop_skips by exact Hpre.
  cbn [check_org_loop]. unfold bind at 1.
  assert (Hm : (match org_name with
                | Some n => name <- lift (read_property "name" (JObj o));;
                            ret (is_string n name)
                | None => ret true
                end) s = (Ok true, s)).
  { destruct org_name as [n|]; [|reflexivity].
    cbn [org_matches member] in Hmatch. unfold bind, lift, ret.
    cbn [read_property member]. now rewrite Hmatch. }
  rewrite Hm. unfold select_org.
  destruct ea, ep; run; cbn [read_property member orgId with_org];
    unfold with_org; destruct (prop "id" o) eqn:Hp; try reflexivity;
    now elim Hid.
Qed.

(** X18.  [_check_org_info] when no organization has the requested
    name (the list is not empty and holds no [null] or [undefined]).
    The state is left as it is, and the "not found" error is thrown
    only if [orgId] was [undefined] before the call.  [resetLoginInfo]
    and the constructor set [orgId] to [null], so on such a state the
    call returns without an error. *)
Theorem check_org_info_no_match (ea ep : option string) (n : string)
  (orgs : list JsValue) (s : LoginState) :
  orgs <> [] ->
  Forall (fun org => nullish org = false /\
                     org_matches (Some n) org = false) orgs ->
  (orgId s <> JUndefined ->
   _check_org_info ea ep orgs (Some n) s = (Ok tt, s)) /\
  (orgId s = JUndefined ->
   _check_org_info ea ep orgs (Some n) s
   = (Throw (Error ("Organization " ++ n ++ " not found. Must be one of " ++
                    String.concat ", "
                      (map join_element (map (member "name") orgs)))), s)) /\
  _check_org_info ea ep orgs (Some n) (resetLoginInfo s)
  = (Ok tt, resetLoginInfo s).
Proof using.
  intros Hne Hall.
  assert (Hloop : forall s0,
    check_org_loop ea ep (Some n) orgs s0 = (Ok tt, s0)).
  { intros s0. rewrite <- (app_nil_r orgs).
    now rewrite check_org_loop_skips. }
  assert (Hnames : org_names orgs = Ok (map (member "name") orgs)).
  { apply org_names_Ok. eapply Forall_impl; [|exact Hall].
    now intros org [H _]. }
  assert (Hrun : forall s0,
    _check_org_info ea ep orgs (Some n) s0
    = match orgId s0 with
      | JUndefined =>
          (Throw (Error ("Organization " ++ n ++
                         " not found. Must be one of " ++
                         String.concat ", "
                           (map join_element (map (member "name") orgs)))),
           s0)
      | _ => (Ok tt, s0)
      end).
  { intros s0. unfold _check_org_info.
    destruct orgs as [|x l]; [now elim Hne|].
    unfold bind at 1. rewrite Hloop.
    unfold bind at 1, gets at 1.
    destruct (orgId s0); try reflexivity.
    unfold bind, lift, throw. now rewrite Hnames. }
  split; [|split].
  - intros Hid. rewrite Hrun. destruct (orgId s); try reflexivity.
    now elim Hid.
  - intros Hid. rewrite Hrun. now rewrite Hid.
  - rewrite Hrun. reflexivity.
Qed.

(** X19.  The connections of the state are created once.  [apiConn()]
    throws, and changes nothing, exactly when no connection is cached
    and [apiUrl] is falsy.  When it returns, the connection is the
    cached one, or a new one to [apiUrl] with no token and no header;
    it is cached, so a second call returns the same connection and
    changes nothing.  [proxyConn()] is [apiConn()] when [proxyUrl] is
    falsy. *)
Theorem apiConn_cached (s : LoginState) :
  (isThrow (fst (BraintrustState_apiConn s)) = true <->
   _apiConn s = None /\ truthy (apiUrl s) = false) /\
  (isThrow (fst (BraintrustState_apiConn s)) = true ->
   snd (BraintrustState_apiConn s) = s) /\
  (forall c s',
     BraintrustState_apiConn s = (Ok c, s') ->
     _apiConn s' = Some c /\
     BraintrustState_apiConn s' = (Ok c, s') /\
     (_apiConn s = None ->
      c = {| base_url := apiUrl s; token := None; headers := [] |})) /\
  (truthy (proxyUrl s) = false ->
   BraintrustState_proxyConn s = BraintrustState_apiConn s).
Proof using.
  split; [|split; [|split]].
  - unfold BraintrustState_apiConn. run. cbv beta iota zeta.
    destruct (_apiConn s) as [c0|]; cbn [fst isThrow isOk negb].
    + split; [discriminate | now intros [H _]].
    + destruct (truthy (apiUrl s)); cbn [fst isThrow isOk negb].
      * split; [discriminate | now intros [_ H]].
      * now split.
  - unfold BraintrustState_apiConn. run. cbv beta iota zeta.
    destruct (_apiConn s) as [c0|]; cbn [fst snd isThrow isOk negb];
      [discriminate|].
    destruct (truthy (apiUrl s)); cbn [fst snd isThrow isOk negb];
      [discriminate | reflexivity].
  - intros c s'. unfold BraintrustState_apiConn. run. cbv beta iota zeta.
    destruct (_apiConn s) as [c0|] eqn:Hc.
    + intros [= <- <-]. rewrite Hc. now repeat split.
    + destruct (truthy (apiUrl s)); [|discriminate].
      intros [= <- <-]. cbn [_apiConn set__apiConn]. now repeat split.
  - intros Hp. unfold BraintrustState_proxyConn. run. cbv beta iota zeta.
    now rewrite Hp.
Qed.

(** What [set_token] leaves in a connection. *)
Lemma set_token_headers (t : string) (c : ConnState) :
  set_token t c
  = {| base_url := base_url c; token := Some (trim t);
       headers := if trim t =? "" then []
                  else [("Authorization", "Bearer " ++ trim t)] |}.
Proof using.
  unfold set_token, HTTPConnection_reset, sanitize_token.
  cbn [token base_url headers]. now destruct (trim t).
Qed.

(** X20.  [serialize] and [deserialize] are inverse on the login
    fields.  When [serialize] returns the object [d] for a state whose
    login token is a string [t], [deserialize] of [d] returns a state
    that is logged in, has the same login fields, and serializes to
    [d] again; its API, app and proxy connections go to [apiUrl],
    [appUrl] and [proxyUrl] and carry the trimmed token (as
    [Authorization: Bearer], unless the token trims to nothing). *)
Theorem serialize_deserialize (s : LoginState) (d : JsObject) (t : string) :
  BraintrustState_serialize s = Ok d ->
  loginToken s = JStr t ->
  let conn url :=
    Some {| base_url := url; token := Some (trim t);
            headers := if trim t =? "" then []
                       else [("Authorization", "Bearer " ++ trim t)] |} in
  exists s',
    BraintrustState_deserialize (inr d) = Ok s' /\
    BraintrustState_serialize s' = Ok d /\
    loggedIn s' = true /\
    _apiConn s' = conn (apiUrl s) /\
    _appConn s' = conn (appUrl s) /\
    _proxyConn s' = conn (proxyUrl s).
Proof using.
  intros Hser Htok conn. unfold BraintrustState_serialize in Hser.
  destruct (loggedIn s) eqn:Hlogged; [|discriminate].
  cbn [negb] in Hser. rewrite orb_false_r in Hser.
  destruct (truthy (appUrl s)) eqn:H1; [|discriminate].
  destruct (truthy (appPublicUrl s)) eqn:H2; [|discriminate].
  destruct (truthy (apiUrl s)) eqn:H3; [|discriminate].
  destruct (truthy (proxyUrl s)) eqn:H4; [|discriminate].
  destruct (truthy (orgName s)) eqn:H5; [|discriminate].
  destruct (truthy (loginToken s)) eqn:H6; [|discriminate].
  cbn [negb orb] in Hser. injection Hser as <-.
  unfold BraintrustState_deserialize.
  cbn [prop obj_get String.eqb Ascii.eqb Bool.eqb loginToken proxyUrl].
  rewrite H6. cbn [negb]. rewrite H4.
  unfold BraintrustState_apiConn, BraintrustState_appConn,
    BraintrustState_proxyConn.
  run. cbv beta iota zeta.
  cbn [_apiConn _appConn _proxyConn apiUrl appUrl proxyUrl set__apiConn
       set__appConn set__proxyConn fst snd].
  rewrite H3. cbn [fst snd]. rewrite Htok. cbn [token_string].
  cbn [_appConn set__apiConn appUrl]. rewrite H1.
  cbn [proxyUrl set__appConn set__apiConn]. rewrite H4. cbn [negb].
  cbn [_proxyConn set__appConn set__apiConn set__proxyConn proxyUrl].
  rewrite H4. cbn [negb].
  cbn [_proxyConn set__appConn set__apiConn set__proxyConn proxyUrl].
  eexists. split; [reflexivity|].
  unfold BraintrustState_serialize, make_long_lived, HTTPConnection_new.
  cbn [set_loggedIn set__appConn set__apiConn set__proxyConn
       loggedIn appUrl appPublicUrl apiUrl proxyUrl orgName loginToken
       orgId gitMetadataSettings _apiConn _appConn _proxyConn negb].
  rewrite H1, H2, H3, H4, H5, <- Htok, H6. cbn [negb orb].
  split; [reflexivity|]. split; [reflexivity|].
  subst conn. cbv beta. rewrite !set_token_headers.
  unfold HTTPConnection_reset. cbn [base_url token headers].
  repeat split; destruct (trim t); reflexivity.
Qed.

(** * Fetched objects *)

(** The value of the constant [TRANSACTION_ID_FIELD] of
    @braintrust/core. *)
Definition TRANSACTION_ID_FIELD : string := "_xact_id".

(** [String(record[TRANSACTION_ID_FIELD] ?? "0")] *)
Definition xact_id (record : JsValue) : Result string :=
  rbind (read_property TRANSACTION_ID_FIELD record) (fun v =>
    Ok (match v with
        | JUndefined | JNull => "0"
        | JStr s => s
        | _ => String_of v
        end)).

(** The loop of [ObjectFetcher.version]; [a > b] on strings compares
    them character by character. *)
Fixpoint version_loop (records : list JsValue) (maxVersion : option string)
  : Result (option string) :=
  match records with
  | [] => Ok maxVersion
  | record :: rest =>
      rbind (xact_id record) (fun xactId =>
        version_loop rest
          (match maxVersion with
           | None => Some xactId
           | Some m => if m <? xactId then Some xactId else Some m
           end))
  end.

(** [version()], given the records [fetchedData()] returns. *)
Definition ObjectFetcher_version (pinnedVersion : option string)
  (fetchedData : list JsValue) : Result (option string) :=
  match pinnedVersion with
  | Some v => Ok (Some v)
  | None => version_loop fetchedData None
  end.

Fixpoint xact_ids (records : list JsValue) : Result (list string) :=
  match records with
  | [] => Ok []
  | r :: rest =>
      rbind (xact_id r) (fun x =>
        rbind (xact_ids rest) (fun xs => Ok (x :: xs)))
  end.

Lemma string_compare_refl (s : string) : (s ?= s) = Eq.
Proof using.
  induction s as [|a s IH]; [reflexivity|]. simpl.
  unfold Ascii.compare. now rewrite N.compare_refl.
Qed.

Lemma string_leb_refl (s : string) : (s <=? s) = true.
Proof using. unfold String.leb. now rewrite string_compare_refl. Qed.

Lemma string_ltb_leb (a b : string) : (a <? b) = true -> (a <=? b) = true.
Proof using.
  unfold String.ltb, String.leb. now destruct (a ?= b).
Qed.

Lemma string_not_ltb_leb (a b : string) :
  (a <? b) = false -> (b <=? a) = true.
Proof using.
  unfold String.ltb, String.leb. rewrite (String.compare_antisym b a).
  now destruct (a ?= b).
Qed.

Lemma string_leb_trans (a b c : string) :
  (a <=? b) = true -> (b <=? c) = true -> (a <=? c) = true.
Proof using.
  unfold String.leb. revert b c.
  induction a as [|x a IH]; intros [|y b] [|z c]; simpl; try easy.
  unfold Ascii.compare.
  destruct (N.compare_spec (N_of_ascii x) (N_of_ascii y)) as [Hxy|Hxy|Hxy];
    destruct (N.compare_spec (N_of_ascii y) (N_of_ascii z)) as [Hyz|Hyz|Hyz];
    destruct (N.compare_spec (N_of_ascii x) (N_of_ascii z)) as [Hxz|Hxz|Hxz];
    try easy; try lia.
  apply IH.
Qed.

(** X21.  The version of a fetched object.  A pinned version is
    returned as it is.  Otherwise [version()] of records none of which
    is [null] or [undefined] is [undefined] when there is no record,
    and else the greatest transaction id of the records in the order of
    strings: it is the id of one of the records and no id is above it.
    The order is the character-by-character one, not the numeric
    one. *)
Theorem version_is_greatest (pinned : option string)
  (records : list JsValue) :
  (forall v, pinned = Some v ->
     ObjectFetcher_version pinned records = Ok (Some v)) /\
  (pinned = None ->
   Forall (fun r => nullish r = false) records ->
   exists ids,
     xact_ids records = Ok ids /\
     match ids with
     | [] => ObjectFetcher_version pinned records = Ok None
     | _ :: _ =>
         exists m,
           ObjectFetcher_version pinned records = Ok (Some m) /\
           In m ids /\
           Forall (fun x => (x <=? m) = true) ids
     end).
Proof using.
  split; [now intros v ->|].
  intros -> Hall. unfold ObjectFetcher_version.
  assert (Hid : forall r, nullish r = false -> exists x, xact_id r = Ok x).
  { intros r Hr. unfold xact_id. rewrite read_property_Ok by exact Hr.
    cbn [rbind]. eauto. }
  assert (Hloop : forall recs, Forall (fun r => nullish r = false) recs ->
    forall m, exists ids m',
      xact_ids recs = Ok ids /\
      version_loop recs (Some m) = Ok (Some m') /\
      In m' (m :: ids) /\ Forall (fun x => (x <=? m') = true) (m :: ids)).
  { induction recs as [|r recs IH]; intros Hrecs m.
    - exists [], m. cbn. repeat split; auto.
      constructor; [apply string_leb_refl | constructor].
    - inversion Hrecs as [|? ? Hr Hrest]; subst.
      destruct (Hid r Hr) as [x Hx]. cbn [xact_ids version_loop].
      rewrite Hx. cbn [rbind].
      destruct (IH Hrest (if m <? x then x else m))
        as [ids [m' [Hids [Hrun [Hin Hle]]]]].
      exists (x :: ids), m'. rewrite Hids. cbn [rbind].
      split; [reflexivity|].
      split; [destruct (m <? x); exact Hrun|].
      inversion Hle as [|? ? Hhd Htl]; subst.
      destruct (m <? x) eqn:Hlt.
      + split; [destruct Hin as [<-|Hin]; [right; now left | now do 2 right]|].
        constructor; [|constructor; assumption].
        eapply string_leb_trans; [apply string_ltb_leb; exact Hlt | exact Hhd].
      + split; [destruct Hin as [<-|Hin]; [now left | now do 2 right]|].
        constructor; [exact Hhd|]. constructor; [|exact Htl].
        eapply string_leb_trans; [apply string_not_ltb_leb; exact Hlt
                                 | exact Hhd]. }
  destruct records as [|r recs].
  - exists []. split; reflexivity.
  - inversion Hall as [|? ? Hr Hrest]; subst.
    destruct (Hid r Hr) as [x Hx].
    destruct (Hloop recs Hrest x) as [ids [m' [Hids [Hrun [Hin Hle]]]]].
    exists (x :: ids). cbn [xact_ids version_loop]. rewrite Hx, Hids.
    cbn [rbind]. split; [reflexivity|].
    exists m'. now repeat split.
Qed.

(** ** The records of a toplevel [log] *)

Lemma SpanImpl_new_queued (args : SpanImplArgs) (w w' : World)
  (sp : SpanImpl) :
  queueDropExceedingMaxsize (bgLogger w) = None ->
  SpanImpl_new args w = (Ok sp, w') ->
  exists rec,
    pending (bgLogger w') = (pending (bgLogger w) ++ [rec])%list /\
    prop IS_MERGE_FIELD (partialRecord rec) = JBool false /\
    same_config (bgLogger w) (bgLogger w').
Proof.
  intros Hmax Hnew.
  destruct (SpanImpl_new_Ok _ _ _ _ Hnew)
    as [k [w0 [this [internal [data
         [_ [_ [Hbg [_ [_ [_ [Hmerge [Hid [_ [_ Hlog]]]]]]]]]]]]]]].
  assert (Hmax0 : queueDropExceedingMaxsize (bgLogger w0) = None)
    by now rewrite Hbg.
  destruct (BackgroundLogger_log_unbounded
              [{| partialRecord := buildPartialRecord this data;
                  recordObjectType := parentObjectType this;
                  recordObjectId := parentObjectId this |}] w0 Hmax0)
    as [w1 [Hrun1 [Hpend [Hcfg _]]]].
  rewrite Hlog in Hrun1. injection Hrun1 as <-.
  eexists. split; [rewrite Hpend, Hbg; reflexivity|].
  split; [|now rewrite <- Hbg].
  cbn [partialRecord]. rewrite buildPartialRecord_merge.
  unfold same_identity in Hid. cbn in Hid. congruence.
Qed.

Lemma SpanImpl_end_queued (endTime : option JsValue) (sp sp' : SpanImpl)
  (w w' : World) (t : JsValue) :
  queueDropExceedingMaxsize (bgLogger w) = None ->
  SpanImpl_end endTime (sp, w) = (Ok t, (sp', w')) ->
  exists rec,
    pending (bgLogger w') = (pending (bgLogger w) ++ [rec])%list /\
    prop IS_MERGE_FIELD (partialRecord rec) = JBool (isMerge sp) /\
    same_config (bgLogger w) (bgLogger w').
Proof.
  intros Hmax. unfold SpanImpl_end.
  run. cbv beta iota zeta. cbn [fst snd].
  unfold getCurrentUnixTimestamp.
  destruct (end_not_logged sp); [destruct (nullish_or endTime)|];
    cbn [fst snd];
    match goal with
    | |- context [logInternal ?e ?i ?s] =>
        destruct (logInternal e i s) as [[[]|err] [sp1 w1]] eqn:Hl
    end; try discriminate; intros [= _ <- <-];
    apply logInternal_Ok in Hl; destruct Hl as [data [_ [_ Hlog]]];
    match type of Hlog with
    | BackgroundLogger_log ?l ?s = _ =>
        destruct (BackgroundLogger_log_unbounded l s Hmax)
          as [w2 [Hrun2 [Hpend [Hcfg _]]]]
    end;
    rewrite Hlog in Hrun2; injection Hrun2 as <-;
    eexists; (split; [exact Hpend|]);
    (split; [apply buildPartialRecord_merge | exact Hcfg]).
Qed.

(** Starting a pass moves the queue into the pass: the records the
    logger holds are the same. *)
Lemma triggerActiveFlush_pending (w : World) :
  fst (triggerActiveFlush w) = Ok tt /\
  pending (bgLogger (snd (triggerActiveFlush w))) = pending (bgLogger w).
Proof.
  unfold triggerActiveFlush, drain, activeFlushResolved, pending.
  run. cbv beta iota zeta.
  destruct (activeFlush (bgLogger w)) eqn:Haf; cbn; rewrite ?Haf;
    [split; reflexivity|].
  split; [reflexivity | now rewrite app_nil_r].
Qed.

(** X22.  A toplevel [Logger.log] is a span that is created and ended
    at once.  On a logger with no maximum queue size, a call that
    returns has queued exactly two records, after those the logger
    held: the first creates the row (it is not a merge), the second is
    merged into it. *)
Theorem toplevel_log_records (event : JsObject) (allow : bool)
  (lg lg' : Logger) (w w' : World) (id : JsValue) :
  queueDropExceedingMaxsize (bgLogger w) = None ->
  Logger_log event allow (lg, w) = (Ok id, (lg', w')) ->
  exists rec1 rec2,
    pending (bgLogger w') = (pending (bgLogger w) ++ [rec1; rec2])%list /\
    prop IS_MERGE_FIELD (partialRecord rec1) = JBool false /\
    prop IS_MERGE_FIELD (partialRecord rec2) = JBool true.
Proof.
  intros Hmax. unfold Logger_log, Logger_startSpanImpl.
  run. cbv beta iota zeta. cbn [fst snd].
  destruct (logger_calledStartSpan lg && negb allow); [discriminate|].
  cbn [startSpanParentArgs with_event_and_startTime arg_parent no_args
       fst snd].
  match goal with
  | |- context [SpanImpl_new ?a w] =>
      destruct (SpanImpl_new a w) as [[sp|err] w1] eqn:Hnew
  end; [|discriminate].
  cbn [fst snd].
  destruct (SpanImpl_end None (sp, w1)) as [[t|err] [sp2 w2]] eqn:Hend;
    [|discriminate].
  destruct (SpanImpl_new_queued _ _ _ _ Hmax Hnew) as [rec1 [Hp1 [Hm1 Hc1]]].
  assert (Hmerge : isMerge sp = true).
  { destruct (SpanImpl_new_Ok _ _ _ _ Hnew)
      as [? [? [? [? [? [_ [_ [_ [_ [_ [_ [H _]]]]]]]]]]]]. exact H. }
  assert (Hmax1 : queueDropExceedingMaxsize (bgLogger w1) = None).
  { unfold same_config, config in Hc1. congruence. }
  destruct (SpanImpl_end_queued _ _ _ _ _ _ Hmax1 Hend)
    as [rec2 [Hp2 [Hm2 _]]].
  rewrite Hmerge in Hm2.
  assert (Hpend : pending (bgLogger w2)
                  = (pending (bgLogger w) ++ [rec1; rec2])%list).
  { rewrite Hp2, Hp1. now rewrite <- app_assoc. }
  cbn [fst snd logger_asyncFlush].
  destruct (triggerActiveFlush_pending w2) as [Hok Hkeep].
  destruct (triggerActiveFlush w2) as [[[]|e] w3] eqn:Htrig;
    cbn [fst snd] in Hok, Hkeep; try discriminate.
  destruct (logger_asyncFlush lg) as [[|]|];
    cbn [fst snd];
    try (destruct (syncFlush (bgLogger w2)));
    cbn [fst snd]; rewrite ?Htrig; cbn [fst snd];
    intros H; injection H as <- <- <-; exists rec1, rec2;
    (split; [first [exact Hpend | now rewrite Hkeep]|]);
    (split; [exact Hm1 | exact Hm2]).
Qed.

End Logger.

(** * An instance of the parameters

    The definitions of the section, run on concrete inputs.  The
    functions below stand for the imported helpers only here: they are
    one choice that meets the assumptions made above. *)

Module Sample.

(** Identifiers that differ from one draw to the next. *)
Fixpoint uuid_at (n : nat) : string :=
  match n with
  | O => "id"
  | S n' => String "i" (uuid_at n')
  end.

(** A clock that advances by one second at each reading. *)
Definition time_at (n : nat) : float :=
  (1700000000 + PrimFloat.of_uint63 (Uint63.of_Z (Z.of_nat n)))%float.

(** A shallow merge. *)
Definition mergeDicts (into from : JsObject) : JsObject :=
  match into, from with
  | [], _ => from
  | _, [] => into
  | _, _ => obj_spread into from
  end.

Definition mergeRowBatch (rows : list JsValue) : list (list JsValue) :=
  match rows with
  | [] => []
  | _ :: _ => [rows]
  end.

Definition batchItems (buckets : list (list string)) (maxItems maxBytes : Z)
  : list (list (list string)) :=
  map (fun bucket => [bucket]) buckets.

Definition stringify (v : JsValue) : string :=
  match v with
  | JStr s => s
  | _ => "{}"
  end.

Definition constructJsonArray (l : list string) : string :=
  "[" ++ String.concat "," l ++ "]".

Definition legacyEvent (s : string) : Result string := Ok s.

Definition objectIdFields (t : SpanObjectTypeV2) (id : string) : JsObject :=
  match t with
  | EXPERIMENT => [("experiment_id", JStr id)]
  | PROJECT_LOGS => [("project_id", JStr id); ("log_id", JStr "g")]
  end.

Definition isEmpty (v : JsValue) : bool := nullish v.

Definition fromStr (s : string) : Result SpanComponentsV2 :=
  Throw (Error "not a span token").

Definition project_id (args : JsObject) : Result string := Ok "project".

Definition toISOString (t : float) : string := "2023-11-14T22:13:20.000Z".

(** A server that answers every request with HTTP 500. *)
Definition failing : HTTPConnection :=
  {| post_json := fun _ _ _ =>
       Throw (FailedHTTPResponse 500 "Internal Server Error" "") |}.

Definition world (env : Env) : World :=
  {| bgLogger := BackgroundLogger_new {| get := Ok failing |} env;
     trace := []; dumps := []; uuidCount := 0; clockCount := 0;
     executionCounter := 0 |}.

(** A record whose parent object resolves and one whose parent object
    cannot be resolved. *)
Definition good : LazyRecord :=
  {| partialRecord := [("input", JStr "q")];
     recordObjectType := PROJECT_LOGS;
     recordObjectId := {| get := Ok "project" |} |}.

Definition bad : LazyRecord :=
  {| partialRecord := [("input", JStr "r")];
     recordObjectType := PROJECT_LOGS;
     recordObjectId := {| get := Throw (Error "no such project") |} |}.

Definition max_queue (m : Z) : Env :=
  {| BRAINTRUST_SYNC_FLUSH := None;
     BRAINTRUST_DEFAULT_BATCH_SIZE := None;
     BRAINTRUST_MAX_REQUEST_SIZE := None;
     BRAINTRUST_NUM_RETRIES := None;
     BRAINTRUST_QUEUE_DROP_EXCEEDING_MAXSIZE := Some m;
     BRAINTRUST_QUEUE_DROP_LOGGING_PERIOD := None;
     BRAINTRUST_FAILED_PUBLISH_PAYLOADS_DIR := None;
     BRAINTRUST_ALL_PUBLISH_PAYLOADS_DIR := None |}.

Definition sync_flush : Env :=
  {| BRAINTRUST_SYNC_FLUSH := Some 1%Z;
     BRAINTRUST_DEFAULT_BATCH_SIZE := None;
     BRAINTRUST_MAX_REQUEST_SIZE := None;
     BRAINTRUST_NUM_RETRIES := None;
     BRAINTRUST_QUEUE_DROP_EXCEEDING_MAXSIZE := None;
     BRAINTRUST_QUEUE_DROP_LOGGING_PERIOD := None;
     BRAINTRUST_FAILED_PUBLISH_PAYLOADS_DIR := None;
     BRAINTRUST_ALL_PUBLISH_PAYLOADS_DIR := None |}.

Definition sync_max_queue (m : Z) : Env :=
  {| BRAINTRUST_SYNC_FLUSH := Some 1%Z;
     BRAINTRUST_DEFAULT_BATCH_SIZE := None;
     BRAINTRUST_MAX_REQUEST_SIZE := None;
     BRAINTRUST_NUM_RETRIES := None;
     BRAINTRUST_QUEUE_DROP_EXCEEDING_MAXSIZE := Some m;
     BRAINTRUST_QUEUE_DROP_LOGGING_PERIOD := None;
     BRAINTRUST_FAILED_PUBLISH_PAYLOADS_DIR := None;
     BRAINTRUST_ALL_PUBLISH_PAYLOADS_DIR := None |}.


(** A root span of the project log that has not ended. *)
Definition span : SpanImpl :=
  {| isMerge := true;
     loggedEndTime := None;
     parentObjectType := PROJECT_LOGS;
     parentObjectId := {| get := Ok "project" |};
     parentComputeObjectMetadataArgs := None;
     _id := JStr "row";
     spanId := "span";
     rootSpanId := "span";
     spanParents := None |}.

(** The constructor arguments of a root span of the project log. *)
Definition root_args : SpanImplArgs :=
  {| new_parentObjectType := PROJECT_LOGS;
     new_parentObjectId := {| get := Ok "project" |};
     new_parentComputeObjectMetadataArgs := None;
     new_parentSpanIds := None;
     new_defaultRootType := Some "task";
     new_args := no_args |}.

Lemma uuid_at_length (n : nat) : String.length (uuid_at n) = S (S n).
Proof. induction n as [|n IH]; simpl; [reflexivity | now rewrite IH]. Qed.

Lemma uuid_at_injective (i j : nat) : uuid_at i = uuid_at j -> i = j.
Proof.
  intros H. apply (f_equal String.length) in H.
  rewrite !uuid_at_length in H. now injection H.
Qed.

Lemma mergeDicts_empty_l (o : JsObject) : mergeDicts [] o = o.
Proof. reflexivity. Qed.

Lemma mergeDicts_empty_r (o : JsObject) : mergeDicts o [] = o.
Proof. now destruct o. Qed.

Lemma mergeDicts_has (a b : JsObject) (k : string) :
  obj_has k (mergeDicts a b) = true ->
  obj_has k a = true \/ obj_has k b = true.
Proof.
  unfold mergeDicts. destruct a as [|x a]; [now right|].
  destruct b as [|y b]; [now left|]. apply obj_get_spread_has.
Qed.


End Sample.

(** ** The claims on concrete inputs *)

(** 250 records logged one call at a time against an empty queue with
    a maximum queue size of 100.  In synchronous-flush mode 100 are
    kept and 150 are counted as dropped; in asynchronous mode 101 are
    kept and 149 are counted as dropped. *)
Lemma log_drops_overflow_witness :
  let records := repeat Sample.good 250 in
  let ws := log_each Sample.time_at records
              (Sample.world (Sample.sync_max_queue 100)) in
  let wa := log_each Sample.time_at records
              (Sample.world (Sample.max_queue 100)) in
  (List.length (pending (bgLogger ws)) = 100 /\
   accounted_dropped ws = 150%Z) /\
  (List.length (items (bgLogger wa)) = 100 /\
   List.length (pending (bgLogger wa)) = 101 /\
   accounted_dropped wa = 149%Z).
Proof.
  intros records ws wa. split.
  - destruct (log_drops_overflow Sample.time_at []
                (Sample.world (Sample.sync_max_queue 100)) 100 eq_refl)
      as [_ [_ [_ [_ H]]]].
    destruct (H records eq_refl eq_refl eq_refl) as [Hs _].
    destruct (Hs eq_refl) as [_ [Hl Ha]].
    split; [exact Hl | exact Ha].
  - destruct (log_drops_overflow Sample.time_at []
                (Sample.world (Sample.max_queue 100)) 100 eq_refl)
      as [_ [_ [_ [_ H]]]].
    destruct (H records eq_refl eq_refl eq_refl) as [_ Ha].
    destruct (Ha eq_refl eq_refl) as [_ [Hi [Hl Hd]]].
    split; [|split; [exact Hl | exact Hd]].
    fold wa in Hi. rewrite Hi. reflexivity.
Defined.

(** The scenario of the claim in the default, asynchronous, mode: the
    250 records logged one call at a time, with no flush pass
    completing in between.  The first call starts a pass that drains
    its record at once and the queue fills after it, so the logger
    holds 101 records to flush, not at most 100, and has counted 149 as
    dropped, not 150. *)
Lemma log_one_at_a_time :
  let w := log_each Sample.time_at (repeat Sample.good 250)
             (Sample.world (Sample.max_queue 100)) in
  syncFlush (bgLogger w) = false /\
  List.length (items (bgLogger w)) = 100 /\
  List.length (pending (bgLogger w)) = 101 /\
  accounted_dropped w = 149%Z.
Proof. vm_compute. repeat split. Qed.



(** A drained batch of two records, the second of which cannot be
    resolved, in asynchronous mode with the default number of tries:
    three tries, three delays, no post, and the pass ends without an
    error. *)
Lemma unwrap_retries_witness :
  let w := Sample.world no_env in
  let wrapped := [Sample.good; Sample.bad] in
  let w' := snd (unwrapLazyValues Sample.mergeRowBatch Sample.objectIdFields
                   wrapped w) in
  exists effs,
    trace w' = (trace w ++ effs)%list /\
    count is_try_warning effs = 3 /\
    count is_sleep effs = 3 /\
    count is_post effs = 0 /\
    flushOnce_resume Sample.time_at Sample.mergeRowBatch Sample.batchItems
      Sample.stringify Sample.constructJsonArray Sample.legacyEvent
      Sample.objectIdFields true 1 [] wrapped w
    = Some (Ok tt, w').
Proof.
  intros w wrapped w'.
  destruct (unwrap_retries Sample.time_at Sample.mergeRowBatch
              Sample.batchItems Sample.stringify Sample.constructJsonArray
              Sample.legacyEvent Sample.objectIdFields true wrapped
              (Error "no such project") w eq_refl)
    as [_ [_ [_ [effs [Htr [Htries [Hposts [Hasync _]]]]]]]].
  destruct (Hasync eq_refl) as [_ [Hsleep [_ Hpass]]].
  exists effs. split; [exact Htr|]. split; [exact Htries|].
  split; [exact Hsleep|]. split; [exact Hposts|]. exact (Hpass 0).
Defined.

(** The first record of that batch resolves; it is dropped with the
    batch all the same.  After [log([good, bad])] and the pass it starts,
    nothing has been posted, no record is left in the logger and the
    flush has no error.  In synchronous-flush mode the last try rethrows
    instead, and [flush()] fails with the rejection. *)
Lemma resolved_record_dropped :
  let run_flush :=
    BackgroundLogger_flush Sample.time_at Sample.mergeRowBatch
      Sample.batchItems Sample.stringify Sample.constructJsonArray
      Sample.legacyEvent Sample.objectIdFields true 1 [] in
  let logged env :=
    snd (BackgroundLogger_log Sample.time_at [Sample.good; Sample.bad]
           (Sample.world env)) in
  isOk (computeRecord Sample.objectIdFields Sample.good) = true /\
  (exists w',
     run_flush (logged no_env) = Some (Ok tt, w') /\
     count is_post (trace w') = 0 /\
     pending (bgLogger w') = [] /\
     In (WarnGaveUp
           "Failed to construct log records to flush. Dropping batch" 3)
        (trace w')) /\
  (exists w',
     run_flush (logged Sample.sync_flush)
     = Some (Throw (Error "no such project"), w') /\
     count is_post (trace w') = 0 /\
     pending (bgLogger w') = []).
Proof.
  cbv zeta. split; [reflexivity|]. split.
  - let v := eval vm_compute in
      (BackgroundLogger_flush Sample.time_at Sample.mergeRowBatch
         Sample.batchItems Sample.stringify Sample.constructJsonArray
         Sample.legacyEvent Sample.objectIdFields true 1 []
         (snd (BackgroundLogger_log Sample.time_at [Sample.good; Sample.bad]
                 (Sample.world no_env)))) in
    match v with
    | Some (_, ?s) => exists s
    end.
    vm_compute. repeat split. do 9 right. now left.
  - let v := eval vm_compute in
      (BackgroundLogger_flush Sample.time_at Sample.mergeRowBatch
         Sample.batchItems Sample.stringify Sample.constructJsonArray
         Sample.legacyEvent Sample.objectIdFields true 1 []
         (snd (BackgroundLogger_log Sample.time_at [Sample.good; Sample.bad]
                 (Sample.world Sample.sync_flush)))) in
    match v with
    | Some (_, ?s) => exists s
    end.
    vm_compute. repeat split.
Qed.

(** A span ended twice: both calls return the first reading of the
    clock, the first queues the record with [metrics.end], the second
    queues a record without metrics and does not read the clock. *)
Lemma end_twice_witness :
  let w := Sample.world no_env in
  let x := Sample.time_at 0 in
  exists sp1 w1 w2,
    SpanImpl_end Sample.time_at Sample.mergeDicts None (Sample.span, w)
    = (Ok (JNum x), (sp1, w1)) /\
    SpanImpl_end Sample.time_at Sample.mergeDicts None (sp1, w1)
    = (Ok (JNum x), (sp1, w2)) /\
    loggedEndTime sp1 = Some (JNum x) /\
    clockCount w2 = clockCount w1.
Proof.
  intros w x.
  destruct (end_twice Sample.time_at Sample.mergeDicts
              Sample.mergeDicts_empty_l Sample.mergeDicts_empty_r
              Sample.span w None None x eq_refl eq_refl eq_refl)
    as [sp1 [w1 [rec1 [w2 [rec2 [H1 [_ [_ [Hl [H2 [_ [_ Hc]]]]]]]]]]]].
  { repeat split; reflexivity. }
  exists sp1, w1, w2. repeat split; assumption.
Defined.

(** The second [end()] is not a no-op: it queues a second record. *)
Lemma second_end_enqueues :
  let w := Sample.world no_env in
  exists t sp1 w1 w2,
    SpanImpl_end Sample.time_at Sample.mergeDicts None (Sample.span, w)
    = (Ok t, (sp1, w1)) /\
    SpanImpl_end Sample.time_at Sample.mergeDicts None (sp1, w1)
    = (Ok t, (sp1, w2)) /\
    List.length (pending (bgLogger w)) = 0 /\
    List.length (pending (bgLogger w1)) = 1 /\
    List.length (pending (bgLogger w2)) = 2.
Proof.
  cbv zeta. eexists. eexists. eexists. eexists.
  split; [reflexivity|]. split; [reflexivity|].
  split; [reflexivity|]. split; reflexivity.
Qed.

(** A root span [A] and its child [B = A.startSpan()]: [A] is its own
    root and has no parents; [B] has the root of [A], the one parent [A]
    and a span id of its own, and so has the record [B] queues. *)
Lemma span_identity_witness :
  let w := Sample.world no_env in
  exists A w1 B A' w2,
    SpanImpl_new Sample.uuid_at Sample.time_at Sample.mergeDicts None
      Sample.toISOString Sample.root_args w = (Ok A, w1) /\
    rootSpanId A = spanId A /\
    spanParents A = None /\
    SpanImpl_startSpan Sample.uuid_at Sample.time_at Sample.mergeDicts
      Sample.fromStr Sample.project_id None Sample.toISOString
      no_args (A, w1) = (Ok B, (A', w2)) /\
    rootSpanId B = rootSpanId A /\
    spanParents B = Some [spanId A] /\
    rootSpanId B <> spanId B /\
    exists rec,
      pending (bgLogger w2) = (pending (bgLogger w1) ++ [rec])%list /\
      prop "root_span_id" (partialRecord rec) = JStr (rootSpanId A) /\
      prop "span_parents" (partialRecord rec) = str_array [spanId A].
Proof.
  intros w.
  destruct (span_identity Sample.uuid_at Sample.time_at Sample.mergeDicts
              Sample.fromStr Sample.project_id None Sample.toISOString
              Sample.mergeDicts_has Sample.uuid_at_injective)
    as [Hnew Hchild].
  let v := eval vm_compute in
    (SpanImpl_new Sample.uuid_at Sample.time_at Sample.mergeDicts None
       Sample.toISOString Sample.root_args w) in
  match v with
  | (Ok ?a, ?s) => pose (A := a); pose (w1 := s)
  end.
  let v := eval vm_compute in
    (SpanImpl_startSpan Sample.uuid_at Sample.time_at Sample.mergeDicts
       Sample.fromStr Sample.project_id None Sample.toISOString
       no_args (A, w1)) in
  match v with
  | (Ok ?b, (?a', ?s)) => pose (B := b); pose (A' := a'); pose (w2 := s)
  end.
  pose (child_args :=
    {| new_parentObjectType := PROJECT_LOGS;
       new_parentObjectId := {| get := Ok "project" |};
       new_parentComputeObjectMetadataArgs := None;
       new_parentSpanIds :=
         Some {| parent_spanId := spanId A;
                 parent_rootSpanId := rootSpanId A |};
       new_defaultRootType := None;
       new_args := no_args |}).
  assert (HA : SpanImpl_new Sample.uuid_at Sample.time_at Sample.mergeDicts
                 None Sample.toISOString Sample.root_args w = (Ok A, w1))
    by reflexivity.
  assert (HB : SpanImpl_startSpan Sample.uuid_at Sample.time_at
                 Sample.mergeDicts Sample.fromStr Sample.project_id None
                 Sample.toISOString no_args (A, w1) = (Ok B, (A', w2)))
    by reflexivity.
  assert (HB' : SpanImpl_new Sample.uuid_at Sample.time_at Sample.mergeDicts
                  None Sample.toISOString child_args w1 = (Ok B, w2))
    by reflexivity.
  destruct (Hnew Sample.root_args w A w1 HA) as [HrootA HparentsA].
  { intros p Hp. discriminate Hp. }
  destruct (Hnew child_args w1 B w2 HB') as [HrootB _].
  { intros p Hp. injection Hp as <-. exists 1. split; [|reflexivity].
    cbn. apply le_n. }
  destruct (Hchild A no_args w1 B A' w2 eq_refl HB) as [Hr [Hp Hrec]].
  exists A, w1, B, A', w2.
  split; [exact HA|].
  split; [apply HrootA; reflexivity|].
  split; [apply HparentsA; reflexivity|].
  split; [exact HB|]. split; [exact Hr|]. split; [exact Hp|].
  split.
  { intros Heq. apply HrootB in Heq. discriminate Heq. }
  apply Hrec; [reflexivity|]. intros key _. reflexivity.
Defined.

(** A fresh logger and a fresh experiment accept a toplevel [log] of a
    valid event; once [startSpan] has been called, and whatever is
    called after it, the same [log] throws and leaves the state as it
    is. *)
Lemma toplevel_log_guard_witness :
  let w := Sample.world no_env in
  let project := {| get := Ok "project" |} in
  let event :=
    [("input", JStr "q"); ("output", JStr "a");
     ("scores", JObj [("exact", JBool true)])] in
  let Llog :=
    Logger_log Sample.uuid_at Sample.time_at Sample.mergeDicts
      Sample.fromStr Sample.project_id None Sample.toISOString in
  let LstartSpan :=
    Logger_startSpan Sample.uuid_at Sample.time_at Sample.mergeDicts
      Sample.fromStr Sample.project_id None Sample.toISOString in
  let Elog :=
    Experiment_log Sample.uuid_at Sample.time_at Sample.mergeDicts
      Sample.isEmpty Sample.fromStr Sample.project_id None
      Sample.toISOString in
  let EstartSpan :=
    Experiment_startSpan Sample.uuid_at Sample.time_at Sample.mergeDicts
      Sample.fromStr Sample.project_id None Sample.toISOString in
  exists lg wl ex we,
    Logger_new Sample.time_at project None None w = (Ok lg, wl) /\
    isOk (fst (Llog event false (lg, wl))) = true /\
    isThrow (fst (Llog event false (snd (LstartSpan no_args (lg, wl)))))
    = true /\
    Experiment_new Sample.time_at project false w = (Ok ex, we) /\
    isOk (fst (Elog event false (ex, we))) = true /\
    isThrow (fst (Elog event false (snd (EstartSpan no_args (ex, we)))))
    = true.
Proof.
  intros w project event Llog LstartSpan Elog EstartSpan.
  destruct (toplevel_log_guard Sample.uuid_at Sample.time_at
              Sample.mergeDicts Sample.isEmpty Sample.fromStr
              Sample.project_id None Sample.toISOString)
    as [Hl [He [Hlnew [Henew [Hlok Heok]]]]].
  let v := eval vm_compute in
    (Logger_new Sample.time_at project None None w) in
  match v with (Ok ?a, ?s) => pose (lg := a); pose (wl := s) end.
  let v := eval vm_compute in
    (Experiment_new Sample.time_at project false w) in
  match v with (Ok ?a, ?s) => pose (ex := a); pose (we := s) end.
  assert (HL : Logger_new Sample.time_at project None None w = (Ok lg, wl))
    by reflexivity.
  assert (HE : Experiment_new Sample.time_at project false w = (Ok ex, we))
    by reflexivity.
  exists lg, wl, ex, we.
  split; [exact HL|].
  split.
  { apply (Hlok event (obj_set "scores" (JObj [("exact", JNum one)]) event)
             false lg wl (Hlnew _ _ _ _ _ _ HL)).
    reflexivity. }
  split.
  { pose proof (Hl no_args [] event (lg, wl)) as H.
    cbv zeta in H. cbn [fold_left] in H.
    subst Llog LstartSpan. cbv beta. now rewrite H. }
  split; [exact HE|].
  split.
  { apply (Heok event (obj_set "scores" (JObj [("exact", JNum one)]) event)
             false ex we (Henew _ _ _ _ _ HE)); reflexivity. }
  pose proof (He no_args [] event (ex, we)) as H.
  cbv zeta in H. cbn [fold_left] in H.
  subst Elog EstartSpan. cbv beta. now rewrite H.
Defined.

(** The record [good] logged while the pass started for [bad] retries:
    when the pass has ended the flush is settled without an error,
    nothing has been posted, and [good] is still in the queue after a
    [flush()] call. *)
Lemma flush_leaves_arrivals_queued_witness :
  let w := Sample.world no_env in
  exists w1 w2,
    BackgroundLogger_log Sample.time_at [Sample.bad] w = (Ok tt, w1) /\
    runActiveFlush Sample.time_at Sample.mergeRowBatch Sample.batchItems
      Sample.stringify Sample.constructJsonArray Sample.legacyEvent
      Sample.objectIdFields true 1 [[[Sample.good]]] w1 = Some w2 /\
    activeFlushResolved (bgLogger w2) = true /\
    items (bgLogger w2) = [Sample.good] /\
    count is_post (trace w2) = 0 /\
    BackgroundLogger_flush Sample.time_at Sample.mergeRowBatch
      Sample.batchItems Sample.stringify Sample.constructJsonArray
      Sample.legacyEvent Sample.objectIdFields true 1 [] w2
    = Some (Ok tt, w2).
Proof.
  intros w.
  destruct (flush_leaves_arrivals_queued Sample.time_at Sample.mergeRowBatch
              Sample.batchItems Sample.stringify Sample.constructJsonArray
              Sample.legacyEvent Sample.objectIdFields true
              Sample.bad Sample.good (Error "no such project") w
              eq_refl eq_refl eq_refl eq_refl eq_refl)
    as [w1 [w2 [Hlog [_ [_ [Hrun [Hres [_ [Hq [Hposts Hflush]]]]]]]]]].
  exists w1, w2.
  split; [exact Hlog|]. split; [exact (Hrun 0)|]. split; [exact Hres|].
  split; [exact Hq|]. split; [exact Hposts|]. exact (Hflush 1 []).
Defined.

(** ** The further properties on concrete inputs *)

(** A logger and an experiment that have not started a span. *)
Definition sample_logger : Logger :=
  {| logger_lazyId := {| get := Ok "project" |};
     logger_asyncFlush := None;
     logger_computeMetadataArgs := None;
     logger_lastStartTime := JNum (Sample.time_at 0);
     logger_calledStartSpan := false |}.

Definition sample_experiment : Experiment :=
  {| experiment_lazyId := {| get := Ok "experiment" |};
     experiment_hasDataset := false;
     experiment_lastStartTime := JNum (Sample.time_at 0);
     experiment_calledStartSpan := false |}.

(** A score of 1.5 logged through a span, a logger and an experiment:
    each call throws and the background logger is as it was. *)
Lemma rejected_event_queues_nothing_witness :
  let w := Sample.world no_env in
  let event :=
    [("input", JStr "q"); ("output", JStr "a");
     ("scores", JObj [("exact", JNum 1.5)])] in
  let e := Error "score values must be between 0 and 1" in
  SpanImpl_log Sample.time_at Sample.mergeDicts event (Sample.span, w)
  = (Throw e, (Sample.span, w)) /\
  (exists w',
     Logger_log Sample.uuid_at Sample.time_at Sample.mergeDicts
       Sample.fromStr Sample.project_id None Sample.toISOString
       event false (sample_logger, w) = (Throw e, (sample_logger, w')) /\
     bgLogger w' = bgLogger w /\ trace w' = trace w) /\
  (exists w',
     Experiment_log Sample.uuid_at Sample.time_at Sample.mergeDicts
       Sample.isEmpty Sample.fromStr Sample.project_id None
       Sample.toISOString event false (sample_experiment, w)
     = (Throw e, (sample_experiment, w')) /\
     bgLogger w' = bgLogger w /\ trace w' = trace w).
Proof.
  intros w event e.
  destruct (rejected_event_queues_nothing Sample.uuid_at Sample.time_at
              Sample.mergeDicts Sample.isEmpty Sample.fromStr
              Sample.project_id None Sample.toISOString event e)
    as [Hspan [Hlogger Hexp]].
  split; [apply Hspan; reflexivity|].
  split; [apply Hlogger; reflexivity|].
  apply (Hexp sample_experiment w false); reflexivity.
Defined.

(** A server that accepts every request, and one that refuses the
    first attempt only. *)
Definition sample_accepting : HTTPConnection :=
  {| post_json := fun _ _ _ => Ok tt |}.

Definition sample_flaky : HTTPConnection :=
  {| post_json := fun _ _ i =>
       if (i <? 1)%Z
       then Throw (FailedHTTPResponse 503 "Service Unavailable" "")
       else Ok tt |}.

Definition sample_world (conn : HTTPConnection) (env : Env) : World :=
  {| bgLogger := BackgroundLogger_new {| get := Ok conn |} env;
     trace := []; dumps := []; uuidCount := 0; clockCount := 0;
     executionCounter := 0 |}.

Definition sample_no_tries : Env :=
  {| BRAINTRUST_SYNC_FLUSH := None;
     BRAINTRUST_DEFAULT_BATCH_SIZE := None;
     BRAINTRUST_MAX_REQUEST_SIZE := None;
     BRAINTRUST_NUM_RETRIES := Some (-1)%Z;
     BRAINTRUST_QUEUE_DROP_EXCEEDING_MAXSIZE := None;
     BRAINTRUST_QUEUE_DROP_LOGGING_PERIOD := None;
     BRAINTRUST_FAILED_PUBLISH_PAYLOADS_DIR := None;
     BRAINTRUST_ALL_PUBLISH_PAYLOADS_DIR := None |}.

(** A span under [Sample.span]. *)
Definition sample_child : SpanImpl :=
  {| isMerge := true;
     loggedEndTime := None;
     parentObjectType := PROJECT_LOGS;
     parentObjectId := {| get := Ok "project" |};
     parentComputeObjectMetadataArgs := None;
     _id := JStr "row2";
     spanId := "child";
     rootSpanId := "span";
     spanParents := Some ["span"] |}.

(** The pass started for [bad], with [good] logged while it runs: the
    flush ends without an error and leaves [good] in the queue, a record
    of the one batch that arrived. *)
Lemma flushOnce_resume_done_witness :
  let w := snd (BackgroundLogger_log Sample.time_at [Sample.bad]
                  (Sample.world no_env)) in
  exists w',
    flushOnce_resume Sample.time_at Sample.mergeRowBatch Sample.batchItems
      Sample.stringify Sample.constructJsonArray Sample.legacyEvent
      Sample.objectIdFields true 1 [[[Sample.good]]] [Sample.bad] w
    = Some (Ok tt, w') /\
    items (bgLogger w') = [Sample.good] /\
    (items (bgLogger w') = [] \/
     exists arrivals,
       In arrivals [[[Sample.good]]] /\
       forall r, In r (items (bgLogger w')) ->
         exists batch, In batch arrivals /\ In r batch).
Proof.
  intros w.
  let v := eval vm_compute in
    (flushOnce_resume Sample.time_at Sample.mergeRowBatch Sample.batchItems
       Sample.stringify Sample.constructJsonArray Sample.legacyEvent
       Sample.objectIdFields true 1 [[[Sample.good]]] [Sample.bad] w) in
  match v with
  | Some (Ok tt, ?s) => pose (w' := s)
  end.
  assert (H : flushOnce_resume Sample.time_at Sample.mergeRowBatch
                Sample.batchItems Sample.stringify Sample.constructJsonArray
                Sample.legacyEvent Sample.objectIdFields true 1
                [[[Sample.good]]] [Sample.bad] w
              = Some (Ok tt, w')) by reflexivity.
  exists w'. split; [exact H|]. split; [reflexivity|].
  exact (flushOnce_resume_done Sample.time_at Sample.mergeRowBatch
           Sample.batchItems Sample.stringify Sample.constructJsonArray
           Sample.legacyEvent Sample.objectIdFields true 1
           [[[Sample.good]]] [Sample.bad] w w' eq_refl H).
Defined.

(** A second [log] while the pass started by the first is in flight. *)
Lemma log_during_flush_witness :
  let w1 := snd (BackgroundLogger_log Sample.time_at [Sample.bad]
                   (Sample.world no_env)) in
  let w2 := snd (BackgroundLogger_log Sample.time_at [Sample.good] w1) in
  items (bgLogger w2) = [Sample.good] /\
  activeFlush (bgLogger w2) = Some [Sample.bad].
Proof.
  intros w1 w2.
  exact (log_during_flush Sample.time_at [Sample.good] [Sample.bad] w1
           eq_refl).
Defined.

(** Synchronous-flush mode, two records queued, one of which cannot be
    resolved: [flush()] throws and nothing is left. *)
Lemma flush_sync_drains_witness :
  let w := snd (BackgroundLogger_log Sample.time_at [Sample.good; Sample.bad]
                  (Sample.world Sample.sync_flush)) in
  List.length (pending (bgLogger w)) = 2 /\
  exists r w',
    BackgroundLogger_flush Sample.time_at Sample.mergeRowBatch
      Sample.batchItems Sample.stringify Sample.constructJsonArray
      Sample.legacyEvent Sample.objectIdFields true 1 [] w = Some (r, w') /\
    pending (bgLogger w') = [] /\
    activeFlushError (bgLogger w') = None.
Proof.
  intros w. split; [reflexivity|].
  destruct (flush_sync_drains Sample.time_at Sample.mergeRowBatch
              Sample.batchItems Sample.stringify Sample.constructJsonArray
              Sample.legacyEvent Sample.objectIdFields true w
              eq_refl eq_refl) as [r [w' [Hrun [Hpend [Herr _]]]]].
  exists r, w'. now repeat split.
Defined.

(** [BRAINTRUST_NUM_RETRIES=-1]: a record that would resolve is given
    up, with a server that would accept it. *)
Lemma no_tries_drops_batch_witness :
  let w := sample_world sample_accepting sample_no_tries in
  numTries (bgLogger w) = 0%Z /\
  isOk (get_all Sample.objectIdFields [Sample.good]) = true /\
  exists w',
    flushOnce_resume Sample.time_at Sample.mergeRowBatch Sample.batchItems
      Sample.stringify Sample.constructJsonArray Sample.legacyEvent
      Sample.objectIdFields true 1 [] [Sample.good] w = Some (Ok tt, w') /\
    count is_post (trace w') = 0.
Proof.
  intros w. split; [reflexivity|]. split; [reflexivity|].
  destruct (no_tries_drops_batch Sample.time_at Sample.mergeRowBatch
              Sample.batchItems Sample.stringify Sample.constructJsonArray
              Sample.legacyEvent Sample.objectIdFields true
              [Sample.good] w 0) as [w' [Hrun [_ Htr]]].
  { cbn. discriminate. }
  exists w'. split; [exact Hrun|]. rewrite Htr. reflexivity.
Defined.

(** A server that refuses the first attempt: two posts to [logs3], one
    delay, no error. *)
Lemma submit_stops_at_success_witness :
  let w := sample_world sample_flaky no_env in
  exists effs w',
    submitLogsRequest Sample.constructJsonArray Sample.legacyEvent true
      ["{}"] w = (Ok tt, w') /\
    trace w' = (trace w ++ effs)%list /\
    posts_to "logs3" effs = 2 /\ count is_sleep effs = 1 /\
    count is_gave_up effs = 0.
Proof.
  intros w.
  destruct (submit_stops_at_success Sample.constructJsonArray
              Sample.legacyEvent true ["{}"] w sample_flaky 1
              eq_refl eq_refl eq_refl)
    as [effs [w' [Hrun [_ [Htr [Hp [Hs Hg]]]]]]].
  - intros j Hj path body. destruct j as [|j]; [reflexivity|].
    apply PeanoNat.Nat.succ_lt_mono in Hj. inversion Hj.
  - reflexivity.
  - exists effs, w'. now repeat split.
Defined.

(** [span.log({output: "a"})] on a span that merges: the record has the
    output, the ids of the span and the merge flag. *)
Lemma span_log_record_witness :
  let w := Sample.world no_env in
  exists sp' w' rec,
    SpanImpl_log Sample.time_at Sample.mergeDicts [("output", JStr "a")]
      (Sample.span, w) = (Ok tt, (sp', w')) /\
    pending (bgLogger w') = (pending (bgLogger w) ++ [rec])%list /\
    prop IS_MERGE_FIELD (partialRecord rec) = JBool true /\
    obj_get "output" (partialRecord rec) = Some (JStr "a") /\
    obj_get "span_id" (partialRecord rec) = Some (JStr "span").
Proof.
  intros w.
  let v := eval vm_compute in
    (SpanImpl_log Sample.time_at Sample.mergeDicts [("output", JStr "a")]
       (Sample.span, w)) in
  match v with
  | (Ok tt, (?a, ?s)) => pose (sp' := a); pose (w' := s)
  end.
  assert (H : SpanImpl_log Sample.time_at Sample.mergeDicts
                [("output", JStr "a")] (Sample.span, w)
              = (Ok tt, (sp', w'))) by reflexivity.
  destruct (span_log_record Sample.time_at Sample.mergeDicts
              Sample.mergeDicts_empty_l [("output", JStr "a")]
              Sample.span sp' w w') as [_ [sanitized [rec Hrec]]].
  - unfold wf_object. simpl. repeat split. repeat constructor. intros [].
  - reflexivity.
  - exact H.
  - destruct Hrec as [Hs [Hpend [_ [_ [Hmerge [Hset Hunset]]]]]].
    injection Hs as <-.
    exists sp', w', rec. split; [exact H|]. split; [exact Hpend|].
    split; [exact Hmerge|].
    split; [exact (Hset "output" (JStr "a") ltac:(discriminate) eq_refl)|].
    exact (Hunset "span_id" ltac:(discriminate) eq_refl).
Defined.

(** Tags logged to a span that has a parent. *)
Lemma child_span_rejects_tags_witness :
  let w := Sample.world no_env in
  exists sp',
    SpanImpl_log Sample.time_at Sample.mergeDicts
      [("tags", JArr [JStr "a"])] (sample_child, w)
    = (Throw (Error "Tags can only be logged to the root span"), (sp', w)).
Proof.
  intros w.
  destruct (child_span_rejects_tags Sample.time_at Sample.mergeDicts
              Sample.mergeDicts_empty_l [("tags", JArr [JStr "a"])]
              [("tags", JArr [JStr "a"])] (JStr "a") [] sample_child w)
    as [sp' [Hrun _]]; try reflexivity.
  - unfold wf_object. simpl. repeat split. repeat constructor. intros [].
  - exists sp'. exact Hrun.
Defined.

(** The two records of a span that is created and ended at once. *)
Lemma span_merge_flag_witness :
  let w := Sample.world no_env in
  exists sp w1 rec1 t sp2 w2 rec2,
    SpanImpl_new Sample.uuid_at Sample.time_at Sample.mergeDicts None
      Sample.toISOString Sample.root_args w = (Ok sp, w1) /\
    pending (bgLogger w1) = (pending (bgLogger w) ++ [rec1])%list /\
    prop IS_MERGE_FIELD (partialRecord rec1) = JBool false /\
    SpanImpl_end Sample.time_at Sample.mergeDicts None (sp, w1)
    = (Ok t, (sp2, w2)) /\
    pending (bgLogger w2) = (pending (bgLogger w1) ++ [rec2])%list /\
    prop IS_MERGE_FIELD (partialRecord rec2) = JBool true.
Proof.
  intros w.
  destruct (span_merge_flag Sample.uuid_at Sample.time_at Sample.mergeDicts
              None Sample.toISOString) as [Hnew Hend].
  let v := eval vm_compute in
    (SpanImpl_new Sample.uuid_at Sample.time_at Sample.mergeDicts None
       Sample.toISOString Sample.root_args w) in
  match v with
  | (Ok ?a, ?s) => pose (sp := a); pose (w1 := s)
  end.
  let v := eval vm_compute in
    (SpanImpl_end Sample.time_at Sample.mergeDicts None (sp, w1)) in
  match v with
  | (Ok ?x, (?a, ?s)) => pose (t := x); pose (sp2 := a); pose (w2 := s)
  end.
  assert (H1 : SpanImpl_new Sample.uuid_at Sample.time_at Sample.mergeDicts
                 None Sample.toISOString Sample.root_args w = (Ok sp, w1))
    by reflexivity.
  assert (H2 : SpanImpl_end Sample.time_at Sample.mergeDicts None (sp, w1)
               = (Ok t, (sp2, w2))) by reflexivity.
  destruct (Hnew Sample.root_args w sp w1 eq_refl H1)
    as [_ [rec1 [Hp1 Hm1]]].
  destruct (Hend None sp w1 t sp2 w2 eq_refl H2) as [_ [rec2 [Hp2 Hm2]]].
  exists sp, w1, rec1, t, sp2, w2, rec2. now repeat split.
Defined.

(** A toplevel [log] of an event with an id, and of one without. *)
Lemma toplevel_log_id_witness :
  let w := Sample.world no_env in
  let Llog :=
    Logger_log Sample.uuid_at Sample.time_at Sample.mergeDicts
      Sample.fromStr Sample.project_id None Sample.toISOString in
  (exists lw', Llog [("id", JStr "row-1"); ("input", JStr "q")] true
                 (sample_logger, w) = (Ok (JStr "row-1"), lw')) /\
  (exists lw', Llog [("input", JStr "q")] true (sample_logger, w)
               = (Ok (JStr (Sample.uuid_at 0)), lw')).
Proof.
  intros w Llog.
  split.
  - let v := eval vm_compute in
      (Llog [("id", JStr "row-1"); ("input", JStr "q")] true
         (sample_logger, w)) in
    match v with
    | (Ok ?i, (?a, ?s)) => pose (id := i); pose (lg' := a); pose (w' := s)
    end.
    assert (H : Llog [("id", JStr "row-1"); ("input", JStr "q")] true
                  (sample_logger, w) = (Ok id, (lg', w'))) by reflexivity.
    destruct (proj1 (toplevel_log_id Sample.uuid_at Sample.time_at
                Sample.mergeDicts Sample.isEmpty Sample.fromStr
                Sample.project_id None Sample.toISOString
                [("id", JStr "row-1"); ("input", JStr "q")] true w)
                sample_logger id lg' w' H) as [Hid _].
    exists (lg', w'). rewrite H. now rewrite Hid.
  - let v := eval vm_compute in
      (Llog [("input", JStr "q")] true (sample_logger, w)) in
    match v with
    | (Ok ?i, (?a, ?s)) => pose (id := i); pose (lg' := a); pose (w' := s)
    end.
    assert (H : Llog [("input", JStr "q")] true (sample_logger, w)
                = (Ok id, (lg', w'))) by reflexivity.
    destruct (proj1 (toplevel_log_id Sample.uuid_at Sample.time_at
                Sample.mergeDicts Sample.isEmpty Sample.fromStr
                Sample.project_id None Sample.toISOString
                [("input", JStr "q")] true w)
                sample_logger id lg' w' H) as [Hid _].
    exists (lg', w'). rewrite H. now rewrite Hid.
Defined.

(** The organizations of a login, and a state that has been reset. *)
Definition sample_orgs : list JsValue :=
  [JObj [("id", JStr "o1"); ("name", JStr "acme");
         ("api_url", JStr "https://api.acme.example");
         ("proxy_url", JStr "https://proxy.acme.example")];
   JObj [("id", JStr "o2"); ("name", JStr "globex");
         ("api_url", JStr "https://api.globex.example");
         ("proxy_url", JNull);
         ("git_metadata", JObj [("collect", JStr "all")])];
   JObj [("id", JStr "o3"); ("name", JStr "globex");
         ("api_url", JStr "https://api2.globex.example")]].

Definition sample_login : LoginState :=
  {| appUrl := JStr "https://www.braintrust.dev";
     appPublicUrl := JStr "https://www.braintrust.dev";
     loginToken := JStr "sk-token";
     orgId := JStr "o1";
     orgName := JStr "acme";
     apiUrl := JStr "https://api.acme.example";
     proxyUrl := JStr "https://proxy.acme.example";
     loggedIn := true;
     gitMetadataSettings := JUndefined;
     _appConn := None; _apiConn := None; _proxyConn := None |}.

(** The second organization is the first one named [globex]. *)
Lemma check_org_info_first_match_witness :
  exists s',
    _check_org_info Sample.stringify None None sample_orgs (Some "globex")
      (resetLoginInfo sample_login) = (Ok tt, s') /\
    orgId s' = JStr "o2" /\
    apiUrl s' = JStr "https://api.globex.example".
Proof.
  eexists. split; [|split].
  - exact (check_org_info_first_match Sample.stringify None None
             (Some "globex")
             [JObj [("id", JStr "o1"); ("name", JStr "acme");
                    ("api_url", JStr "https://api.acme.example");
                    ("proxy_url", JStr "https://proxy.acme.example")]]
             [JObj [("id", JStr "o3"); ("name", JStr "globex");
                    ("api_url", JStr "https://api2.globex.example")]]
             [("id", JStr "o2"); ("name", JStr "globex");
              ("api_url", JStr "https://api.globex.example");
              ("proxy_url", JNull);
              ("git_metadata", JObj [("collect", JStr "all")])]
             (resetLoginInfo sample_login)
             ltac:(repeat constructor) eq_refl ltac:(discriminate)).
  - reflexivity.
  - reflexivity.
Defined.

(** A name that no organization has, on a state that has been reset:
    no error. *)
Lemma check_org_info_no_match_witness :
  _check_org_info Sample.stringify None None sample_orgs (Some "initech")
    (resetLoginInfo sample_login)
  = (Ok tt, resetLoginInfo sample_login).
Proof.
  refine (proj2 (proj2 (check_org_info_no_match Sample.stringify None None
                          "initech" sample_orgs sample_login _ _))).
  - discriminate.
  - repeat constructor.
Defined.

(** The first [apiConn()] of a state creates the connection the second
    one returns. *)
Lemma apiConn_cached_witness :
  exists c s',
    BraintrustState_apiConn sample_login = (Ok c, s') /\
    BraintrustState_apiConn s' = (Ok c, s') /\
    base_url c = JStr "https://api.acme.example".
Proof.
  let v := eval vm_compute in (BraintrustState_apiConn sample_login) in
  match v with
  | (Ok ?a, ?s) => pose (c := a); pose (s' := s)
  end.
  assert (H : BraintrustState_apiConn sample_login = (Ok c, s'))
    by reflexivity.
  destruct (proj1 (proj2 (proj2 (apiConn_cached sample_login))) c s' H)
    as [_ [Hagain Hnew]].
  exists c, s'. split; [exact H|]. split; [exact Hagain|].
  now rewrite (Hnew eq_refl).
Defined.

(** A state that is logged in survives [serialize] and
    [deserialize]. *)
Lemma serialize_deserialize_witness :
  exists d s',
    BraintrustState_serialize sample_login = Ok d /\
    BraintrustState_deserialize (fun t => t) (inr d) = Ok s' /\
    BraintrustState_serialize s' = Ok d /\
    loggedIn s' = true.
Proof.
  let v := eval vm_compute in (BraintrustState_serialize sample_login) in
  match v with
  | Ok ?a => pose (d := a)
  end.
  assert (H : BraintrustState_serialize sample_login = Ok d) by reflexivity.
  destruct (serialize_deserialize (fun t => t) sample_login d "sk-token"
              H eq_refl) as [s' [Hde [Hser [Hlog _]]]].
  exists d, s'. now repeat split.
Defined.

(** Three records: the greatest id in the order of strings is ["9"],
    not ["10"]. *)
Lemma version_is_greatest_witness :
  ObjectFetcher_version Sample.stringify None
    [JObj [("_xact_id", JStr "9")]; JObj [("_xact_id", JStr "10")];
     JObj [("id", JStr "x")]]
  = Ok (Some "9").
Proof.
  destruct (proj2 (version_is_greatest Sample.stringify None
              [JObj [("_xact_id", JStr "9")]; JObj [("_xact_id", JStr "10")];
               JObj [("id", JStr "x")]]) eq_refl ltac:(repeat constructor))
    as [ids [Hids Hmax]].
  injection Hids as <-.
  destruct Hmax as [m [Hrun [Hin Hle]]].
  rewrite Hrun. do 2 f_equal.
  destruct Hin as [<-|[<-|[<-|[]]]]; [reflexivity | |];
    inversion Hle as [|? ? H9 _]; discriminate H9.
Defined.

(** A toplevel [log] on an empty queue leaves two records. *)
Lemma toplevel_log_records_witness :
  let w := Sample.world no_env in
  let Llog :=
    Logger_log Sample.uuid_at Sample.time_at Sample.mergeDicts
      Sample.fromStr Sample.project_id None Sample.toISOString in
  exists rec1 rec2,
    pending (bgLogger (snd (snd (Llog [("input", JStr "q")] true
                                   (sample_logger, w)))))
    = [rec1; rec2] /\
    prop IS_MERGE_FIELD (partialRecord rec1) = JBool false /\
    prop IS_MERGE_FIELD (partialRecord rec2) = JBool true.
Proof.
  intros w Llog.
  let v := eval vm_compute in
    (Llog [("input", JStr "q")] true (sample_logger, w)) in
  match v with
  | (Ok ?i, (?a, ?s)) => pose (id := i); pose (lg' := a); pose (w' := s)
  end.
  assert (H : Llog [("input", JStr "q")] true (sample_logger, w)
              = (Ok id, (lg', w'))) by reflexivity.
  destruct (toplevel_log_records Sample.uuid_at Sample.time_at
              Sample.mergeDicts Sample.fromStr Sample.project_id None
              Sample.toISOString [("input", JStr "q")] true
              sample_logger lg' w w' id eq_refl H)
    as [rec1 [rec2 [Hp Hm]]].
  exists rec1, rec2. rewrite H. cbn [snd]. split; [exact Hp | exact Hm].
Defined.
